(** * Collection and publishing pipelines: model and properties

    A shallow embedding of the two scripts of the repository,

    - [scripts/integrations.py]  (publishing to Coupa, PIEE and SAM.gov), and
    - [scripts/nightly_audit.py] (collection of mail, SMS and device inventory),

    as state-passing functions over an explicit world (file system, standard
    streams, clock, and the ordered trace of requests sent to the outside).

    Modelling boundary.  The Python builtins and library calls whose results
    the scripts only pass along ([float], [int], [strptime], [str.strip],
    the JSON and CSV codecs, the clock) are the fields of the class
    [Python]; the remote parties (HTTP endpoints, the IMAP server, the SMS
    provider) are the fields of the record [Services], and each of them may
    answer or raise.  Operating-system failures (permissions, a full disk, a
    directory where a file is expected) are outside the model: every
    file-system call succeeds; the codec that reads a file may still raise
    on what the file holds. *)

From Stdlib Require Import ZArith String Ascii List.
From stdpp Require Import base option list strings gmap pretty.

Set Warnings "-register-all".

Local Open Scope Z_scope.
Local Open Scope string_scope.

(** ** Python values, exceptions and outcomes *)

(** An exception other than [SystemExit]: its class name and [str(e)]. *)
Record Exn := mkExn { exn_class : string; exn_str : string }.

(** A calendar date ([datetime.date]). *)
Record Date := mkDate { year : Z; month : Z; day : Z }.

(** How a call ends: it returns, [sys.exit(code)] unwinds the process, or an
    exception propagates.  [except Exception] catches [Raises] only. *)
Inductive Outcome (A : Type) : Type :=
| Ret (a : A)
| Exits (code : Z)
| Raises (e : Exn).
Arguments Ret {A} a.
Arguments Exits {A} code.
Arguments Raises {A} e.

(** Python's [float], at its interface.  A result in [Exn + _] is [inl e]
    when the call raises [e]. *)
Class PyFloat := {
  pyfloat : Type;
  float_of_int : Z → pyfloat;                     (* float(n) *)
  float_add : pyfloat → pyfloat → pyfloat;        (* a + b *)
  float_of_str : string → Exn + pyfloat;          (* float(s) *)
}.

(** Python values as far as the scripts build, print and serialise them.
    A [dict] keeps insertion order, so it is an association list. *)
Inductive PyVal `{PyFloat} : Type :=
| VNone
| VBool (b : bool)
| VInt (z : Z)
| VFloat (f : pyfloat)
| VStr (s : string)
| VList (l : list PyVal)
| VDict (kvs : list (string * PyVal)).

(** A ledger row as [csv.DictReader] delivers it, seen through [r.get]: a
    column that is absent or was left unfilled ([None]) has no entry. *)
Abbreviation Row := (gmap string string).

(** The remaining builtins and standard-library calls, at their interface. *)
Class Python := {
  #[global] py_float :: PyFloat;
  int_of_str : string → Exn + Z;                  (* int(s) *)
  str_strip : string → string;                    (* s.strip() *)
  str_lower : string → string;                    (* s.lower() *)
  strptime_ymd : string → Exn + Date;             (* datetime.strptime(s, '%Y-%m-%d').date() *)
  isoformat : Date → string;                      (* d.isoformat() *)
  strftime_dbY : Date → string;                   (* d.strftime('%d-%b-%Y') *)
  utcnow_isoformat : nat → string;                (* datetime.utcnow().isoformat(), n-th reading *)
  utcnow_date : nat → Date;                       (* datetime.utcnow().date(), n-th reading *)
  json_dumps : PyVal → string;                    (* json.dump(v, f, indent=2) *)
  json_loads : string → Exn + PyVal;              (* json.load(f) *)
  csv_DictReader : string → Exn + list Row;       (* list(csv.DictReader(f)) *)
  py_repr : PyVal → string;                       (* f'{v}' *)
  int_of_str_993 : int_of_str "993" = inr 993;
}.

Section Model.
Context `{Python}.

(** [d[k] = v] on a dict: overwrite in place, or append a new key. *)
Fixpoint dict_set (k : string) (v : PyVal) (kvs : list (string * PyVal)) : list (string * PyVal) :=
  match kvs with
  | [] => [(k, v)]
  | (k', v') :: rest => if decide (k' = k) then (k, v) :: rest else (k', v') :: dict_set k v rest
  end.

(** [d.get(k)] on a dict. *)
Fixpoint dict_get (k : string) (kvs : list (string * PyVal)) : option PyVal :=
  match kvs with
  | [] => None
  | (k', v) :: rest => if decide (k' = k) then Some v else dict_get k rest
  end.

(** [v.get(k)] / [v[k]] where [v] is expected to be a dict. *)
Definition val_get (k : string) (v : PyVal) : option PyVal :=
  match v with VDict kvs => dict_get k kvs | _ => None end.

Definition dict_keys (v : PyVal) : list string :=
  match v with VDict kvs => kvs.*1 | _ => [] end.

(** [isinstance(v, list)] *)
Definition is_list (v : PyVal) : bool :=
  match v with VList _ => true | _ => false end.

(** Truthiness of a value that is [None] or a [str], as in [if url and key]. *)
Definition truthy (o : option string) : bool :=
  match o with
  | None => false
  | Some s => if decide (s = "") then false else true
  end.

Definition opt_str (o : option string) : PyVal :=
  match o with None => VNone | Some s => VStr s end.

(** [sep.join(l)] *)
Fixpoint str_join (sep : string) (l : list string) : string :=
  match l with
  | [] => ""
  | [s] => s
  | s :: rest => s +:+ sep +:+ str_join sep rest
  end.

(** [s.split(',')] for the one-character separator the scripts use. *)
Fixpoint str_split (sep : ascii) (s : string) : list string :=
  match s with
  | EmptyString => [""]
  | String c rest =>
      if decide (c = sep) then "" :: str_split sep rest
      else match str_split sep rest with
           | [] => [String c ""]
           | w :: ws => String c w :: ws
           end
  end.

(** [s.rstrip('/')] *)
Fixpoint rstrip_slash (s : string) : string :=
  match s with
  | EmptyString => ""
  | String c rest =>
      match rstrip_slash rest with
      | EmptyString => if decide (c = "/"%char) then "" else String c ""
      | r => String c r
      end
  end.

Fixpoint ends_with_slash (s : string) : bool :=
  match s with
  | EmptyString => false
  | String c EmptyString => if decide (c = "/"%char) then true else false
  | String _ rest => ends_with_slash rest
  end.

(** [os.path.join(a, b)] for a relative second component. *)
Definition path_join (a b : string) : string :=
  if decide (a = "") then b
  else if ends_with_slash a then a +:+ b
  else a +:+ "/" +:+ b.

(** ** The world *)

(** A request that leaves the process, in the order sent. *)
Inductive Event : Type :=
| EvPost (url : string) (headers : list (string * string)) (body : PyVal)
| EvPostFile (url : string) (headers : list (string * string)) (path : string)
| EvGet (url : string) (headers : list (string * string))
| EvImapConnect (host : option string) (port : Z)
| EvImapLogin (user pwd : option string)
| EvImapSelect (folder : string)
| EvImapSearch (criteria : list string)
| EvImapFetch (uids : list Z)
| EvImapLogout
| EvSmsList (sid token to : string) (after : Date).

Record World := mkWorld {
  files : gmap string (list string); (* regular files: path to the pieces
                                        written since the last truncation *)
  dirs : gset string;              (* directories that were asked for *)
  stdout : list string;            (* lines printed, oldest first *)
  stderr : list string;
  trace : list Event;              (* requests sent, oldest first *)
  clock : nat;                     (* clock readings taken so far *)
}.

Definition Run (A : Type) : Type := World → Outcome A * World.

Definition ret {A} (a : A) : Run A := λ w, (Ret a, w).
Definition bind {A B} (m : Run A) (k : A → Run B) : Run B :=
  λ w, match m w with
       | (Ret a, w') => k a w'
       | (Exits c, w') => (Exits c, w')
       | (Raises e, w') => (Raises e, w')
       end.
Definition sys_exit {A} (code : Z) : Run A := λ w, (Exits code, w).
Definition raise {A} (e : Exn) : Run A := λ w, (Raises e, w).

(** [try: m except Exception as e: h e] *)
Definition try_except {A} (m : Run A) (h : Exn → Run A) : Run A :=
  λ w, match m w with
       | (Raises e, w') => h e w'
       | r => r
       end.

(** Lift a library result that may raise. *)
Definition lift {A} (r : Exn + A) : Run A :=
  match r with inl e => raise e | inr a => ret a end.

End Model.

Notation "x <- m ;; k" := (bind m (λ x, k))
  (at level 100, m at next level, right associativity).
Notation "m ;;; k" := (bind m (λ _, k))
  (at level 100, right associativity).

(** ** Remote parties *)

(** What [requests] hands back: [resp_json] is [r.json()], which may raise. *)
Record Response `{PyFloat} := mkResponse {
  resp_ok : bool;                  (* r.ok *)
  status_code : Z;                 (* r.status_code *)
  resp_text : string;              (* r.text *)
  resp_json : Exn + PyVal;         (* r.json() *)
}.

(** A message as [mailparser] parses it. *)
Record ParsedMail := mkParsedMail {
  mail_subject : string;
  mail_from : string;
  mail_to : option (list string);
  mail_date : string;
}.

(** A message as the SMS provider lists it. *)
Record SmsMessage := mkSms {
  sms_sid : string;
  sms_from : string;
  sms_to : string;
  sms_body : string;
  sms_date_sent : string;          (* str(m.date_sent) *)
}.

(** Every remote call sees the requests sent before it and answers or
    raises. *)
Record Services `{Python} := mkServices {
  requests_post : list Event → string → list (string * string) → PyVal → Exn + Response;
  requests_post_files : list Event → string → list (string * string) → string → Exn + Response;
  requests_get : list Event → string → list (string * string) → Exn + Response;
  imap_connect : list Event → option string → Z → Exn + unit;
  imap_login : list Event → option string → option string → Exn + unit;
  imap_select_folder : list Event → string → Exn + unit;
  imap_search : list Event → list string → Exn + list Z;
  imap_fetch : list Event → list Z → Exn + list (Z * string);
  imap_logout : list Event → Exn + unit;
  parse_from_bytes : string → Exn + ParsedMail;
  twilio_list : list Event → string → string → string → Date → Exn + list SmsMessage;
}.

(** ** Primitive effects *)

Section Effects.
Context `{Python}.

Definition set_files (f : gmap string (list string) → gmap string (list string))
    (w : World) : World :=
  mkWorld (f (files w)) (dirs w) (stdout w) (stderr w) (trace w) (clock w).
Definition set_dirs (f : gset string → gset string) (w : World) : World :=
  mkWorld (files w) (f (dirs w)) (stdout w) (stderr w) (trace w) (clock w).
Definition set_stdout (f : list string → list string) (w : World) : World :=
  mkWorld (files w) (dirs w) (f (stdout w)) (stderr w) (trace w) (clock w).
Definition set_stderr (f : list string → list string) (w : World) : World :=
  mkWorld (files w) (dirs w) (stdout w) (f (stderr w)) (trace w) (clock w).
Definition set_trace (f : list Event → list Event) (w : World) : World :=
  mkWorld (files w) (dirs w) (stdout w) (stderr w) (f (trace w)) (clock w).
Definition set_clock (f : nat → nat) (w : World) : World :=
  mkWorld (files w) (dirs w) (stdout w) (stderr w) (trace w) (f (clock w)).

(** [os.makedirs(p, exist_ok=True)].  [dirs] records the paths that were
    asked for; the missing ancestors the call creates on the way are not
    tracked. *)
Definition makedirs (p : string) : Run unit :=
  λ w, (Ret tt, set_dirs (λ d, {[p]} ∪ d) w).

(** [os.path.exists(p)] *)
Definition path_exists (p : string) : Run bool :=
  λ w, (Ret (bool_decide (is_Some (files w !! p))), w).

(** [open(p).read()] *)
Definition read_file (p : string) : Run string :=
  λ w, match files w !! p with
       | Some pieces => (Ret (String.concat "" pieces), w)
       | None => (Raises (mkExn "FileNotFoundError" p), w)
       end.

(** [open(p, 'w').write(c)] *)
Definition write_file (p c : string) : Run unit :=
  λ w, (Ret tt, set_files (λ fs, <[p := [c]]> fs) w).

(** [open(p, 'a').write(c)] *)
Definition append_file (p c : string) : Run unit :=
  λ w, (Ret tt, set_files (λ fs, <[p := (default [] (fs !! p) ++ [c])%list]> fs) w).

(** [print(s)] and [print(s, file=sys.stderr)] *)
Definition print (s : string) : Run unit :=
  λ w, (Ret tt, set_stdout (λ o, (o ++ [s])%list) w).
Definition eprint (s : string) : Run unit :=
  λ w, (Ret tt, set_stderr (λ o, (o ++ [s])%list) w).

(** [datetime.utcnow().isoformat()] *)
Definition utcnow : Run string :=
  λ w, (Ret (utcnow_isoformat (clock w)), set_clock S w).

(** [datetime.utcnow().date()] *)
Definition utcnow_today : Run Date :=
  λ w, (Ret (utcnow_date (clock w)), set_clock S w).

(** A remote call: the request joins the trace, then the party answers. *)
Definition call {A} (ev : Event) (answer : list Event → Exn + A) : Run A :=
  λ w, let w' := set_trace (λ t, (t ++ [ev])%list) w in
       match answer (trace w) with
       | inl e => (Raises e, w')
       | inr a => (Ret a, w')
       end.

(** [os.getenv(k)] and [os.getenv(k, d)] *)
Definition getenv (env : gmap string string) (k : string) : option string := env !! k.
Definition getenv_or (env : gmap string string) (k d : string) : string :=
  default d (env !! k).

Definition newline : string := String "010"%char "".

End Effects.

(** The status the interpreter hands to the operating system when the
    script's [run()] ends with the given outcome. *)
Definition exit_status {A} (o : Outcome A) : Z :=
  match o with
  | Ret _ => 0
  | Exits c => c
  | Raises _ => 1
  end.

Definition nonempty {A} (l : list A) : bool :=
  match l with [] => false | _ :: _ => true end.

(** All-or-first-error traversal: a list comprehension whose element
    expression may raise. *)
Fixpoint traverse {E A B} (f : A → E + B) (l : list A) : E + list B :=
  match l with
  | [] => inr []
  | a :: rest =>
      match f a with
      | inl e => inl e
      | inr b => match traverse f rest with
                 | inl e => inl e
                 | inr bs => inr (b :: bs)
                 end
      end
  end.

(** * [scripts/integrations.py] *)

Module Integrations.
Section Script.
Context `{Python} (svc : Services) (env : gmap string string).

Definition load_ledger (path : string) : Run (list Row) :=
  let ledger_path := path_join path "ledger.csv" in
  ex <- path_exists ledger_path ;;
  if negb ex then ret []
  else f <- read_file ledger_path ;;
       lift (csv_DictReader f).

Definition load_clearing (path : string) : Run (option PyVal) :=
  let cr := path_join (path_join path "clearing") "clearing_report.json" in
  ex <- path_exists cr ;;
  if negb ex then ret None
  else f <- read_file cr ;;
       doc <- lift (json_loads f) ;;
       ret (Some doc).

Definition post (url key : string) (payload : PyVal) : Run PyVal :=
  let headers :=
    ("Content-Type", "application/json") ::
    (if truthy (Some key) then [("Authorization", "Bearer " +:+ key)] else []) in
  try_except
    (resp <- call (EvPost url headers payload)
                  (λ sent, requests_post svc sent url headers payload) ;;
     ret (VDict [("ok", VBool (resp_ok resp));
                 ("status", VInt (status_code resp));
                 ("body", VStr (resp_text resp))]))
    (λ e, ret (VDict [("ok", VBool false); ("error", VStr (exn_str e))])).

(** The closure [log] of [run], with the path it closes over. *)
Definition log (log_path msg : string) : Run unit :=
  now <- utcnow ;;
  let timestamp := now +:+ "Z" in
  let line := timestamp +:+ " " +:+ msg +:+ newline in
  append_file log_path line ;;;
  print line.

(** The [enterprise] dict: key and the environment variable it is read from. *)
Definition enterprise_vars : list (string * string) :=
  [("uei", "UEI"); ("cage", "CAGE_CODE");
   ("dodaac_contracting", "DODAAC_CONTRACTING");
   ("dodaac_funding", "DODAAC_FUNDING");
   ("paying_dodaac", "PAYING_DODAAC");
   ("fedstrip", "FEDSTRIP");
   ("finance_unitid", "FINANCE_UNITID");
   ("cag_code", "CAG_CODE");
   ("ba_codes", "BA_CODES");
   ("scf_code", "SCF_CODE");
   ("district_cd", "DISTRICT_CD");
   ("eps", "EPS")].

Definition enterprise : list (string * string) :=
  (λ kv, (kv.1, getenv_or env kv.2 "")) <$> enterprise_vars.

Fixpoint alist_get (k : string) (kvs : list (string * string)) : option string :=
  match kvs with
  | [] => None
  | (k', v) :: rest => if decide (k' = k) then Some v else alist_get k rest
  end.

Definition enterprise_get (k : string) : option string := alist_get k enterprise.

Definition enterprise_val : PyVal :=
  VDict ((λ kv, (kv.1, VStr kv.2)) <$> enterprise).

(** Lines 97-101: the required identifiers that are not set. *)
Definition missing_identifiers : list string :=
  ((if truthy (enterprise_get "uei") then [] else ["UEI"]) ++
   (if truthy (enterprise_get "cage") then [] else ["CAGE_CODE"]))%list.

Definition recommended : list string :=
  ["dodaac_contracting"; "paying_dodaac"; "fedstrip"; "finance_unitid"].

Definition warn_missing : list string :=
  filter (λ k, truthy (enterprise_get k) = false) recommended.

Definition error_doc (missing : list string) (run_ts : string) : PyVal :=
  VDict [("error", VStr "missing_identifiers");
         ("missing", VList (VStr <$> missing));
         ("run_ts", VStr run_ts)].

Definition coupa_item (r : Row) : PyVal :=
  VDict [("message_id", opt_str (r !! "message_id"));
         ("vendor", opt_str (r !! "from"));
         ("amount", opt_str (r !! "amount"));
         ("currency", opt_str (r !! "currency"));
         ("subject", opt_str (r !! "subject"))].

Definition coupa_payload (run_ts : string) (ledger : list Row) : PyVal :=
  VDict [("summary_ts", VStr run_ts);
         ("source", VStr "vbtn_email_processor");
         ("enterprise", enterprise_val);
         ("items", VList (coupa_item <$> ledger))].

(** [float(r.get('amount') or 0)] *)
Definition amount_float (r : Row) : Exn + pyfloat :=
  if truthy (r !! "amount")
  then float_of_str (default "" (r !! "amount"))
  else inr (float_of_int 0).

(** [sum(l)] over floats: starts from the int [0]. *)
Definition py_add (acc : PyVal) (x : pyfloat) : PyVal :=
  match acc with
  | VFloat a => VFloat (float_add a x)
  | VInt z => VFloat (float_add (float_of_int z) x)
  | other => other
  end.
Definition py_sum (l : list pyfloat) : PyVal := fold_left py_add l (VInt 0).

(** [sum([float(r.get('amount') or 0) for r in ledger])] *)
Definition total_amount (ledger : list Row) : Exn + PyVal :=
  match traverse amount_float ledger with
  | inl e => inl e
  | inr amounts => inr (py_sum amounts)
  end.

Definition piee_payload (run_ts : string) (ledger : list Row) : Exn + PyVal :=
  match total_amount ledger with
  | inl e => inl e
  | inr total =>
      inr (VDict [("report_ts", VStr run_ts);
                  ("enterprise", enterprise_val);
                  ("items_count", VInt (Z.of_nat (length ledger)));
                  ("total_amount", total)])
  end.

Definition sam_payload (run_ts : string) (ledger : list Row) : PyVal :=
  VDict (((λ k, (k, opt_str (enterprise_get k))) <$> enterprise_vars.*1) ++
         [("items", VInt (Z.of_nat (length ledger))); ("timestamp", VStr run_ts)])%list.

Definition report_doc (run_ts : string) (ledger : list Row)
    (results : list (string * PyVal)) : PyVal :=
  VDict [("run_ts", VStr run_ts);
         ("counts", VDict [("ledger_rows", VInt (Z.of_nat (length ledger)))]);
         ("results", VDict results);
         ("enterprise", enterprise_val)].

(** Lines 117-135 *)
Definition coupa_step (log_path run_ts : string) (ledger : list Row)
    (results : list (string * PyVal)) : Run (list (string * PyVal)) :=
  let coupa_url := getenv env "COUPA_API_URL" in
  let coupa_key := getenv env "COUPA_API_KEY" in
  if truthy coupa_url && truthy coupa_key then
    log log_path "Posting to Coupa..." ;;;
    let payload := coupa_payload run_ts ledger in
    res <- post (default "" coupa_url) (default "" coupa_key) payload ;;
    let results := dict_set "coupa" res results in
    log log_path ("Coupa response: " +:+ py_repr res) ;;;
    ret results
  else
    log log_path "Skipping Coupa: credentials or URL not set" ;;;
    ret results.

(** Lines 137-152 *)
Definition piee_step (log_path run_ts : string) (ledger : list Row)
    (results : list (string * PyVal)) : Run (list (string * PyVal)) :=
  let piee_url := getenv env "PIEE_API_URL" in
  let piee_key := getenv env "PIEE_API_KEY" in
  if truthy piee_url && truthy piee_key then
    log log_path "Posting to PIEE..." ;;;
    payload <- lift (piee_payload run_ts ledger) ;;
    res <- post (default "" piee_url) (default "" piee_key) payload ;;
    let results := dict_set "piee" res results in
    log log_path ("PIEE response: " +:+ py_repr res) ;;;
    ret results
  else
    log log_path "Skipping PIEE: credentials or URL not set" ;;;
    ret results.

(** Lines 154-179 *)
Definition sam_step (log_path run_ts : string) (ledger : list Row)
    (results : list (string * PyVal)) : Run (list (string * PyVal)) :=
  let sam_url := getenv env "SAM_API_URL" in
  let sam_key := getenv env "SAM_API_KEY" in
  if truthy sam_url && truthy sam_key then
    log log_path "Posting to SAM.gov..." ;;;
    let payload := sam_payload run_ts ledger in
    res <- post (default "" sam_url) (default "" sam_key) payload ;;
    let results := dict_set "sam" res results in
    log log_path ("SAM response: " +:+ py_repr res) ;;;
    ret results
  else
    log log_path "Skipping SAM.gov: credentials or URL not set" ;;;
    ret results.

(** Lines 96-186, once the ledger is loaded and the run timestamp taken. *)
Definition publish (inp log_path run_ts : string) (ledger : list Row) : Run Z :=
  let missing := missing_identifiers in
  if nonempty missing then
    log log_path ("Missing required enterprise identifiers: "
                  +:+ str_join ", " missing +:+ ". Aborting integrations.") ;;;
    let out_report := path_join inp "integrations_report.json" in
    write_file out_report (json_dumps (error_doc missing run_ts)) ;;;
    sys_exit 3
  else
    (if nonempty warn_missing then
       log log_path ("Warning: recommended enterprise identifiers missing: "
                     +:+ str_join ", " warn_missing
                     +:+ ". Reports will proceed but may be incomplete.")
     else ret tt) ;;;
    results <- coupa_step log_path run_ts ledger [] ;;
    results <- piee_step log_path run_ts ledger results ;;
    results <- sam_step log_path run_ts ledger results ;;
    let out_report := path_join inp "integrations_report.json" in
    write_file out_report (json_dumps (report_doc run_ts ledger results)) ;;;
    log log_path ("Wrote integrations_report.json (" +:+ out_report +:+ ")") ;;;
    ret 0.

Definition run (args_input : string) : Run Z :=
  let inp := args_input in
  makedirs inp ;;;
  let log_path := path_join inp "integrations.log" in
  ledger <- load_ledger inp ;;
  clearing <- load_clearing inp ;;
  now <- utcnow ;;
  let run_ts := now +:+ "Z" in
  publish inp log_path run_ts ledger.

End Script.
End Integrations.

(** * [scripts/nightly_audit.py] *)

Module NightlyAudit.
Section Script.
Context `{Python} (svc : Services) (env : gmap string string).

Definition ensure_dir (p : string) : Run unit := makedirs p.

Definition mail_summary (uid : Z) (parsed : ParsedMail) : PyVal :=
  VDict [("uid", VInt uid);
         ("subject", VStr (mail_subject parsed));
         ("from", VStr (mail_from parsed));
         ("to", match mail_to parsed with
                | None => VNone
                | Some l => VList (VStr <$> l)
                end);
         ("date", VStr (mail_date parsed))].

(** Lines 41-50: the loop over the fetched messages. *)
Fixpoint retain_messages (targets : list string) (out_dir : string)
    (fetched : list (Z * string)) (results : list PyVal) : Run (list PyVal) :=
  match fetched with
  | [] => ret results
  | (uid, raw) :: rest =>
      parsed <- lift (parse_from_bytes svc raw) ;;
      let recipients := str_lower <$> default [] (mail_to parsed) in
      if existsb (λ t, bool_decide (t ∈ recipients)) targets then
        let path := path_join out_dir (pretty uid +:+ ".eml") in
        write_file path raw ;;;
        retain_messages targets out_dir rest (results ++ [mail_summary uid parsed])%list
      else
        retain_messages targets out_dir rest results
  end.

Definition fetch_emails (imap_host user pwd : option string) (port : Z)
    (targets : list string) (since_date : Date) (out_dir : string) : Run (list PyVal) :=
  call (EvImapConnect imap_host port) (λ sent, imap_connect svc sent imap_host port) ;;;
  call (EvImapLogin user pwd) (λ sent, imap_login svc sent user pwd) ;;;
  call (EvImapSelect "INBOX") (λ sent, imap_select_folder svc sent "INBOX") ;;;
  let criteria := ["SINCE"; strftime_dbY since_date] in
  msgs <- call (EvImapSearch criteria) (λ sent, imap_search svc sent criteria) ;;
  fetched <- call (EvImapFetch msgs) (λ sent, imap_fetch svc sent msgs) ;;
  results <- retain_messages targets out_dir fetched [] ;;
  call EvImapLogout (imap_logout svc) ;;;
  ret results.

Definition sms_record (m : SmsMessage) : PyVal :=
  VDict [("sid", VStr (sms_sid m));
         ("from", VStr (sms_from m));
         ("to", VStr (sms_to m));
         ("body", VStr (sms_body m));
         ("date_sent", VStr (sms_date_sent m))].

(** Lines 61-65: the loop over the phone numbers. *)
Fixpoint list_messages (sid token : string) (phone_numbers : list string)
    (since_date : Date) (results : list PyVal) : Run (list PyVal) :=
  match phone_numbers with
  | [] => ret results
  | num :: rest =>
      msgs <- call (EvSmsList sid token num since_date)
                   (λ sent, twilio_list svc sent sid token num since_date) ;;
      list_messages sid token rest since_date (results ++ (sms_record <$> msgs))%list
  end.

Definition fetch_twilio_messages (sid token : option string)
    (phone_numbers : list string) (since_date : Date) (out_dir : string)
    : Run (list PyVal) :=
  if negb (truthy sid) || negb (truthy token) then ret []
  else
    results <- list_messages (default "" sid) (default "" token)
                             phone_numbers since_date [] ;;
    write_file (path_join out_dir "sms.json") (json_dumps (VList results)) ;;;
    ret results.

Definition status_error (r : Response) : PyVal :=
  VDict [("error", VStr ("status " +:+ pretty (status_code r)));
         ("body", VStr (resp_text r))].

Definition fetch_apple_mdm (api_url api_key : option string) (out_dir : string)
    : Run PyVal :=
  if negb (truthy api_url) || negb (truthy api_key) then ret VNone
  else
    let headers := [("Authorization", "Bearer " +:+ default "" api_key);
                    ("Accept", "application/json")] in
    try_except
      (let url := rstrip_slash (default "" api_url) +:+ "/devices" in
       r <- call (EvGet url headers) (λ sent, requests_get svc sent url headers) ;;
       if resp_ok r then
         devices <- lift (resp_json r) ;;
         write_file (path_join out_dir "devices.json") (json_dumps devices) ;;;
         ret devices
       else
         ret (status_error r))
      (λ e, ret (VDict [("error", VStr (exn_str e))])).

(** [len(devices) if isinstance(devices, list) else 0] *)
Definition devices_count (devices : PyVal) : Z :=
  match devices with
  | VList l => Z.of_nat (length l)
  | _ => 0
  end.

(** Line 142 *)
Definition index_doc (since_dt : Date) (now : string)
    (emails sms : list PyVal) (devices : PyVal) : PyVal :=
  VDict [("run_from", VStr (isoformat since_dt));
         ("generated_ts", VStr (now +:+ "Z"));
         ("emails_count", VInt (Z.of_nat (length emails)));
         ("sms_count", VInt (Z.of_nat (length sms)));
         ("devices_count", VInt (devices_count devices))].

(** Lines 119-122 *)
Definition phone_numbers : list string :=
  let phone_nums_env := getenv_or env "PHONE_NUMBERS" "" in
  let phone_nums :=
    filter (λ p, p ≠ "") (str_strip <$> str_split ","%char phone_nums_env) in
  if bool_decide ("2704018770" ∈ phone_nums) then phone_nums
  else (phone_nums ++ ["2704018770"])%list.

(** Lines 146-156 *)
Definition upload (index_path : string) : Run unit :=
  let cloud_url := getenv env "CLOUD_ARCHIVE_URL" in
  let cloud_key := getenv env "CLOUD_ARCHIVE_KEY" in
  if truthy cloud_url && truthy cloud_key then
    content <- read_file index_path ;;
    let headers := [("Authorization", "Bearer " +:+ default "" cloud_key)] in
    try_except
      (r <- call (EvPostFile (default "" cloud_url) headers index_path)
                 (λ sent, requests_post_files svc sent (default "" cloud_url) headers content) ;;
       print ("Upload status " +:+ pretty (status_code r)))
      (λ e, print ("Upload failed " +:+ exn_str e))
  else ret tt.

(** Lines 111-157: the collectors, the index and the upload, once the run
    workspace exists. *)
Definition collect (targets : list string) (since_dt : Date) (run_folder : string)
    : Run unit :=
  let imap_host := getenv env "IMAP_HOST" in
  let imap_user := getenv env "IMAP_USER" in
  let imap_pass := getenv env "IMAP_PASSWORD" in
  imap_port <- lift (int_of_str (getenv_or env "IMAP_PORT" "993")) ;;
  let twilio_sid := getenv env "TWILIO_SID" in
  let twilio_token := getenv env "TWILIO_TOKEN" in
  let phone_nums := phone_numbers in
  let apple_mdm_url := getenv env "APPLE_MDM_API_URL" in
  let apple_mdm_key := getenv env "APPLE_MDM_API_KEY" in
  emails <- try_except
              (fetch_emails imap_host imap_user imap_pass imap_port
                            targets since_dt run_folder)
              (λ e, print ("Email fetch failed " +:+ exn_str e) ;;; ret []) ;;
  sms <- fetch_twilio_messages twilio_sid twilio_token phone_nums since_dt run_folder ;;
  devices <- fetch_apple_mdm apple_mdm_url apple_mdm_key run_folder ;;
  now <- utcnow ;;
  let index := index_doc since_dt now emails sms devices in
  write_file (path_join run_folder "index.json") (json_dumps index) ;;;
  upload (path_join run_folder "index.json") ;;;
  print "Nightly audit done".

Definition run (args_output_dir args_targets : string) (args_since : option string)
    : Run unit :=
  let out_base := args_output_dir in
  let targets := (λ t, str_lower (str_strip t)) <$> str_split ","%char args_targets in
  ensure_dir out_base ;;;
  let daily_root := path_join out_base "daily" in
  ensure_dir daily_root ;;;
  since_dt <- (if truthy args_since then
                 try_except
                   (lift (strptime_ymd (default "" args_since)))
                   (λ _, eprint "Invalid --since date format; use YYYY-MM-DD" ;;;
                         sys_exit 2)
               else utcnow_today) ;;
  let run_folder := path_join daily_root ("from-" +:+ isoformat since_dt) in
  ensure_dir run_folder ;;;
  collect targets since_dt run_folder.

End Script.
End NightlyAudit.

(** * A reference platform

    An executable instance of [Python] on which the scripts can be run on
    examples.  It covers ASCII text; numbers are written in plain decimal
    digits (no digit-group underscores, no [inf]/[nan]) and a float is kept as
    the exact decimal it was read from.  Text outside this fragment is
    rejected with [ValueError], as Python rejects text that is no number or
    no date at all. *)

Module Reference.

Definition value_error (msg : string) : Exn := mkExn "ValueError" msg.

(** [repr(s)] of a string without quotes or escapes, as error texts show it. *)
Definition quoted (s : string) : string := "'" +:+ s +:+ "'".

Definition is_digit (c : ascii) : bool :=
  let n := N_of_ascii c in (48 <=? n)%N && (n <=? 57)%N.
Definition digit_value (c : ascii) : Z := Z.of_N (N_of_ascii c) - 48.

(** [c.isspace()] on ASCII *)
Definition is_space (c : ascii) : bool :=
  let n := N_of_ascii c in
  ((9 <=? n)%N && (n <=? 13)%N) || ((28 <=? n)%N && (n <=? 32)%N).

Fixpoint lstrip (s : string) : string :=
  match s with
  | String c rest => if is_space c then lstrip rest else s
  | EmptyString => ""
  end.
Fixpoint rstrip (s : string) : string :=
  match s with
  | EmptyString => ""
  | String c rest =>
      match rstrip rest with
      | EmptyString => if is_space c then "" else String c ""
      | r => String c r
      end
  end.
Definition strip (s : string) : string := rstrip (lstrip s).

Definition lower_char (c : ascii) : ascii :=
  let n := N_of_ascii c in
  if (65 <=? n)%N && (n <=? 90)%N then ascii_of_N (n + 32) else c.
Fixpoint lower (s : string) : string :=
  match s with
  | EmptyString => ""
  | String c rest => String (lower_char c) (lower rest)
  end.

(** The value of a non-empty string of decimal digits. *)
Fixpoint digits_acc (acc : Z) (s : string) : option Z :=
  match s with
  | EmptyString => Some acc
  | String c rest =>
      if is_digit c then digits_acc (10 * acc + digit_value c) rest else None
  end.
Definition digits (s : string) : option Z :=
  match s with EmptyString => None | _ => digits_acc 0 s end.

(** An optional sign, then the rest. *)
Definition signed (s : string) : Z * string :=
  match s with
  | String "-" rest => (-1, rest)
  | String "+" rest => (1, rest)
  | _ => (1, s)
  end.

Definition int_of_str (s : string) : Exn + Z :=
  let '(sign, body) := signed (strip s) in
  match digits body with
  | Some n => inr (sign * n)
  | None => inl (value_error ("invalid literal for int() with base 10: " +:+ quoted s))
  end.

(** The text before the first [sep], and the text after it if [sep] occurs. *)
Fixpoint cut (sep : ascii → bool) (s : string) : string * option string :=
  match s with
  | EmptyString => ("", None)
  | String c rest =>
      if sep c then ("", Some rest)
      else let '(a, b) := cut sep rest in (String c a, b)
  end.

(** A float, kept exactly: [mant * 10 ^ expo]. *)
Record Dec := mkDec { mant : Z; expo : Z }.

Definition dec_add (a b : Dec) : Dec :=
  let e := Z.min (expo a) (expo b) in
  mkDec (mant a * 10 ^ (expo a - e) + mant b * 10 ^ (expo b - e)) e.

Definition is_e (c : ascii) : bool := bool_decide (c = "e"%char ∨ c = "E"%char).
Definition is_dot (c : ascii) : bool := bool_decide (c = "."%char).

Definition float_of_str (s : string) : Exn + Dec :=
  let bad := inl (value_error ("could not convert string to float: " +:+ quoted s)) in
  let '(sign, body) := signed (strip s) in
  let '(mantissa, exponent) := cut is_e body in
  let '(int_part, frac_part) := cut is_dot mantissa in
  let frac := default "" frac_part in
  let e := match exponent with
           | None => Some 0
           | Some t => let '(esign, edigits) := signed t in
                       (λ n, esign * n) <$> digits edigits
           end in
  match digits (int_part +:+ frac), e with
  | Some m, Some e => inr (mkDec (sign * m) (e - Z.of_nat (String.length frac)))
  | _, _ => bad
  end.

#[local] Instance dec_float : PyFloat :=
  Build_PyFloat Dec (λ z, mkDec z 0) dec_add float_of_str.

Definition pad (width : nat) (z : Z) : string :=
  let s := pretty z in
  String.concat "" (replicate (width - String.length s) "0") +:+ s.

Definition is_leap (y : Z) : bool :=
  ((y mod 4 =? 0)%Z && negb (y mod 100 =? 0)%Z) || (y mod 400 =? 0)%Z.

Definition days_in_month (y m : Z) : Z :=
  if (m =? 2)%Z then (if is_leap y then 29 else 28)
  else if (m =? 4)%Z || (m =? 6)%Z || (m =? 9)%Z || (m =? 11)%Z then 30
  else 31.

(** [%m] and [%d]: one or two digits, not zero; [%d] also takes a blank
    before a single digit. *)
Definition one_or_two_digits (blank_ok : bool) (s : string) : option Z :=
  match s with
  | String a EmptyString => if is_digit a then Some (digit_value a) else None
  | String a (String b EmptyString) =>
      if is_digit a && is_digit b then Some (10 * digit_value a + digit_value b)
      else if blank_ok && bool_decide (a = " "%char) && is_digit b
           then Some (digit_value b)
      else None
  | _ => None
  end.

Definition strptime_ymd (s : string) : Exn + Date :=
  let bad := inl (value_error ("time data " +:+ quoted s
                               +:+ " does not match format " +:+ quoted "%Y-%m-%d")) in
  let is_dash c := bool_decide (c = "-"%char) in
  match cut is_dash s with
  | (y, Some rest) =>
      match cut is_dash rest with
      | (m, Some d) =>
          match (if Nat.eqb (String.length y) 4 then digits y else None),
                one_or_two_digits false m, one_or_two_digits true d with
          | Some y, Some m, Some d =>
              if (1 <=? y)%Z && (1 <=? m)%Z && (m <=? 12)%Z && (1 <=? d)%Z
                 && (d <=? days_in_month y m)%Z
              then inr (mkDate y m d) else bad
          | _, _, _ => bad
          end
      | _ => bad
      end
  | _ => bad
  end.

Definition isoformat (d : Date) : string :=
  pad 4 (year d) +:+ "-" +:+ pad 2 (month d) +:+ "-" +:+ pad 2 (day d).

Definition month_abbr (m : Z) : string :=
  default "" (["Jan"; "Feb"; "Mar"; "Apr"; "May"; "Jun";
               "Jul"; "Aug"; "Sep"; "Oct"; "Nov"; "Dec"] !! Z.to_nat (m - 1)).

Definition strftime_dbY (d : Date) : string :=
  pad 2 (day d) +:+ "-" +:+ month_abbr (month d) +:+ "-" +:+ pretty (year d).

(** A clock that starts on 2024-01-01 and advances one microsecond per
    reading. *)
Definition utcnow_isoformat (n : nat) : string :=
  "2024-01-01T00:00:00." +:+ pad 6 (Z.of_nat (S n)).
Definition utcnow_date (n : nat) : Date := mkDate 2024 1 1.

Definition dquote : string := String "034"%char "".
Definition backslash : string := String "092"%char "".

(** JSON string escapes for quote, backslash and newline. *)
Fixpoint json_escape (s : string) : string :=
  match s with
  | EmptyString => ""
  | String c rest =>
      (if bool_decide (c = "034"%char) then backslash +:+ dquote
       else if bool_decide (c = "092"%char) then backslash +:+ backslash
       else if bool_decide (c = "010"%char) then backslash +:+ "n"
       else String c "") +:+ json_escape rest
  end.
Definition json_string (s : string) : string := dquote +:+ json_escape s +:+ dquote.

(** [repr] of a float kept as a decimal: at least one digit on each side of
    the point. *)
Definition dec_repr (d : Dec) : string :=
  let sign := if (mant d <? 0)%Z then "-" else "" in
  let m := Z.abs (mant d) in
  if (0 <=? expo d)%Z then sign +:+ pretty (m * 10 ^ expo d) +:+ ".0"
  else
    let scale := 10 ^ (- expo d) in
    sign +:+ pretty (m / scale) +:+ "." +:+ pad (Z.to_nat (- expo d)) (m mod scale).

Definition indent (depth : nat) : string := String.concat "" (replicate depth "  ").

(** [json.dumps(v, indent=2)] *)
Fixpoint json_render (depth : nat) (v : PyVal) : string :=
  match v with
  | VNone => "null"
  | VBool b => if b then "true" else "false"
  | VInt z => pretty z
  | VFloat f => dec_repr f
  | VStr s => json_string s
  | VList [] => "[]"
  | VList l =>
      "[" +:+ newline
      +:+ String.concat ("," +:+ newline)
            (List.map (λ x, indent (S depth) +:+ json_render (S depth) x) l)
      +:+ newline +:+ indent depth +:+ "]"
  | VDict [] => "{}"
  | VDict kvs =>
      "{" +:+ newline
      +:+ String.concat ("," +:+ newline)
            (List.map (λ kv, let '(k, x) := kv in
                             indent (S depth) +:+ json_string k +:+ ": "
                             +:+ json_render (S depth) x) kvs)
      +:+ newline +:+ indent depth +:+ "}"
  end.
Definition json_dumps (v : PyVal) : string := json_render 0 v.

(** [repr(v)], strings in single quotes. *)
Fixpoint py_repr (v : PyVal) : string :=
  match v with
  | VNone => "None"
  | VBool b => if b then "True" else "False"
  | VInt z => pretty z
  | VFloat f => dec_repr f
  | VStr s => "'" +:+ s +:+ "'"
  | VList l => "[" +:+ String.concat ", " (List.map py_repr l) +:+ "]"
  | VDict kvs =>
      "{" +:+ String.concat ", "
                (List.map (λ kv, let '(k, x) := kv in
                                 "'" +:+ k +:+ "': " +:+ py_repr x) kvs)
      +:+ "}"
  end.

(** [csv.DictReader] on text without quoted fields: the first line names
    the columns, blank lines are skipped, a short row leaves its last columns
    unfilled. *)
Definition csv_DictReader (text : string) : Exn + list Row :=
  match filter (λ l, l ≠ "") (str_split "010"%char text) with
  | [] => inr []
  | header :: rows =>
      let fieldnames := str_split ","%char header in
      inr ((λ row, list_to_map (reverse (zip fieldnames (str_split ","%char row)))) <$> rows)
  end.

(** [json.loads]: a recursive-descent reader of the JSON grammar, with the
    string escapes for quote, backslash, slash and newline.  The error text
    is Python's for the empty document; for other malformed text it names no
    position. *)
Definition json_error (msg : string) : Exn := mkExn "JSONDecodeError" msg.

Definition is_json_space (c : ascii) : bool :=
  bool_decide (c = " "%char ∨ c = "009"%char ∨ c = "010"%char ∨ c = "013"%char).
Fixpoint json_ws (s : string) : string :=
  match s with
  | String c rest => if is_json_space c then json_ws rest else s
  | EmptyString => ""
  end.

(** What follows the prefix [p] in [s], if [s] starts with [p]. *)
Fixpoint after_prefix (p s : string) : option string :=
  match p, s with
  | EmptyString, _ => Some s
  | String a p', String b s' => if bool_decide (a = b) then after_prefix p' s' else None
  | String _ _, EmptyString => None
  end.

(** The text of a string literal after its opening quote, and what follows
    its closing quote. *)
Fixpoint json_string_body (s : string) : option (string * string) :=
  match s with
  | EmptyString => None
  | String c rest =>
      if bool_decide (c = "034"%char) then Some ("", rest)
      else if bool_decide (c = "092"%char) then
        match rest with
        | String e rest' =>
            let unescaped :=
              if bool_decide (e = "n"%char) then Some "010"%char
              else if bool_decide (e = "034"%char ∨ e = "092"%char ∨ e = "/"%char)
                   then Some e
              else None in
            match unescaped, json_string_body rest' with
            | Some ch, Some (body, after) => Some (String ch body, after)
            | _, _ => None
            end
        | EmptyString => None
        end
      else match json_string_body rest with
           | Some (body, after) => Some (String c body, after)
           | None => None
           end
  end.

Definition is_number_char (c : ascii) : bool :=
  is_digit c || bool_decide (c = "-"%char ∨ c = "+"%char ∨ c = "."%char
                             ∨ c = "e"%char ∨ c = "E"%char).
Fixpoint span (p : ascii → bool) (s : string) : string * string :=
  match s with
  | String c rest => if p c then let '(a, b) := span p rest in (String c a, b)
                     else ("", s)
  | EmptyString => ("", "")
  end.
Fixpoint has_char (p : ascii → bool) (s : string) : bool :=
  match s with
  | String c rest => p c || has_char p rest
  | EmptyString => false
  end.

Definition json_number (s : string) : option (PyVal * string) :=
  let '(literal, rest) := span is_number_char s in
  match literal with
  | String "+" _ => None
  | _ =>
      if has_char (λ c, is_dot c || is_e c) literal
      then match float_of_str literal with
           | inr f => Some (VFloat f, rest)
           | inl _ => None
           end
      else match int_of_str literal with
           | inr z => Some (VInt z, rest)
           | inl _ => None
           end
  end.

(** What the reader is in the middle of: a value, the items of an array, or
    the members of an object read so far. *)
Inductive JsonGoal : Type :=
| JValue
| JItems (acc : list PyVal)
| JMembers (acc : list (string * PyVal)).

(** A member read into the object: a repeated key keeps its place and takes
    the later value. *)
Fixpoint set_member (k : string) (v : PyVal) (kvs : list (string * PyVal))
    : list (string * PyVal) :=
  match kvs with
  | [] => [(k, v)]
  | (k', v') :: rest =>
      if decide (k' = k) then (k, v) :: rest else (k', v') :: set_member k v rest
  end.

Definition starts_with (c : ascii) (s : string) : option string :=
  match s with
  | String c' rest => if bool_decide (c' = c) then Some rest else None
  | EmptyString => None
  end.

Fixpoint json_parse (fuel : nat) (goal : JsonGoal) (s : string)
    : option (PyVal * string) :=
  match fuel with
  | O => None
  | S fuel =>
      match goal with
      | JValue =>
          let t := json_ws s in
          match starts_with "["%char t, starts_with "{"%char t, starts_with "034"%char t with
          | Some rest, _, _ =>
              match starts_with "]"%char (json_ws rest) with
              | Some rest' => Some (VList [], rest')
              | None => json_parse fuel (JItems []) rest
              end
          | _, Some rest, _ =>
              match starts_with "}"%char (json_ws rest) with
              | Some rest' => Some (VDict [], rest')
              | None => json_parse fuel (JMembers []) rest
              end
          | _, _, Some rest =>
              match json_string_body rest with
              | Some (body, after) => Some (VStr body, after)
              | None => None
              end
          | None, None, None =>
              match after_prefix "null" t, after_prefix "true" t, after_prefix "false" t with
              | Some r, _, _ => Some (VNone, r)
              | _, Some r, _ => Some (VBool true, r)
              | _, _, Some r => Some (VBool false, r)
              | None, None, None => json_number t
              end
          end
      | JItems acc =>
          match json_parse fuel JValue s with
          | Some (v, rest) =>
              let t := json_ws rest in
              match starts_with ","%char t, starts_with "]"%char t with
              | Some rest', _ => json_parse fuel (JItems (acc ++ [v])%list) rest'
              | _, Some rest' => Some (VList (acc ++ [v])%list, rest')
              | None, None => None
              end
          | None => None
          end
      | JMembers acc =>
          match starts_with "034"%char (json_ws s) with
          | Some rest =>
              match json_string_body rest with
              | Some (key, after) =>
                  match starts_with ":"%char (json_ws after) with
                  | Some after' =>
                      match json_parse fuel JValue after' with
                      | Some (v, rest') =>
                          let t := json_ws rest' in
                          match starts_with ","%char t, starts_with "}"%char t with
                          | Some more, _ => json_parse fuel (JMembers (set_member key v acc)) more
                          | _, Some more => Some (VDict (set_member key v acc), more)
                          | None, None => None
                          end
                      | None => None
                      end
                  | None => None
                  end
              | None => None
              end
          | None => None
          end
      end
  end.

Definition json_loads (s : string) : Exn + PyVal :=
  match s with
  | EmptyString => inl (json_error "Expecting value: line 1 column 1 (char 0)")
  | _ =>
      match json_parse (2 * String.length s + 2) JValue s with
      | Some (v, rest) =>
          match json_ws rest with
          | EmptyString => inr v
          | _ => inl (json_error "Extra data")
          end
      | None => inl (json_error "Expecting value")
      end
  end.

Definition python : Python :=
  Build_Python dec_float int_of_str strip lower strptime_ymd isoformat
    strftime_dbY utcnow_isoformat utcnow_date json_dumps json_loads csv_DictReader
    py_repr eq_refl.

(** Remote parties that refuse every connection. *)
Definition refused : Exn := mkExn "ConnectionError" "connection refused".
Definition offline : Services (H := python) :=
  mkServices python
    (λ _ _ _ _, inl refused) (λ _ _ _ _, inl refused) (λ _ _ _, inl refused)
    (λ _ _ _, inl refused) (λ _ _ _, inl refused) (λ _ _, inl refused)
    (λ _ _, inl refused) (λ _ _, inl refused) (λ _, inl refused)
    (λ _, inl refused) (λ _ _ _ _ _, inl refused).

(** The world before anything has run. *)
Definition empty_world : World (H := python) := mkWorld (H := python) ∅ ∅ [] [] [] 0.

End Reference.

(** * Vocabulary of the statements *)

Section Vocabulary.
Context `{Python}.

(** The value of a required identifier is missing: the variable is unset, or
    set to the empty string ([os.getenv(var, '')] is falsy). *)
Definition is_missing (env : gmap string string) (var : string) : Prop :=
  getenv_or env var "" = "".

(** [if url and key] for the two variables of a target. *)
Definition configured (env : gmap string string) (url_var key_var : string) : bool :=
  truthy (getenv env url_var) && truthy (getenv env key_var).

(** The ledger [load_ledger] returns under [inp] (empty when it raises). *)
Definition ledger_of (inp : string) (w : World) : list Row :=
  match (Integrations.load_ledger inp w).1 with
  | Ret ledger => ledger
  | _ => []
  end.

(** Both input files of the publish run load: [load_ledger] and
    [load_clearing] return. *)
Definition inputs_load (inp : string) (w : World) : Prop :=
  (∃ ledger, (Integrations.load_ledger inp w).1 = Ret ledger) ∧
  (∃ clearing, (Integrations.load_clearing inp w).1 = Ret clearing).

(** The exception the loading of the input files ends with, if it does. *)
Definition load_error (inp : string) (w : World) : option Exn :=
  match (Integrations.load_ledger inp w).1 with
  | Raises e => Some e
  | Exits _ => None
  | Ret _ =>
      match (Integrations.load_clearing inp w).1 with
      | Raises e => Some e
      | _ => None
      end
  end.

(** The line [log(msg)] writes at the [n]-th clock reading, and the world
    after it. *)
Definition log_line (n : nat) (msg : string) : string :=
  (utcnow_isoformat n +:+ "Z") +:+ " " +:+ msg +:+ newline.
Definition logged (log_path msg : string) (w : World) : World :=
  set_stdout (λ o, (o ++ [log_line (clock w) msg])%list)
    (set_files
       (λ fs, <[log_path := (default [] (fs !! log_path) ++ [log_line (clock w) msg])%list]> fs)
       (set_clock S w)).

(** The lines in the log file. *)
Definition log_of (log_path : string) (w : World) : list string :=
  default [] (files w !! log_path).

(** Between [w] and [w'] the run only logged to [lp]: the same lines went to
    the log file and to the standard output, and nothing else on disk moved. *)
Definition log_grows (lp : string) (w w' : World) : Prop :=
  (∃ lines, stdout w' = (stdout w ++ lines)%list ∧
            log_of lp w' = (log_of lp w ++ lines)%list) ∧
  dirs w' = dirs w ∧
  (∀ p, p ≠ lp → files w' !! p = files w !! p).

(** The request [post] sends and the result it records. *)
Definition post_headers (key : string) : list (string * string) :=
  ("Content-Type", "application/json") ::
  (if truthy (Some key) then [("Authorization", "Bearer " +:+ key)] else []).
Definition post_result (svc : Services) (sent : list Event) (url key : string)
    (payload : PyVal) : PyVal :=
  match requests_post svc sent url (post_headers key) payload with
  | inr resp => VDict [("ok", VBool (resp_ok resp));
                       ("status", VInt (status_code resp));
                       ("body", VStr (resp_text resp))]
  | inl e => VDict [("ok", VBool false); ("error", VStr (exn_str e))]
  end.
Definition post_event (env : gmap string string) (url_var key_var : string)
    (payload : PyVal) : Event :=
  EvPost (default "" (env !! url_var)) (post_headers (default "" (env !! key_var))) payload.

(** The requests of a publish run that passes the gate: one per configured
    target, in program order. *)
Definition expected_posts (env : gmap string string) (run_ts : string)
    (ledger : list Row) : list Event :=
  ((if configured env "COUPA_API_URL" "COUPA_API_KEY"
    then [post_event env "COUPA_API_URL" "COUPA_API_KEY"
            (Integrations.coupa_payload env run_ts ledger)]
    else []) ++
   (if configured env "PIEE_API_URL" "PIEE_API_KEY"
    then match Integrations.piee_payload env run_ts ledger with
         | inr payload => [post_event env "PIEE_API_URL" "PIEE_API_KEY" payload]
         | inl _ => []
         end
    else []) ++
   (if configured env "SAM_API_URL" "SAM_API_KEY"
    then [post_event env "SAM_API_URL" "SAM_API_KEY"
            (Integrations.sam_payload env run_ts ledger)]
    else []))%list.

(** Result key, endpoint variable, key variable and skip message of each
    publish target. *)
Definition targets : list (string * string * string * string) :=
  [("coupa", "COUPA_API_URL", "COUPA_API_KEY",
    "Skipping Coupa: credentials or URL not set");
   ("piee", "PIEE_API_URL", "PIEE_API_KEY",
    "Skipping PIEE: credentials or URL not set");
   ("sam", "SAM_API_URL", "SAM_API_KEY",
    "Skipping SAM.gov: credentials or URL not set")].

(** What one target's step does to the results, the trace and the log,
    provided its payload can be built. *)
Definition step_spec (env : gmap string string)
    (lp name url_var key_var skip_msg : string) (payload : Exn + PyVal)
    (step : list (string * PyVal) → Run (list (string * PyVal))) : Prop :=
  ∀ results w,
    (configured env url_var key_var = true → ∃ p, payload = inr p) →
    ∃ results' w',
      step results w = (Ret results', w') ∧
      log_grows lp w w' ∧
      trace w' = (trace w ++ (if configured env url_var key_var
                              then match payload with
                                   | inr p => [post_event env url_var key_var p]
                                   | inl _ => []
                                   end
                              else []))%list ∧
      (if configured env url_var key_var
       then ∃ res, results' = dict_set name res results
       else results' = results ∧
            ∃ n, log_line n skip_msg ∈ stdout w' ∧ log_line n skip_msg ∈ log_of lp w').

(** The requests of the SMS and device collectors. *)
Definition sms_events (sid token : string) (since : Date) (nums : list string)
    : list Event :=
  (λ num, EvSmsList sid token num since) <$> nums.
Definition mdm_headers (key : string) : list (string * string) :=
  [("Authorization", "Bearer " +:+ key); ("Accept", "application/json")].
Definition mdm_url (api_url : string) : string := rstrip_slash api_url +:+ "/devices".

(** [m] never ends in [sys.exit]. *)
Definition no_exit {A} (m : Run A) : Prop := ∀ w c, (m w).1 ≠ Exits c.

Definition usage_message : string := "Invalid --since date format; use YYYY-MM-DD".

End Vocabulary.

(** ** Invariants of a run *)

Section RunInvariants.
Context `{Python}.

(** Every run of [m] relates the world it starts in to the world it leaves,
    whatever its outcome. *)
Definition keeps {A} (R : relation World) (m : Run A) : Prop :=
  ∀ w, R w (m w).2.

(** No file outside [P] changed. *)
Definition same_files_outside (P : string → Prop) : relation World :=
  λ w w', ∀ p, ¬ P p → files w' !! p = files w !! p.

(** No directory was created. *)
Definition same_dirs : relation World := λ w w', dirs w' = dirs w.

(** The log [lp] and the standard output received the same new lines, after
    everything they held. *)
Definition log_extends (lp : string) : relation World :=
  λ w w', ∃ lines, stdout w' = (stdout w ++ lines)%list ∧
                   log_of lp w' = (log_of lp w ++ lines)%list.

(** The log lines of the entries (clock reading, message), and: the log
    [lp] received the lines of some entries whose messages all satisfy [M],
    after everything it held. *)
Definition log_lines (entries : list (nat * string)) : list string :=
  (λ e, log_line e.1 e.2) <$> entries.
Definition logs_only (lp : string) (M : string → Prop) : relation World :=
  λ w w', ∃ entries, log_of lp w' = (log_of lp w ++ log_lines entries)%list ∧
                     Forall (λ e, M e.2) entries.

(** Requests were only added to the trace, and each of them satisfies [Q]. *)
Definition sends_only (Q : Event → Prop) : relation World :=
  λ w w', ∃ evs, trace w' = (trace w ++ evs)%list ∧ Forall Q evs.

(** A POST to a publish target whose endpoint and key are both set. *)
Definition to_configured_target (env : gmap string string) (ev : Event) : Prop :=
  ∃ name url_var key_var skip_msg payload,
    (name, url_var, key_var, skip_msg) ∈ targets ∧
    configured env url_var key_var = true ∧
    ev = post_event env url_var key_var payload.

(** The two files a publish run may write. *)
Definition log_or_report (inp : string) (p : string) : Prop :=
  p = path_join inp "integrations.log" ∨ p = path_join inp "integrations_report.json".

End RunInvariants.

(** ** The publish run *)

Section PublishVocabulary.
Context `{Python}.
Import Integrations.

(** The amount of a ledger row is missing, empty, or text [float] accepts. *)
Definition amount_ok (r : Row) : Prop :=
  truthy (r !! "amount") = false ∨
  ∃ f, float_of_str (default "" (r !! "amount")) = inr f.

(** The recommended identifiers with the variables they are read from. *)
Definition recommended_vars : list (string * string) :=
  [("dodaac_contracting", "DODAAC_CONTRACTING"); ("paying_dodaac", "PAYING_DODAAC");
   ("fedstrip", "FEDSTRIP"); ("finance_unitid", "FINANCE_UNITID")].

Definition warning_message (env : gmap string string) : string :=
  "Warning: recommended enterprise identifiers missing: "
  +:+ str_join ", " (warn_missing env)
  +:+ ". Reports will proceed but may be incomplete.".

(** The result keys of the configured targets, in program order. *)
Definition configured_names (env : gmap string string) : list string :=
  ((if configured env "COUPA_API_URL" "COUPA_API_KEY" then ["coupa"] else []) ++
   (if configured env "PIEE_API_URL" "PIEE_API_KEY" then ["piee"] else []) ++
   (if configured env "SAM_API_URL" "SAM_API_KEY" then ["sam"] else []))%list.

End PublishVocabulary.

(** ** The collection run *)

Section CollectVocabulary.
Context `{Python}.
Import NightlyAudit.

(** The numbers listed in [PHONE_NUMBERS], stripped, blanks dropped. *)
Definition listed_numbers (env : gmap string string) : list string :=
  filter (λ p, p ≠ "") (str_strip <$> str_split ","%char (getenv_or env "PHONE_NUMBERS" "")).

(** The test of line 45: some target is among the lowered recipients. *)
Definition addressed_to (targets : list string) (parsed : ParsedMail) : bool :=
  existsb (λ t, bool_decide (t ∈ str_lower <$> default [] (mail_to parsed))) targets.

(** The summaries of the fetched messages that parse and are addressed to a
    target, in fetch order. *)
Definition retained (svc : Services) (targets : list string)
    (fetched : list (Z * string)) : list PyVal :=
  omap (λ m : Z * string,
          match parse_from_bytes svc m.2 with
          | inr parsed => if addressed_to targets parsed
                          then Some (mail_summary m.1 parsed) else None
          | inl _ => None
          end) fetched.

(** Where a retained message is saved. *)
Definition eml_path (out_dir : string) (uid : Z) : string :=
  path_join out_dir (pretty uid +:+ ".eml").

(** The run workspace of a start date. *)
Definition workspace_of (out_base : string) (d : Date) : string :=
  path_join (path_join out_base "daily") ("from-" +:+ isoformat d).

(** The mail server lets the collector in, lists the messages [fetched]
    (distinct uids, each parsing) for the search since [since], whatever was
    sent before. *)
Definition mailbox_serves (svc : Services) (host user pwd : option string)
    (port : Z) (since : Date) (fetched : list (Z * string)) : Prop :=
  (∀ sent, imap_connect svc sent host port = inr tt) ∧
  (∀ sent, imap_login svc sent user pwd = inr tt) ∧
  (∀ sent, imap_select_folder svc sent "INBOX" = inr tt) ∧
  (∀ sent, imap_search svc sent ["SINCE"; strftime_dbY since] = inr fetched.*1) ∧
  (∀ sent, imap_fetch svc sent fetched.*1 = inr fetched) ∧
  (∀ m, m ∈ fetched → ∃ parsed, parse_from_bytes svc m.2 = inr parsed) ∧
  NoDup fetched.*1.

(** The requests of a mail collection that reaches its logout. *)
Definition mail_events (host user pwd : option string) (port : Z) (since : Date)
    (uids : list Z) : list Event :=
  [EvImapConnect host port; EvImapLogin user pwd; EvImapSelect "INBOX";
   EvImapSearch ["SINCE"; strftime_dbY since]; EvImapFetch uids; EvImapLogout].

(** The start date of a collection run: the parsed [--since], or today's date
    when the argument is absent or empty. *)
Definition start_date (args_since : option string) (w : World) : Exn + Date :=
  if truthy args_since then strptime_ymd (default "" args_since)
  else inr (utcnow_date (clock w)).

(** A path directly inside [folder]. *)
Definition inside (folder p : string) : Prop := ∃ name, p = path_join folder name.

(** The directories every collection run creates first. *)
Definition bootstrap_dirs (out_base : string) (w : World) : gset string :=
  {[path_join out_base "daily"]} ∪ ({[out_base]} ∪ dirs w).

(** [--targets], split on commas, stripped and lowered. *)
Definition targets_of (args_targets : string) : list string :=
  (λ t, str_lower (str_strip t)) <$> str_split ","%char args_targets.

(** The world in which the collectors start: the output directory, its
    [daily] subdirectory and the workspace asked for, the clock read once if
    the start date defaulted to today. *)
Definition workspace_world (out_base : string) (args_since : option string)
    (d : Date) (w : World) : World :=
  set_dirs (λ ds, {[workspace_of out_base d]} ∪ ds)
    ((if truthy args_since then id else set_clock S)
       (set_dirs (λ ds, {[path_join out_base "daily"]} ∪ ds)
          (set_dirs (λ ds, {[out_base]} ∪ ds) w))).

(** The three collector calls of [run] (lines 129-139), with the settings
    they are given. *)
Definition mail_stage (svc : Services) (env : gmap string string) (port : Z)
    (targets : list string) (since : Date) (folder : string) : Run (list PyVal) :=
  try_except
    (fetch_emails svc (getenv env "IMAP_HOST") (getenv env "IMAP_USER")
       (getenv env "IMAP_PASSWORD") port targets since folder)
    (λ e, print ("Email fetch failed " +:+ exn_str e) ;;; ret []).
Definition sms_stage (svc : Services) (env : gmap string string)
    (since : Date) (folder : string) : Run (list PyVal) :=
  fetch_twilio_messages svc (getenv env "TWILIO_SID") (getenv env "TWILIO_TOKEN")
    (phone_numbers env) since folder.
Definition device_stage (svc : Services) (env : gmap string string)
    (folder : string) : Run PyVal :=
  fetch_apple_mdm svc (getenv env "APPLE_MDM_API_URL")
    (getenv env "APPLE_MDM_API_KEY") folder.

(** The records of the messages an inbox holds for the numbers, in order. *)
Definition sms_records (inbox : string → list SmsMessage) (nums : list string)
    : list PyVal :=
  nums ≫= (λ num, sms_record <$> inbox num).

End CollectVocabulary.

(** * Scenarios

    Concrete inputs on the reference platform. *)

Module Scenario.
Import Reference.
#[local] Existing Instance python.

(** A one-row ledger whose amount is not a number. *)
Definition ledger_text : string :=
  "message_id,from,amount,currency,subject" +:+ newline
  +:+ "m1,acme,abc,USD,Invoice" +:+ newline.
Definition ledger_world : World :=
  set_files (λ _, {["out/ledger.csv" := [ledger_text]]}) empty_world.

(** Both required identifiers and PIEE set; Coupa and SAM.gov unset. *)
Definition piee_env : gmap string string :=
  list_to_map [("UEI", "ABC123DEF456"); ("CAGE_CODE", "1AB23");
               ("PIEE_API_URL", "https://piee.example/api");
               ("PIEE_API_KEY", "secret")].

(** SMS and device inventory set; mail unset. *)
Definition sms_env : gmap string string :=
  list_to_map [("TWILIO_SID", "AC1"); ("TWILIO_TOKEN", "tok");
               ("APPLE_MDM_API_URL", "https://mdm.example/");
               ("APPLE_MDM_API_KEY", "k")].

(** Device inventory only. *)
Definition mdm_env : gmap string string :=
  list_to_map [("APPLE_MDM_API_URL", "https://mdm.example/");
               ("APPLE_MDM_API_KEY", "k")].

Definition server_error : Response :=
  mkResponse _ false 500 "Internal Server Error"
    (inl (mkExn "JSONDecodeError" "Expecting value")).

(** Every party refuses, but the device endpoint answers 500. *)
Definition mdm_failing : Services :=
  mkServices python
    (λ _ _ _ _, inl refused) (λ _ _ _ _, inl refused) (λ _ _ _, inr server_error)
    (λ _ _ _, inl refused) (λ _ _ _, inl refused) (λ _ _, inl refused)
    (λ _ _, inl refused) (λ _ _, inl refused) (λ _, inl refused)
    (λ _, inl refused) (λ _ _ _ _ _, inl refused).

(** Every party refuses, but the SMS provider lists no message. *)
Definition sms_quiet : Services :=
  mkServices python
    (λ _ _ _ _, inl refused) (λ _ _ _ _, inl refused) (λ _ _ _, inl refused)
    (λ _ _ _, inl refused) (λ _ _ _, inl refused) (λ _ _, inl refused)
    (λ _ _, inl refused) (λ _ _, inl refused) (λ _, inl refused)
    (λ _, inl refused) (λ _ _ _ _ _, inr []).

Definition since : Date := mkDate 2024 1 5.
Definition workspace : string := "out/daily/from-2024-01-05".

(** An input directory whose clearing report is an empty file, with no
    ledger. *)
Definition broken_clearing_world : World :=
  set_files (λ _, {["out/clearing/clearing_report.json" := [""]]}) empty_world.

(** A mailbox holding two messages, one of them for the operations desk;
    every other party refuses. *)
Definition inbox_mail : list (Z * string) :=
  [(7, "To: Ops@Example.org"); (9, "To: sales@example.org")].
Definition parse_mail (raw : string) : Exn + ParsedMail :=
  inr (if bool_decide (raw = "To: Ops@Example.org")
       then mkParsedMail "Invoice" "acme@example.org" (Some ["Ops@Example.org"]) "2024-01-06"
       else mkParsedMail "Offer" "acme@example.org" (Some ["sales@example.org"]) "2024-01-07").
Definition mailbox : Services :=
  mkServices python
    (λ _ _ _ _, inl refused) (λ _ _ _ _, inl refused) (λ _ _ _, inl refused)
    (λ _ _ _, inr tt) (λ _ _ _, inr tt) (λ _ _, inr tt)
    (λ _ _, inr [7; 9]) (λ _ _, inr inbox_mail) (λ _, inr tt)
    parse_mail (λ _ _ _ _ _, inl refused).

(** The same mailbox, dropping the connection at logout. *)
Definition mailbox_drops : Services :=
  mkServices python
    (λ _ _ _ _, inl refused) (λ _ _ _ _, inl refused) (λ _ _ _, inl refused)
    (λ _ _ _, inr tt) (λ _ _ _, inr tt) (λ _ _, inr tt)
    (λ _ _, inr [7; 9]) (λ _ _, inr inbox_mail) (λ _, inl refused)
    parse_mail (λ _ _ _ _ _, inl refused).

(** An SMS provider holding one message for the operations number. *)
Definition sms_inbox (num : string) : list SmsMessage :=
  if bool_decide (num = "2704018770")
  then [mkSms "SM1" "+15550100" "2704018770" "hello" "2024-01-06 10:00:00"]
  else [].
Definition sms_serving : Services :=
  mkServices python
    (λ _ _ _ _, inl refused) (λ _ _ _ _, inl refused) (λ _ _ _, inl refused)
    (λ _ _ _, inl refused) (λ _ _ _, inl refused) (λ _ _, inl refused)
    (λ _ _, inl refused) (λ _ _, inl refused) (λ _, inl refused)
    (λ _, inl refused) (λ _ _ _ num _, inr (sms_inbox num)).

(** A mail port that is no number. *)
Definition port_env : gmap string string := {["IMAP_PORT" := "imap"]}.

(** The archive configured. *)
Definition archive_env : gmap string string :=
  list_to_map [("CLOUD_ARCHIVE_URL", "https://archive.example/upload");
               ("CLOUD_ARCHIVE_KEY", "k")].

(** A world whose workspace already holds an index. *)
Definition index_world : World :=
  set_files (λ _, {["out/daily/from-2024-01-05/index.json" := ["{}"]]}) empty_world.

End Scenario.

(** * Properties of the publish run *)

Section PublishFacts.
Import Integrations.
Context `{Python} (svc : Services) (env : gmap string string).

Lemma log_run p msg w : log p msg w = (Ret tt, logged p msg w).
Proof. reflexivity. Qed.

Lemma truthy_getenv_or k : truthy (Some (getenv_or env k "")) = truthy (env !! k).
Proof. unfold getenv_or, truthy. destruct (env !! k); simpl; reflexivity. Qed.

Lemma missing_identifiers_eq :
  missing_identifiers env =
  ((if truthy (env !! "UEI") then [] else ["UEI"]) ++
   (if truthy (env !! "CAGE_CODE") then [] else ["CAGE_CODE"]))%list.
Proof.
  unfold missing_identifiers.
  change (enterprise_get env "uei") with (Some (getenv_or env "UEI" "")).
  change (enterprise_get env "cage") with (Some (getenv_or env "CAGE_CODE" "")).
  by rewrite !truthy_getenv_or.
Qed.

(** The loaders only read: they leave the world as it was, and what they
    return depends on the files alone. *)
Lemma load_ledger_run path w :
  load_ledger path w =
  (match files w !! path_join path "ledger.csv" with
   | Some pieces =>
       match csv_DictReader (String.concat "" pieces) with
       | inr rows => Ret rows
       | inl e => Raises e
       end
   | None => Ret []
   end, w).
Proof.
  unfold load_ledger, bind, path_exists, read_file, ret.
  destruct (files w !! path_join path "ledger.csv") eqn:E; simpl; rewrite ?E;
    [|reflexivity].
  by destruct (csv_DictReader _).
Qed.

Lemma load_clearing_run path w :
  load_clearing path w =
  (match files w !! path_join (path_join path "clearing") "clearing_report.json" with
   | Some pieces =>
       match json_loads (String.concat "" pieces) with
       | inr doc => Ret (Some doc)
       | inl e => Raises e
       end
   | None => Ret None
   end, w).
Proof.
  unfold load_clearing, bind, path_exists, read_file, ret.
  destruct (files w !! _) eqn:E; simpl; rewrite ?E; [|reflexivity].
  by destruct (json_loads _).
Qed.

Lemma load_ledger_files path w w' :
  files w' = files w → (load_ledger path w').1 = (load_ledger path w).1.
Proof. intros Hf. by rewrite !load_ledger_run, Hf. Qed.

Lemma load_clearing_files path w w' :
  files w' = files w → (load_clearing path w').1 = (load_clearing path w).1.
Proof. intros Hf. by rewrite !load_clearing_run, Hf. Qed.

Lemma load_ledger_world path w : (load_ledger path w).2 = w.
Proof. by rewrite load_ledger_run. Qed.

Lemma load_clearing_world path w : (load_clearing path w).2 = w.
Proof. by rewrite load_clearing_run. Qed.

(** Either both input files load, or loading ends with an exception. *)
Lemma inputs_load_or_error inp w :
  (inputs_load inp w ∧ load_error inp w = None) ∨
  (¬ inputs_load inp w ∧ ∃ e, load_error inp w = Some e).
Proof.
  unfold inputs_load, load_error. rewrite load_ledger_run, load_clearing_run.
  cbn [fst].
  destruct (files w !! path_join inp "ledger.csv") as [lp|];
    [destruct (csv_DictReader _) as [e|rows]|];
    (destruct (files w !! path_join (path_join inp "clearing") "clearing_report.json")
       as [cp|]; [destruct (json_loads _) as [e'|doc]|]);
    first [ left; by eauto
          | right; split; [intros [[? ?] [? ?]]; discriminate|by eauto] ].
Qed.

(** When the input files load, the run is the publishing proper, started
    once the loading is over and the run timestamp taken. *)
Lemma run_publish inp w :
  inputs_load inp w →
  run svc env inp w =
  publish svc env inp (path_join inp "integrations.log")
    (utcnow_isoformat (clock w) +:+ "Z") (ledger_of inp w)
    (set_clock S (set_dirs (λ d, {[inp]} ∪ d) w)).
Proof.
  intros [[ledger Hl] [clearing Hc]].
  unfold ledger_of. rewrite Hl.
  set (w1 := set_dirs (λ d, {[inp]} ∪ d) w).
  assert (Hl1 : load_ledger inp w1 = (Ret ledger, w1)).
  { rewrite <- (load_ledger_world inp w1) at 2.
    rewrite <- Hl, <- (load_ledger_files inp w w1) by done.
    by destruct (load_ledger inp w1). }
  assert (Hc1 : load_clearing inp w1 = (Ret clearing, w1)).
  { rewrite <- (load_clearing_world inp w1) at 2.
    rewrite <- Hc, <- (load_clearing_files inp w w1) by done.
    by destruct (load_clearing inp w1). }
  unfold run. unfold bind at 1. unfold makedirs. fold w1.
  unfold bind at 1. rewrite Hl1.
  unfold bind at 1. rewrite Hc1.
  unfold bind at 1. reflexivity.
Qed.

(** When one of them does not, the run ends with its exception before the
    gate: the input directory has been asked for, and nothing else happened. *)
Lemma run_load_fails inp w e :
  load_error inp w = Some e →
  run svc env inp w = (Raises e, set_dirs (λ d, {[inp]} ∪ d) w).
Proof.
  unfold load_error. intros He.
  set (w1 := set_dirs (λ d, {[inp]} ∪ d) w).
  pose proof (load_ledger_files inp w w1 eq_refl) as Hl.
  pose proof (load_clearing_files inp w w1 eq_refl) as Hc.
  pose proof (load_ledger_world inp w1) as Hlw.
  pose proof (load_clearing_world inp w1) as Hcw.
  unfold run. unfold bind at 1. unfold makedirs. fold w1.
  unfold bind at 1.
  destruct (load_ledger inp w1) as [ol wl]. cbn [fst snd] in *. subst wl.
  rewrite <- Hl in He.
  destruct ol as [ledger|c|e1]; [|discriminate|by injection He as ->].
  unfold bind at 1.
  destruct (load_clearing inp w1) as [oc wc]. cbn [fst snd] in *. subst wc.
  rewrite <- Hc in He.
  destruct oc as [clearing|c|e1]; [discriminate|discriminate|by injection He as ->].
Qed.

Lemma publish_gate_fails inp lp ts ledger w :
  nonempty (missing_identifiers env) = true →
  publish svc env inp lp ts ledger w =
  (Exits 3,
   set_files (λ fs, <[path_join inp "integrations_report.json" :=
                        [json_dumps (error_doc (missing_identifiers env) ts)]]> fs)
     (logged lp ("Missing required enterprise identifiers: "
                  +:+ str_join ", " (missing_identifiers env) +:+ ". Aborting integrations.") w)).
Proof.
  intros Hm. unfold publish. rewrite Hm. reflexivity.
Qed.


Lemma post_run url key payload w :
  post svc url key payload w =
  (Ret (post_result svc (trace w) url key payload),
   set_trace (λ t, (t ++ [EvPost url (post_headers key) payload])%list) w).
Proof.
  unfold post, try_except, bind, call, ret, post_result, post_headers.
  destruct (requests_post svc (trace w) url _ payload); reflexivity.
Qed.

Lemma write_file_run p c w :
  write_file p c w = (Ret tt, set_files (λ fs, <[p := [c]]> fs) w).
Proof. reflexivity. Qed.

Ltac run_steps :=
  repeat (unfold bind at 1; rewrite ?log_run, ?post_run, ?write_file_run;
          cbn [lift ret raise sys_exit]; cbv beta iota).

Lemma coupa_step_skip lp ts ledger results w :
  configured env "COUPA_API_URL" "COUPA_API_KEY" = false →
  coupa_step svc env lp ts ledger results w =
  (Ret results, logged lp "Skipping Coupa: credentials or URL not set" w).
Proof. unfold coupa_step, configured. intros ->. reflexivity. Qed.

Lemma coupa_step_post lp ts ledger results w :
  configured env "COUPA_API_URL" "COUPA_API_KEY" = true →
  ∃ res,
  coupa_step svc env lp ts ledger results w =
  (Ret (dict_set "coupa" res results),
   logged lp ("Coupa response: " +:+ py_repr res)
     (set_trace (λ t, (t ++ [post_event env "COUPA_API_URL" "COUPA_API_KEY" (coupa_payload env ts ledger)])%list)
        (logged lp "Posting to Coupa..." w))).
Proof.
  unfold coupa_step, configured. intros ->.
  eexists. run_steps.
  reflexivity.
Qed.

Lemma piee_step_skip lp ts ledger results w :
  configured env "PIEE_API_URL" "PIEE_API_KEY" = false →
  piee_step svc env lp ts ledger results w =
  (Ret results, logged lp "Skipping PIEE: credentials or URL not set" w).
Proof. unfold piee_step, configured. intros ->. reflexivity. Qed.

Lemma piee_step_post lp ts ledger results w payload :
  configured env "PIEE_API_URL" "PIEE_API_KEY" = true →
  piee_payload env ts ledger = inr payload →
  ∃ res,
  piee_step svc env lp ts ledger results w =
  (Ret (dict_set "piee" res results),
   logged lp ("PIEE response: " +:+ py_repr res)
     (set_trace (λ t, (t ++ [post_event env "PIEE_API_URL" "PIEE_API_KEY" payload])%list)
        (logged lp "Posting to PIEE..." w))).
Proof.
  unfold piee_step, configured. intros -> Hp.
  eexists. rewrite Hp.
  run_steps.
  reflexivity.
Qed.

Lemma piee_step_raises lp ts ledger results w e :
  configured env "PIEE_API_URL" "PIEE_API_KEY" = true →
  piee_payload env ts ledger = inl e →
  piee_step svc env lp ts ledger results w =
  (Raises e, logged lp "Posting to PIEE..." w).
Proof.
  unfold piee_step, configured. intros -> Hp. rewrite Hp. reflexivity.
Qed.

Lemma sam_step_skip lp ts ledger results w :
  configured env "SAM_API_URL" "SAM_API_KEY" = false →
  sam_step svc env lp ts ledger results w =
  (Ret results, logged lp "Skipping SAM.gov: credentials or URL not set" w).
Proof. unfold sam_step, configured. intros ->. reflexivity. Qed.

Lemma sam_step_post lp ts ledger results w :
  configured env "SAM_API_URL" "SAM_API_KEY" = true →
  ∃ res,
  sam_step svc env lp ts ledger results w =
  (Ret (dict_set "sam" res results),
   logged lp ("SAM response: " +:+ py_repr res)
     (set_trace (λ t, (t ++ [post_event env "SAM_API_URL" "SAM_API_KEY" (sam_payload env ts ledger)])%list)
        (logged lp "Posting to SAM.gov..." w))).
Proof.
  unfold sam_step, configured. intros ->.
  eexists. run_steps.
  reflexivity.
Qed.


Lemma path_join_inj a b c : path_join a b = path_join a c → b = c.
Proof.
  unfold path_join. destruct (decide (a = "")); [done|].
  destruct (ends_with_slash a); intros Heq.
  - by apply String.app_inj in Heq.
  - apply String.app_inj in Heq. by apply (String.app_inj "/") in Heq.
Qed.

Lemma report_is_not_log inp :
  path_join inp "integrations_report.json" ≠ path_join inp "integrations.log".
Proof. intros Heq. apply path_join_inj in Heq. discriminate. Qed.

Lemma stdout_logged lp m w :
  stdout (logged lp m w) = (stdout w ++ [log_line (clock w) m])%list.
Proof. reflexivity. Qed.
Lemma log_of_logged lp m w :
  log_of lp (logged lp m w) = (log_of lp w ++ [log_line (clock w) m])%list.
Proof. unfold log_of, logged. cbn. by rewrite lookup_insert_eq. Qed.
Lemma trace_logged lp m w : trace (logged lp m w) = trace w.
Proof. reflexivity. Qed.
Lemma dirs_logged lp m w : dirs (logged lp m w) = dirs w.
Proof. reflexivity. Qed.
Lemma files_logged_other lp m w p :
  p ≠ lp → files (logged lp m w) !! p = files w !! p.
Proof. intros. cbn. by rewrite lookup_insert_ne. Qed.
Lemma log_of_set_trace lp f w : log_of lp (set_trace f w) = log_of lp w.
Proof. reflexivity. Qed.
Lemma stdout_set_trace f w : stdout (set_trace f w) = stdout w.
Proof. reflexivity. Qed.
Lemma trace_set_trace f w : trace (set_trace f w) = f (trace w).
Proof. reflexivity. Qed.


Lemma dict_get_set_eq k v (l : list (string * PyVal)) :
  dict_get k (dict_set k v l) = Some v.
Proof.
  induction l as [|[k' v'] l IH]; simpl.
  - by rewrite decide_True.
  - destruct (decide (k' = k)) as [->|Hne]; simpl.
    + by rewrite decide_True.
    + by rewrite decide_False.
Qed.

Lemma dict_get_set_ne k k' v (l : list (string * PyVal)) :
  k ≠ k' → dict_get k (dict_set k' v l) = dict_get k l.
Proof.
  intros Hne. induction l as [|[k0 v0] l IH]; simpl.
  - by rewrite decide_False.
  - destruct (decide (k0 = k')) as [->|Hne0]; simpl.
    + by rewrite !decide_False.
    + destruct (decide (k0 = k)); [done|apply IH].
Qed.

Lemma log_grows_refl lp w : log_grows lp w w.
Proof. split; [|done]. exists []. by rewrite !app_nil_r. Qed.

Lemma log_grows_trans lp w1 w2 w3 :
  log_grows lp w1 w2 → log_grows lp w2 w3 → log_grows lp w1 w3.
Proof.
  intros [(l1 & Ho1 & Hl1) [Hd1 Hf1]] [(l2 & Ho2 & Hl2) [Hd2 Hf2]].
  split; [|split].
  - exists (l1 ++ l2)%list. rewrite Ho2, Ho1, Hl2, Hl1, !app_assoc. done.
  - congruence.
  - intros p Hp. rewrite Hf2, Hf1; done.
Qed.

Lemma log_grows_logged lp m w : log_grows lp w (logged lp m w).
Proof.
  split; [|split].
  - exists [log_line (clock w) m]. by rewrite stdout_logged, log_of_logged.
  - done.
  - intros p Hp. by apply files_logged_other.
Qed.

Lemma log_grows_set_trace lp f w : log_grows lp w (set_trace f w).
Proof. split; [|done]. exists []. by rewrite !app_nil_r. Qed.

Lemma log_grows_stdout lp w w' line :
  log_grows lp w w' → line ∈ stdout w → line ∈ stdout w'.
Proof. intros [(l & -> & _) _] Hin. apply elem_of_app. by left. Qed.

Lemma log_grows_log lp w w' line :
  log_grows lp w w' → line ∈ log_of lp w → line ∈ log_of lp w'.
Proof. intros [(l & _ & ->) _] Hin. apply elem_of_app. by left. Qed.

Lemma logged_line lp m w :
  log_line (clock w) m ∈ stdout (logged lp m w) ∧
  log_line (clock w) m ∈ log_of lp (logged lp m w).
Proof.
  rewrite stdout_logged, log_of_logged, !elem_of_app, !list_elem_of_singleton. auto.
Qed.

Lemma coupa_step_spec lp ts ledger :
  step_spec env lp "coupa" "COUPA_API_URL" "COUPA_API_KEY"
    "Skipping Coupa: credentials or URL not set"
    (inr (coupa_payload env ts ledger)) (coupa_step svc env lp ts ledger).
Proof.
  intros results w _.
  destruct (configured env "COUPA_API_URL" "COUPA_API_KEY") eqn:E.
  - destruct (coupa_step_post lp ts ledger results w E) as [res ->].
    do 2 eexists. split; [reflexivity|]. split; [|split; [done|eauto]].
    eauto using log_grows_trans, log_grows_logged, log_grows_set_trace.
  - rewrite (coupa_step_skip lp ts ledger results w E).
    do 2 eexists. split; [reflexivity|]. split; [apply log_grows_logged|].
    split; [by rewrite app_nil_r|]. split; [done|].
    exists (clock w). apply logged_line.
Qed.

Lemma piee_step_spec lp ts ledger :
  step_spec env lp "piee" "PIEE_API_URL" "PIEE_API_KEY"
    "Skipping PIEE: credentials or URL not set"
    (piee_payload env ts ledger) (piee_step svc env lp ts ledger).
Proof.
  intros results w Hok.
  destruct (configured env "PIEE_API_URL" "PIEE_API_KEY") eqn:E.
  - destruct Hok as [p Hp]; [done|]. rewrite Hp.
    destruct (piee_step_post lp ts ledger results w p E Hp) as [res ->].
    do 2 eexists. split; [reflexivity|]. split; [|split; [done|eauto]].
    eauto using log_grows_trans, log_grows_logged, log_grows_set_trace.
  - rewrite (piee_step_skip lp ts ledger results w E).
    do 2 eexists. split; [reflexivity|]. split; [apply log_grows_logged|].
    split; [by rewrite app_nil_r|]. split; [done|].
    exists (clock w). apply logged_line.
Qed.

Lemma sam_step_spec lp ts ledger :
  step_spec env lp "sam" "SAM_API_URL" "SAM_API_KEY"
    "Skipping SAM.gov: credentials or URL not set"
    (inr (sam_payload env ts ledger)) (sam_step svc env lp ts ledger).
Proof.
  intros results w _.
  destruct (configured env "SAM_API_URL" "SAM_API_KEY") eqn:E.
  - destruct (sam_step_post lp ts ledger results w E) as [res ->].
    do 2 eexists. split; [reflexivity|]. split; [|split; [done|eauto]].
    eauto using log_grows_trans, log_grows_logged, log_grows_set_trace.
  - rewrite (sam_step_skip lp ts ledger results w E).
    do 2 eexists. split; [reflexivity|]. split; [apply log_grows_logged|].
    split; [by rewrite app_nil_r|]. split; [done|].
    exists (clock w). apply logged_line.
Qed.


Lemma publish_completes inp ts ledger w :
  let lp := path_join inp "integrations.log" in
  nonempty (missing_identifiers env) = false →
  (configured env "PIEE_API_URL" "PIEE_API_KEY" = true →
   ∃ payload, piee_payload env ts ledger = inr payload) →
  ∃ results w',
    publish svc env inp lp ts ledger w = (Ret 0, w') ∧
    files w' !! path_join inp "integrations_report.json"
      = Some [json_dumps (report_doc env ts ledger results)] ∧
    trace w' = (trace w ++ expected_posts env ts ledger)%list ∧
    dirs w' = dirs w ∧
    ∀ name url_var key_var skip_msg,
      (name, url_var, key_var, skip_msg) ∈ targets →
      if configured env url_var key_var then is_Some (dict_get name results)
      else dict_get name results = None ∧
           ∃ n, log_line n skip_msg ∈ stdout w' ∧ log_line n skip_msg ∈ log_of lp w'.
Proof.
  intros lp Hgate Hpiee. unfold publish. rewrite Hgate.
  unfold bind at 1.
  assert (∃ w0, (if nonempty (warn_missing env)
                 then log lp ("Warning: recommended enterprise identifiers missing: "
                       +:+ str_join ", " (warn_missing env)
                       +:+ ". Reports will proceed but may be incomplete.")
                 else ret tt) w = (Ret tt, w0) ∧ trace w0 = trace w ∧ dirs w0 = dirs w)
    as (w0 & -> & Ht0 & Hd0).
  { destruct (nonempty (warn_missing env)); [rewrite log_run|]; eexists; (split; [reflexivity|split; reflexivity]). }
  cbv beta iota.
  destruct (coupa_step_spec lp ts ledger [] w0 ltac:(eauto)) as (r1 & w1 & E1 & G1 & T1 & R1).
  unfold bind at 1. rewrite E1. cbv beta iota.
  destruct (piee_step_spec lp ts ledger r1 w1 Hpiee) as (r2 & w2 & E2 & G2 & T2 & R2).
  unfold bind at 1. rewrite E2. cbv beta iota.
  destruct (sam_step_spec lp ts ledger r2 w2 ltac:(eauto)) as (r3 & w3 & E3 & G3 & T3 & R3).
  unfold bind at 1. rewrite E3. cbv beta iota.
  run_steps.
  set (report := path_join inp "integrations_report.json").
  set (w4 := set_files (λ fs, <[report := [json_dumps (report_doc env ts ledger r3)]]> fs) w3).
  assert (Hlog4 : log_of lp w4 = log_of lp w3).
  { unfold log_of, w4. cbn. rewrite lookup_insert_ne; [done|apply report_is_not_log]. }
  exists r3. eexists. split; [reflexivity|]. split; [|split; [|split]].
  - rewrite files_logged_other by apply report_is_not_log.
    unfold w4. cbn. by rewrite lookup_insert_eq.
  - rewrite trace_logged. unfold w4. cbn. rewrite T3, T2, T1, Ht0.
    unfold expected_posts. by rewrite <- !app_assoc.
  - rewrite dirs_logged. unfold w4. cbn.
    destruct G1 as (_ & D1 & _), G2 as (_ & D2 & _), G3 as (_ & D3 & _). congruence.
  - assert (Hkeep : ∀ wk line, (wk = w1 ∨ wk = w2 ∨ wk = w3) →
              line ∈ stdout wk ∧ line ∈ log_of lp wk →
              line ∈ stdout (logged lp ("Wrote integrations_report.json (" +:+ report +:+ ")") w4) ∧
              line ∈ log_of lp (logged lp ("Wrote integrations_report.json (" +:+ report +:+ ")") w4)).
    { intros wk line Hwk [Ho Hl].
      assert (line ∈ stdout w3 ∧ line ∈ log_of lp w3) as [Ho3 Hl3].
      { destruct Hwk as [-> | [-> | ->]]; [split|split|done];
          eauto using log_grows_stdout, log_grows_log, log_grows_trans. }
      rewrite stdout_logged, log_of_logged, Hlog4, !elem_of_app. auto. }
    intros name url_var key_var skip_msg Hin.
    unfold targets in Hin. rewrite !elem_of_cons, elem_of_nil in Hin.
    destruct Hin as [Heq|[Heq|[Heq|[]]]]; simplify_eq.
    + destruct (configured env "COUPA_API_URL" "COUPA_API_KEY").
      * destruct R1 as [res1 ->].
        destruct (configured env "PIEE_API_URL" "PIEE_API_KEY"), (configured env "SAM_API_URL" "SAM_API_KEY");
          repeat match goal with
                 | H : ∃ res, _ = dict_set _ res _ |- _ => destruct H as [? ->]
                 | H : _ = _ ∧ _ |- _ => destruct H as [-> _]
                 end;
          rewrite ?dict_get_set_ne by done; rewrite dict_get_set_eq; eauto.
      * destruct R1 as [-> (n & Hn)].
        split; [|exists n; apply (Hkeep w1); auto].
        destruct (configured env "PIEE_API_URL" "PIEE_API_KEY"), (configured env "SAM_API_URL" "SAM_API_KEY");
          repeat match goal with
                 | H : ∃ res, _ = dict_set _ res _ |- _ => destruct H as [? ->]
                 | H : _ = _ ∧ _ |- _ => destruct H as [-> _]
                 end;
          rewrite ?dict_get_set_ne by done; done.
    + destruct (configured env "PIEE_API_URL" "PIEE_API_KEY").
      * destruct R2 as [res2 ->].
        destruct (configured env "SAM_API_URL" "SAM_API_KEY");
          repeat match goal with
                 | H : ∃ res, _ = dict_set _ res _ |- _ => destruct H as [? ->]
                 | H : _ = _ ∧ _ |- _ => destruct H as [-> _]
                 end;
          rewrite ?dict_get_set_ne by done; rewrite dict_get_set_eq; eauto.
      * destruct R2 as [-> (n & Hn)].
        split; [|exists n; apply (Hkeep w2); auto].
        destruct (configured env "COUPA_API_URL" "COUPA_API_KEY"), (configured env "SAM_API_URL" "SAM_API_KEY");
          repeat match goal with
                 | H : ∃ res, _ = dict_set _ res _ |- _ => destruct H as [? ->]
                 | H : _ = _ ∧ _ |- _ => destruct H as [-> _]
                 end;
          rewrite ?dict_get_set_ne by done; done.
    + destruct (configured env "SAM_API_URL" "SAM_API_KEY").
      * destruct R3 as [res3 ->]. rewrite dict_get_set_eq; eauto.
      * destruct R3 as [-> (n & Hn)].
        split; [|exists n; apply (Hkeep w3); auto].
        destruct (configured env "COUPA_API_URL" "COUPA_API_KEY"), (configured env "PIEE_API_URL" "PIEE_API_KEY");
          repeat match goal with
                 | H : ∃ res, _ = dict_set _ res _ |- _ => destruct H as [? ->]
                 | H : _ = _ ∧ _ |- _ => destruct H as [-> _]
                 end;
          rewrite ?dict_get_set_ne by done; done.
Qed.


Lemma is_missing_truthy var : is_missing env var ↔ truthy (env !! var) = false.
Proof.
  unfold is_missing, getenv_or, truthy.
  destruct (env !! var) as [s|]; simpl; [|done].
  destruct (decide (s = "")); split; congruence.
Qed.

Lemma elem_of_missing_identifiers name :
  name ∈ missing_identifiers env ↔
  (name = "UEI" ∧ is_missing env "UEI") ∨
  (name = "CAGE_CODE" ∧ is_missing env "CAGE_CODE").
Proof.
  rewrite missing_identifiers_eq, !is_missing_truthy.
  destruct (truthy (env !! "UEI")), (truthy (env !! "CAGE_CODE")); simpl;
    rewrite ?elem_of_cons, ?elem_of_nil; intuition congruence.
Qed.

Lemma gate_fails_iff :
  nonempty (missing_identifiers env) = true ↔
  is_missing env "UEI" ∨ is_missing env "CAGE_CODE".
Proof.
  rewrite missing_identifiers_eq, !is_missing_truthy.
  destruct (truthy (env !! "UEI")), (truthy (env !! "CAGE_CODE")); simpl;
    intuition congruence.
Qed.

(** Claim C1, amended.  Whenever the UEI or the CAGE value is missing and the
    input files of the run load, the publish run ends with exit status 3, has
    sent no request to any party, and has written
    [integrations_report.json] holding exactly the fields [error] (the text
    [missing_identifiers]), [missing] and [run_ts], where [missing] lists the
    missing required identifiers and nothing else.  When an input file does
    not load, the run ends with the loader's exception before it reaches the
    gate: it has sent no request and written no file. *)
Theorem gate_rejects_missing_identifiers inp w :
  is_missing env "UEI" ∨ is_missing env "CAGE_CODE" →
  (inputs_load inp w →
   ∃ missing w',
     run svc env inp w = (Exits 3, w') ∧
     exit_status (run svc env inp w).1 = 3 ∧
     trace w' = trace w ∧
     files w' !! path_join inp "integrations_report.json" =
       Some [json_dumps
               (VDict [("error", VStr "missing_identifiers");
                       ("missing", VList (VStr <$> missing));
                       ("run_ts", VStr (utcnow_isoformat (clock w) +:+ "Z"))])] ∧
     ∀ name, name ∈ missing ↔
       (name = "UEI" ∧ is_missing env "UEI") ∨
       (name = "CAGE_CODE" ∧ is_missing env "CAGE_CODE")) ∧
  (∀ e, load_error inp w = Some e →
     ∃ w',
       run svc env inp w = (Raises e, w') ∧
       exit_status (run svc env inp w).1 = 1 ∧
       trace w' = trace w ∧ files w' = files w).
Proof.
  intros Hmiss. apply gate_fails_iff in Hmiss. split.
  - intros Hload.
    exists (missing_identifiers env). eexists.
    rewrite (run_publish _ _ Hload), (publish_gate_fails _ _ _ _ _ Hmiss).
    split; [reflexivity|]. split; [reflexivity|]. split; [reflexivity|].
    split; [|apply elem_of_missing_identifiers].
    cbn. by rewrite lookup_insert_eq.
  - intros e He. eexists. rewrite (run_load_fails _ _ _ He).
    by repeat split.
Qed.

End PublishFacts.

Section GateFacts.
Import Integrations.
Context `{Python} (svc : Services).

Lemma missing_identifiers_empty_as_unset env var :
  missing_identifiers (<[var := ""]> env) = missing_identifiers (delete var env).
Proof.
  assert (Hsame : ∀ k, truthy (<[var := ""]> env !! k) = truthy (delete var env !! k)).
  { intros k. destruct (decide (var = k)) as [->|Hne].
    - by rewrite lookup_insert_eq, lookup_delete_eq.
    - by rewrite lookup_insert_ne, lookup_delete_ne. }
  by rewrite !missing_identifiers_eq, !Hsame.
Qed.

Lemma run_gate_fails env inp w :
  inputs_load inp w →
  nonempty (missing_identifiers env) = true →
  run svc env inp w =
  (Exits 3,
   set_files (λ fs, <[path_join inp "integrations_report.json" :=
      [json_dumps (error_doc (missing_identifiers env) (utcnow_isoformat (clock w) +:+ "Z"))]]> fs)
     (logged (path_join inp "integrations.log")
        ("Missing required enterprise identifiers: "
           +:+ str_join ", " (missing_identifiers env) +:+ ". Aborting integrations.")
        (set_clock S (set_dirs (λ d, {[inp]} ∪ d) w)))).
Proof. intros Hload Hm. by rewrite run_publish, publish_gate_fails. Qed.

(** Claim C8.  A required identifier set to the empty string is treated
    exactly like an unset one: the two runs are equal, the gate lists the
    same missing identifiers, this one among them, and fails; and when the
    run reaches the gate (its input files load) it exits with status 3 and
    the identifier is listed in the error document. *)
Theorem empty_identifier_counts_as_missing env inp w var :
  var = "UEI" ∨ var = "CAGE_CODE" →
  run svc (<[var := ""]> env) inp w = run svc (delete var env) inp w ∧
  missing_identifiers (<[var := ""]> env) = missing_identifiers (delete var env) ∧
  var ∈ missing_identifiers (<[var := ""]> env) ∧
  nonempty (missing_identifiers (<[var := ""]> env)) = true ∧
  (inputs_load inp w →
   ∃ missing w',
     run svc (<[var := ""]> env) inp w = (Exits 3, w') ∧
     files w' !! path_join inp "integrations_report.json" =
       Some [json_dumps
               (VDict [("error", VStr "missing_identifiers");
                       ("missing", VList (VStr <$> missing));
                       ("run_ts", VStr (utcnow_isoformat (clock w) +:+ "Z"))])] ∧
     var ∈ missing).
Proof.
  intros Hvar.
  assert (Hin : var ∈ missing_identifiers (<[var := ""]> env)).
  { apply elem_of_missing_identifiers. unfold is_missing, getenv_or.
    destruct Hvar as [-> | ->]; rewrite lookup_insert_eq; auto. }
  assert (Hfail : nonempty (missing_identifiers (<[var := ""]> env)) = true).
  { destruct (missing_identifiers (<[var := ""]> env)); [by apply elem_of_nil in Hin|done]. }
  split; [|split; [apply missing_identifiers_empty_as_unset|]].
  - destruct (inputs_load_or_error inp w)
      as [[Hload _]|[_ [e He]]].
    + rewrite !run_gate_fails; rewrite <- ?missing_identifiers_empty_as_unset; done.
    + by rewrite !(run_load_fails _ _ _ _ e He).
  - split; [done|]. split; [done|]. intros Hload.
    exists (missing_identifiers (<[var := ""]> env)). eexists.
    rewrite run_gate_fails by done. split; [reflexivity|]. split; [|done].
    cbn. by rewrite lookup_insert_eq.
Qed.

End GateFacts.

Section PublishProperties.
Import Integrations.
Context `{Python} (svc : Services) (env : gmap string string).

Lemma total_amount_nil : total_amount [] = inr (VInt 0).
Proof. reflexivity. Qed.

Lemma amount_float_blank (r : Row) :
  r !! "amount" = None ∨ r !! "amount" = Some "" →
  amount_float r = inr (float_of_int 0).
Proof. unfold amount_float. intros [-> | ->]; reflexivity. Qed.

Lemma amount_float_text (r : Row) s :
  r !! "amount" = Some s → s ≠ "" → amount_float r = float_of_str s.
Proof.
  unfold amount_float. intros -> Hs. simpl. by rewrite decide_False.
Qed.

Lemma traverse_app {E A B} (f : A → E + B) l1 l2 bs1 :
  traverse f l1 = inr bs1 →
  traverse f (l1 ++ l2) =
  match traverse f l2 with inl e => inl e | inr bs2 => inr (bs1 ++ bs2)%list end.
Proof.
  revert bs1. induction l1 as [|a l1 IH]; intros bs1; simpl.
  - intros [= <-]. by destruct (traverse f l2).
  - destruct (f a); [done|]. destruct (traverse f l1) as [|bs]; [done|].
    intros [= <-]. rewrite (IH bs eq_refl). by destruct (traverse f l2).
Qed.

(** Rows whose amount is missing or empty each add [float(0)]. *)
Lemma total_amount_blank_rows (ledger : list Row) :
  (∀ r, r ∈ ledger → r !! "amount" = None ∨ r !! "amount" = Some "") →
  total_amount ledger = inr (py_sum (replicate (length ledger) (float_of_int 0))).
Proof.
  intros Hblank. unfold total_amount.
  assert (traverse amount_float ledger = inr (replicate (length ledger) (float_of_int 0))) as ->; [|done].
  induction ledger as [|r ledger IH]; [done|]. simpl.
  rewrite amount_float_blank by (apply Hblank; left).
  rewrite IH; [done|]. intros r' Hr'. apply Hblank. by right.
Qed.

(** A row whose amount is text that [float] rejects aborts the aggregation
    with the exception [float] raised. *)
Lemma total_amount_raises (before after : list Row) (r : Row) s e amounts :
  traverse amount_float before = inr amounts →
  r !! "amount" = Some s → s ≠ "" → float_of_str s = inl e →
  total_amount (before ++ r :: after) = inl e.
Proof.
  intros Hbefore Hr Hs He. unfold total_amount.
  rewrite (traverse_app _ _ _ _ Hbefore). simpl.
  by rewrite (amount_float_text r s Hr Hs), He.
Qed.

Lemma piee_payload_builds ts ledger total :
  total_amount ledger = inr total → ∃ payload, piee_payload env ts ledger = inr payload.
Proof. unfold piee_payload. intros ->. eauto. Qed.

(** With the gate passed and PIEE configured, an amount that [float] rejects
    takes the whole run down: the exception leaves [run] and the report is
    not written. *)
Lemma run_aborts_when_total_raises inp w e :
  inputs_load inp w →
  ¬ (is_missing env "UEI" ∨ is_missing env "CAGE_CODE") →
  configured env "PIEE_API_URL" "PIEE_API_KEY" = true →
  total_amount (ledger_of inp w) = inl e →
  ∃ w',
    run svc env inp w = (Raises e, w') ∧
    exit_status (run svc env inp w).1 = 1 ∧
    files w' !! path_join inp "integrations_report.json"
      = files w !! path_join inp "integrations_report.json".
Proof.
  intros Hload Hgate Hpiee Htotal.
  assert (Hpass : nonempty (missing_identifiers env) = false).
  { rewrite <- gate_fails_iff in Hgate. by destruct (nonempty _). }
  set (lp := path_join inp "integrations.log").
  set (ts := utcnow_isoformat (clock w) +:+ "Z").
  set (w1 := set_clock S (set_dirs (λ d, {[inp]} ∪ d) w)).
  assert (∃ w0, (if nonempty (warn_missing env)
                 then log lp ("Warning: recommended enterprise identifiers missing: "
                       +:+ str_join ", " (warn_missing env)
                       +:+ ". Reports will proceed but may be incomplete.")
                 else ret tt) w1 = (Ret tt, w0) ∧ log_grows lp w1 w0)
    as (w0 & Hwarn & G0).
  { destruct (nonempty (warn_missing env)); [rewrite log_run|]; eexists;
      (split; [reflexivity|]); [apply log_grows_logged|apply log_grows_refl]. }
  destruct (coupa_step_spec svc env lp ts (ledger_of inp w) [] w0 ltac:(eauto))
    as (r1 & w2 & Hcoupa & G1 & _).
  assert (Hpayload : piee_payload env ts (ledger_of inp w) = inl e).
  { unfold piee_payload. by rewrite Htotal. }
  assert (Hrun : run svc env inp w =
                 (Raises e, logged lp "Posting to PIEE..." w2)).
  { rewrite run_publish by done. fold lp ts w1. unfold publish. rewrite Hpass.
    unfold bind at 1. rewrite Hwarn. cbv beta iota.
    unfold bind at 1. rewrite Hcoupa. cbv beta iota.
    unfold bind at 1.
    by rewrite (piee_step_raises svc env lp ts _ r1 w2 e Hpiee Hpayload). }
  eexists. rewrite Hrun. split; [reflexivity|]. split; [reflexivity|].
  pose proof (report_is_not_log inp) as Hne.
  rewrite files_logged_other by done.
  destruct G1 as (_ & _ & Hf1), G0 as (_ & _ & Hf0).
  by rewrite Hf1, Hf0.
Qed.

(** When the gate passes and the PIEE payload can be built, a target whose
    endpoint or key is not set is skipped: no request goes to it, its skip
    line is logged, its key is not in the results, and the run ends with
    status 0 whatever the other targets answer. *)
Lemma unconfigured_target_is_skipped inp w :
  let lp := path_join inp "integrations.log" in
  let ts := utcnow_isoformat (clock w) +:+ "Z" in
  inputs_load inp w →
  ¬ (is_missing env "UEI" ∨ is_missing env "CAGE_CODE") →
  (configured env "PIEE_API_URL" "PIEE_API_KEY" = true →
   ∃ total, total_amount (ledger_of inp w) = inr total) →
  ∃ results w',
    run svc env inp w = (Ret 0, w') ∧
    exit_status (run svc env inp w).1 = 0 ∧
    files w' !! path_join inp "integrations_report.json"
      = Some [json_dumps (report_doc env ts (ledger_of inp w) results)] ∧
    trace w' = (trace w ++ expected_posts env ts (ledger_of inp w))%list ∧
    ∀ name url_var key_var skip_msg,
      (name, url_var, key_var, skip_msg) ∈ targets →
      configured env url_var key_var = false →
      dict_get name results = None ∧
      ∃ n, log_line n skip_msg ∈ stdout w' ∧ log_line n skip_msg ∈ log_of lp w'.
Proof.
  intros lp ts Hload Hgate Hpiee.
  assert (Hpass : nonempty (missing_identifiers env) = false).
  { rewrite <- gate_fails_iff in Hgate. by destruct (nonempty _). }
  destruct (publish_completes svc env inp ts (ledger_of inp w)
              (set_clock S (set_dirs (λ d, {[inp]} ∪ d) w)) Hpass)
    as (results & w' & Hrun & Hrep & Htr & _ & Htargets).
  { intros Hc. destruct (Hpiee Hc) as [total Ht]. by eapply piee_payload_builds. }
  subst lp ts. cbv zeta in *.
  exists results, w'. rewrite run_publish, Hrun by done.
  split; [done|]. split; [done|]. split; [done|]. split; [done|].
  intros name url_var key_var skip_msg Hin Hoff.
  specialize (Htargets _ _ _ _ Hin). by rewrite Hoff in Htargets.
Qed.

(** Claim C9, amended.  Without a [ledger.csv] under the input directory
    [load_ledger] returns the empty list, and when the clearing report is
    absent or parses the run goes on as usual: it stops at the gate with
    status 3 when an identifier is missing, and otherwise posts to the
    configured targets and writes a report whose [counts.ledger_rows] is 0.
    When the clearing report does not parse, the run ends with the parser's
    exception before the gate: no request is sent and no file written. *)
Theorem missing_ledger_is_empty_ledger inp w :
  let ts := utcnow_isoformat (clock w) +:+ "Z" in
  files w !! path_join inp "ledger.csv" = None →
  load_ledger inp w = (Ret [], w) ∧
  ((∃ clearing, (load_clearing inp w).1 = Ret clearing) →
   if nonempty (missing_identifiers env)
   then ∃ w', run svc env inp w = (Exits 3, w')
   else ∃ results w',
          run svc env inp w = (Ret 0, w') ∧
          files w' !! path_join inp "integrations_report.json"
            = Some [json_dumps
                      (VDict [("run_ts", VStr ts);
                              ("counts", VDict [("ledger_rows", VInt 0)]);
                              ("results", VDict results);
                              ("enterprise", enterprise_val env)])] ∧
          trace w' = (trace w ++ expected_posts env ts [])%list ∧
          ∀ name url_var key_var skip_msg,
            (name, url_var, key_var, skip_msg) ∈ targets →
            is_Some (dict_get name results) ↔ configured env url_var key_var = true) ∧
  (∀ e, (load_clearing inp w).1 = Raises e →
     ∃ w', run svc env inp w = (Raises e, w') ∧
           files w' = files w ∧ trace w' = trace w).
Proof.
  intros ts Hnone.
  assert (Hledger : load_ledger inp w = (Ret [], w))
    by (by rewrite load_ledger_run, Hnone).
  split; [exact Hledger|]. split.
  - intros Hclearing.
    assert (Hload : inputs_load inp w).
    { split; [|exact Hclearing]. exists []. by rewrite Hledger. }
    assert (Hempty : ledger_of inp w = []).
    { unfold ledger_of. by rewrite Hledger. }
    destruct (nonempty (missing_identifiers env)) eqn:Hgate.
    + eexists. by rewrite run_gate_fails.
    + destruct (publish_completes svc env inp ts []
                  (set_clock S (set_dirs (λ d, {[inp]} ∪ d) w)) Hgate)
        as (results & w' & Hrun & Hrep & Htr & _ & Htargets).
      { intros _. by eapply piee_payload_builds, total_amount_nil. }
      subst ts. cbv zeta in *.
      exists results, w'. rewrite run_publish, Hempty by done.
      split; [done|]. split; [done|]. split; [done|].
      intros name url_var key_var skip_msg Hin.
      specialize (Htargets _ _ _ _ Hin).
      destruct (configured env url_var key_var); [done|].
      destruct Htargets as [-> _]. split; [by intros [? ?]|done].
  - intros e He. eexists. rewrite (run_load_fails svc env inp w e).
    + by repeat split.
    + unfold load_error. by rewrite Hledger, He.
Qed.

End PublishProperties.

(** * Properties of the collection run *)

Section CollectFacts.
Import NightlyAudit.
Context `{Python} (svc : Services) (env : gmap string string).

Lemma call_run {A} ev (answer : list Event → Exn + A) w :
  call ev answer w =
  (match answer (trace w) with inl e => Raises e | inr a => Ret a end,
   set_trace (λ t, (t ++ [ev])%list) w).
Proof. unfold call. by destruct (answer (trace w)). Qed.

(** *** SMS *)

Lemma fetch_twilio_unconfigured sid token nums since out w :
  truthy sid = false ∨ truthy token = false →
  fetch_twilio_messages svc sid token nums since out w = (Ret [], w).
Proof.
  unfold fetch_twilio_messages. intros [-> | ->]; simpl; [done|].
  by rewrite orb_true_r.
Qed.

Lemma list_messages_returns sid token since nums :
  (∀ sent num, ∃ msgs, twilio_list svc sent sid token num since = inr msgs) →
  ∀ acc w, ∃ results w',
    list_messages svc sid token nums since acc w = (Ret results, w') ∧
    files w' = files w ∧ dirs w' = dirs w ∧ stdout w' = stdout w ∧
    trace w' = (trace w ++ sms_events sid token since nums)%list.
Proof.
  intros Hok. induction nums as [|num nums IH]; intros acc w; simpl.
  - exists acc, w. by rewrite app_nil_r.
  - unfold bind. rewrite call_run.
    destruct (Hok (trace w) num) as [msgs ->].
    destruct (IH (acc ++ (sms_record <$> msgs))%list
                 (set_trace (λ t, (t ++ [EvSmsList sid token num since])%list) w))
      as (results & w' & -> & Hf & Hd & Ho & Ht).
    exists results, w'. split; [done|]. repeat split; try done.
    rewrite Ht. cbn. by rewrite <- app_assoc.
Qed.

Lemma list_messages_none sid token since nums :
  (∀ sent num, twilio_list svc sent sid token num since = inr []) →
  ∀ acc w, ∃ w',
    list_messages svc sid token nums since acc w = (Ret acc, w') ∧
    files w' = files w.
Proof.
  intros Hnone. induction nums as [|num nums IH]; intros acc w; simpl.
  - by exists w.
  - unfold bind. rewrite call_run, Hnone. simpl. rewrite app_nil_r.
    destruct (IH acc (set_trace (λ t, (t ++ [EvSmsList sid token num since])%list) w))
      as (w' & -> & Hf). by exists w'.
Qed.

Lemma list_messages_raises sid token since num nums acc w e :
  twilio_list svc (trace w) sid token num since = inl e →
  list_messages svc sid token (num :: nums) since acc w =
  (Raises e, set_trace (λ t, (t ++ [EvSmsList sid token num since])%list) w).
Proof. intros He. simpl. unfold bind. by rewrite call_run, He. Qed.

(** The loop against a provider whose answer depends on the number only. *)
Lemma list_messages_run sid token since (inbox : string → list SmsMessage) nums :
  (∀ sent num, num ∈ nums → twilio_list svc sent sid token num since = inr (inbox num)) →
  ∀ acc w, ∃ w',
    list_messages svc sid token nums since acc w
      = (Ret (acc ++ sms_records inbox nums)%list, w') ∧
    files w' = files w ∧ dirs w' = dirs w ∧ stdout w' = stdout w ∧
    trace w' = (trace w ++ sms_events sid token since nums)%list.
Proof.
  induction nums as [|num nums IH]; intros Hinbox acc w; cbn [list_messages].
  - exists w. unfold sms_records, sms_events. cbn. by rewrite !app_nil_r.
  - unfold bind. rewrite call_run, Hinbox by left. cbv beta iota.
    destruct (IH (λ sent n Hn, Hinbox sent n (list_elem_of_further _ _ _ Hn))
                 (acc ++ (sms_record <$> inbox num))%list
                 (set_trace (λ t, (t ++ [EvSmsList sid token num since])%list) w))
      as (w' & -> & Hf & Hd & Ho & Ht).
    exists w'. split.
    { unfold sms_records. cbn. by rewrite <- app_assoc. }
    repeat split; try done. rewrite Ht. cbn. by rewrite <- app_assoc.
Qed.

Lemma fetch_twilio_configured sid token nums since out w :
  truthy sid = true → truthy token = true →
  fetch_twilio_messages svc sid token nums since out w =
  (results <- list_messages svc (default "" sid) (default "" token) nums since [] ;;
   write_file (path_join out "sms.json") (json_dumps (VList results)) ;;;
   ret results) w.
Proof. unfold fetch_twilio_messages. by intros -> ->. Qed.

(** Claim C10, amended.  With the sid or the token absent the SMS collector
    returns the empty list and leaves the world as it was: no file is
    written.  With both present and every listing call of the provider
    returning, it writes [sms.json] holding exactly the list it returns; when
    the provider lists [inbox num] for each number, that list is the records
    of the messages found, number after number, which is the empty list when
    none is found. *)
Theorem sms_artifact_follows_credentials_and_listing
    (sid token : option string) nums since out w :
  (truthy sid = false ∨ truthy token = false →
   fetch_twilio_messages svc sid token nums since out w = (Ret [], w)) ∧
  (truthy sid = true → truthy token = true →
   ∀ inbox : string → list SmsMessage,
   (∀ sent num, num ∈ nums →
      twilio_list svc sent (default "" sid) (default "" token) num since
        = inr (inbox num)) →
   ∃ w',
     fetch_twilio_messages svc sid token nums since out w
       = (Ret (sms_records inbox nums), w') ∧
     (∀ record, record ∈ sms_records inbox nums ↔
                ∃ num m, num ∈ nums ∧ m ∈ inbox num ∧ record = sms_record m) ∧
     files w' = <[path_join out "sms.json" :=
                    [json_dumps (VList (sms_records inbox nums))]]> (files w)) ∧
  (truthy sid = true → truthy token = true →
   (∀ sent num, ∃ msgs,
      twilio_list svc sent (default "" sid) (default "" token) num since = inr msgs) →
   ∃ results w',
     fetch_twilio_messages svc sid token nums since out w = (Ret results, w') ∧
     files w' = <[path_join out "sms.json" := [json_dumps (VList results)]]> (files w)) ∧
  (truthy sid = true → truthy token = true →
   (∀ sent num,
      twilio_list svc sent (default "" sid) (default "" token) num since = inr []) →
   ∃ w',
     fetch_twilio_messages svc sid token nums since out w = (Ret [], w') ∧
     files w' = <[path_join out "sms.json" := [json_dumps (VList [])]]> (files w)).
Proof.
  split; [apply fetch_twilio_unconfigured|]. split; [|split].
  - intros Hs Ht inbox Hinbox. rewrite fetch_twilio_configured by done.
    destruct (list_messages_run _ _ since inbox nums Hinbox [] w)
      as (w1 & Hrun & Hf & _).
    unfold bind at 1. rewrite Hrun. cbn [app]. cbv beta iota.
    eexists. split; [reflexivity|]. split.
    + intros record. unfold sms_records. rewrite list_elem_of_bind. split.
      * intros (num & Hrec & Hnum). apply list_elem_of_fmap in Hrec as (m & -> & Hm).
        by exists num, m.
      * intros (num & m & Hnum & Hm & ->). exists num. split; [|done].
        apply list_elem_of_fmap. by exists m.
    + cbn. by rewrite Hf.
  - intros Hs Ht Hok. rewrite fetch_twilio_configured by done.
    destruct (list_messages_returns _ _ since nums Hok [] w)
      as (results & w1 & Hrun & Hf & _).
    unfold bind at 1. rewrite Hrun. cbv beta iota.
    exists results. eexists. split; [reflexivity|]. cbn. by rewrite Hf.
  - intros Hs Ht Hnone. rewrite fetch_twilio_configured by done.
    destruct (list_messages_none _ _ since nums Hnone [] w) as (w1 & Hrun & Hf).
    unfold bind at 1. rewrite Hrun. cbv beta iota.
    eexists. split; [reflexivity|]. cbn. by rewrite Hf.
Qed.

(** *** Device inventory *)

Lemma fetch_mdm_unconfigured url key out w :
  truthy url = false ∨ truthy key = false →
  fetch_apple_mdm svc url key out w = (Ret VNone, w).
Proof.
  unfold fetch_apple_mdm. intros [-> | ->]; simpl; [done|].
  by rewrite orb_true_r.
Qed.

Lemma fetch_mdm_status_error url key out w r :
  truthy url = true → truthy key = true →
  requests_get svc (trace w) (mdm_url (default "" url)) (mdm_headers (default "" key)) = inr r →
  resp_ok r = false →
  fetch_apple_mdm svc url key out w =
  (Ret (status_error r),
   set_trace (λ t, (t ++ [EvGet (mdm_url (default "" url)) (mdm_headers (default "" key))])%list) w).
Proof.
  unfold fetch_apple_mdm, mdm_url, mdm_headers. intros -> -> Hr Hok. simpl.
  unfold try_except, bind. rewrite call_run, Hr, Hok. reflexivity.
Qed.

(** The device collector never lets an exception out. *)
Lemma fetch_mdm_returns url key out w :
  ∃ devices w', fetch_apple_mdm svc url key out w = (Ret devices, w').
Proof.
  unfold fetch_apple_mdm.
  destruct (negb (truthy url) || negb (truthy key)); [by eauto|].
  unfold try_except, bind. rewrite call_run.
  destruct (requests_get svc _ _ _) as [e|r]; [by eauto|].
  destruct (resp_ok r); [|by eauto].
  unfold lift. destruct (resp_json r) as [e|devices]; by eauto.
Qed.

(** *** Mail *)

Lemma no_exit_ret {A} (a : A) : no_exit (ret a).
Proof. by intros w c. Qed.

Lemma no_exit_call {A} ev (answer : list Event → Exn + A) : no_exit (call ev answer).
Proof. intros w c. rewrite call_run. by destruct (answer (trace w)). Qed.

Lemma no_exit_lift {A} (r : Exn + A) : no_exit (lift r).
Proof. intros w c. by destruct r. Qed.

Lemma no_exit_write_file p c : no_exit (write_file p c).
Proof. by intros w c'. Qed.

Lemma no_exit_bind {A B} (m : Run A) (k : A → Run B) :
  no_exit m → (∀ a, no_exit (k a)) → no_exit (bind m k).
Proof.
  intros Hm Hk w c. unfold bind. specialize (Hm w).
  destruct (m w) as [[a|c'|e] w']; simpl in *; [apply Hk|by destruct (Hm c')|done].
Qed.

Lemma no_exit_retain_messages targets out fetched :
  ∀ results, no_exit (retain_messages svc targets out fetched results).
Proof.
  induction fetched as [|[uid raw] fetched IH]; intros results; simpl.
  - apply no_exit_ret.
  - apply no_exit_bind; [apply no_exit_lift|]. intros parsed.
    destruct (existsb _ targets); [|apply IH].
    apply no_exit_bind; [apply no_exit_write_file|]. intros _. apply IH.
Qed.

Lemma no_exit_fetch_emails host user pwd port targets since out :
  no_exit (fetch_emails svc host user pwd port targets since out).
Proof.
  unfold fetch_emails.
  repeat first
    [ apply no_exit_ret | apply no_exit_call | apply no_exit_retain_messages
    | apply no_exit_bind; [|intros ?] ].
Qed.

(** The mail collector has no guard on its settings: it dials whatever host
    it is given, [None] included, and a refused connection is what raises. *)
Lemma fetch_emails_dials host user pwd port targets since out w e :
  imap_connect svc (trace w) host port = inl e →
  fetch_emails svc host user pwd port targets since out w =
  (Raises e, set_trace (λ t, (t ++ [EvImapConnect host port])%list) w).
Proof.
  intros Hrefused. unfold fetch_emails. unfold bind at 1.
  by rewrite call_run, Hrefused.
Qed.

(** The handler of lines 130-133, on its own. *)
Lemma mail_stage_returns host user pwd port targets since out w :
  ∃ emails w',
    try_except (fetch_emails svc host user pwd port targets since out)
               (λ e, print ("Email fetch failed " +:+ exn_str e) ;;; ret []) w
    = (Ret emails, w') ∧
    ∀ e w1, fetch_emails svc host user pwd port targets since out w = (Raises e, w1) →
            emails = [] ∧
            w' = set_stdout (λ o, (o ++ ["Email fetch failed " +:+ exn_str e])%list) w1.
Proof.
  unfold try_except.
  pose proof (no_exit_fetch_emails host user pwd port targets since out w) as Hne.
  destruct (fetch_emails svc host user pwd port targets since out w) as [[emails|c|e] w1].
  - exists emails, w1. split; [done|]. intros ?? [=].
  - by destruct (Hne c).
  - eexists _, _. split; [reflexivity|]. by intros ?? [= <- <-].
Qed.

(** *** The run *)

Lemma phone_numbers_nonempty : ∃ num rest, phone_numbers env = num :: rest.
Proof.
  unfold phone_numbers.
  set (l := filter _ _). destruct (bool_decide _) eqn:E.
  - apply bool_decide_eq_true in E. destruct l; [by apply elem_of_nil in E|eauto].
  - destruct l; simpl; eauto.
Qed.

Lemma sms_failure_aborts_collect targets since folder w port e :
  int_of_str (getenv_or env "IMAP_PORT" "993") = inr port →
  truthy (getenv env "TWILIO_SID") = true →
  truthy (getenv env "TWILIO_TOKEN") = true →
  (∀ sent num, twilio_list svc sent (default "" (getenv env "TWILIO_SID"))
                 (default "" (getenv env "TWILIO_TOKEN")) num since = inl e) →
  ∃ w', collect svc env targets since folder w = (Raises e, w').
Proof.
  intros Hport Hsid Htok Hfail. unfold collect. rewrite Hport.
  unfold bind at 1. cbn [lift ret]. cbv beta iota.
  destruct (mail_stage_returns (getenv env "IMAP_HOST") (getenv env "IMAP_USER")
              (getenv env "IMAP_PASSWORD") port targets since folder w)
    as (emails & w1 & Hmail & _).
  unfold bind at 1. rewrite Hmail. cbv beta iota.
  unfold bind at 1. rewrite fetch_twilio_configured by done.
  destruct phone_numbers_nonempty as (num & rest & ->).
  unfold bind at 1. rewrite (list_messages_raises _ _ _ _ _ _ _ e) by apply Hfail.
  eauto.
Qed.

(** Claim C5, amended.  A non-empty [--since] that [strptime] rejects ends
    the collection run with exit status 2 before any file is written and
    before any party is contacted; by then the output directory and its
    [daily] subdirectory have been created, and nothing else. *)
Theorem bad_since_exits_after_bootstrap out targets since w e :
  since ≠ "" → strptime_ymd since = inl e →
  ∃ w',
    run svc env out targets (Some since) w = (Exits 2, w') ∧
    exit_status (run svc env out targets (Some since) w).1 = 2 ∧
    dirs w' = {[path_join out "daily"]} ∪ ({[out]} ∪ dirs w) ∧
    files w' = files w ∧
    trace w' = trace w ∧
    stdout w' = stdout w ∧
    stderr w' = (stderr w ++ [usage_message])%list.
Proof.
  intros Hne Hbad.
  assert (Hrun : run svc env out targets (Some since) w =
    (Exits 2,
     set_stderr (λ o, (o ++ [usage_message])%list)
       (set_dirs (λ d, {[path_join out "daily"]} ∪ d)
          (set_dirs (λ d, {[out]} ∪ d) w)))).
  { assert (truthy (Some since) = true) as Hgiven.
    { unfold truthy. by rewrite decide_False. }
    unfold run. rewrite Hgiven.
    change (default "" (Some since)) with since.
    unfold ensure_dir, bind, makedirs, try_except. by rewrite Hbad. }
  eexists. rewrite Hrun. repeat split; reflexivity.
Qed.

(** An empty [--since] is taken as absent: the run uses today's date. *)
Lemma empty_since_is_absent out targets w :
  run svc env out targets (Some "") w = run svc env out targets None w.
Proof. reflexivity. Qed.

(** Claim C7, amended.  For the SMS and the device-inventory sources a missing
    setting is no error: the collector returns an empty result (the empty
    list; [None], counted as 0 devices) and leaves the world as it was, so it
    has contacted nobody, written nothing and printed nothing. *)
Theorem unconfigured_sms_and_devices_are_skipped
    (sid token url key : option string) nums since out w now emails :
  (truthy sid = false ∨ truthy token = false →
   fetch_twilio_messages svc sid token nums since out w = (Ret [], w)) ∧
  (truthy url = false ∨ truthy key = false →
   fetch_apple_mdm svc url key out w = (Ret VNone, w)) ∧
  val_get "sms_count" (index_doc since now emails [] VNone) = Some (VInt 0) ∧
  val_get "devices_count" (index_doc since now emails [] VNone) = Some (VInt 0).
Proof.
  split; [apply fetch_twilio_unconfigured|].
  split; [apply fetch_mdm_unconfigured|]. done.
Qed.

End CollectFacts.

(** * Invariants of the runs *)

Section KeepsFacts.
Context `{Python}.

Global Instance same_files_outside_preorder P : PreOrder (same_files_outside P).
Proof.
  split; [by intros w p _|].
  intros w1 w2 w3 H12 H23 p Hp. by rewrite (H23 p Hp), (H12 p Hp).
Qed.
Global Instance same_dirs_preorder : PreOrder same_dirs.
Proof. split; [done|]. intros w1 w2 w3 H12 H23. unfold same_dirs in *. congruence. Qed.
Global Instance log_extends_preorder lp : PreOrder (log_extends lp).
Proof.
  split.
  - intros w. exists []. by rewrite !app_nil_r.
  - intros w1 w2 w3 (l1 & Ho1 & Hl1) (l2 & Ho2 & Hl2).
    exists (l1 ++ l2)%list. by rewrite Ho2, Ho1, Hl2, Hl1, !app_assoc.
Qed.
Global Instance logs_only_preorder lp M : PreOrder (logs_only lp M).
Proof.
  split.
  - intros w. exists []. by rewrite app_nil_r.
  - intros w1 w2 w3 (l1 & H1 & M1) (l2 & H2 & M2).
    exists (l1 ++ l2)%list. unfold log_lines in *.
    rewrite H2, H1, fmap_app, app_assoc. split; [done|]. by apply Forall_app.
Qed.
Global Instance sends_only_preorder Q : PreOrder (sends_only Q).
Proof.
  split.
  - intros w. exists []. by rewrite app_nil_r.
  - intros w1 w2 w3 (l1 & H1 & Q1) (l2 & H2 & Q2).
    exists (l1 ++ l2)%list. rewrite H2, H1, app_assoc. split; [done|].
    by apply Forall_app.
Qed.

Lemma keeps_ret {A} R `{!Reflexive R} (a : A) : keeps R (ret a).
Proof. intros w. apply reflexivity. Qed.
Lemma keeps_sys_exit {A} R `{!Reflexive R} c : keeps R (sys_exit (A := A) c).
Proof. intros w. apply reflexivity. Qed.
Lemma keeps_raise {A} R `{!Reflexive R} e : keeps R (raise (A := A) e).
Proof. intros w. apply reflexivity. Qed.
Lemma keeps_lift {A} R `{!Reflexive R} (r : Exn + A) : keeps R (lift r).
Proof. intros w. destruct r; apply reflexivity. Qed.
Lemma keeps_path_exists R `{!Reflexive R} f : keeps R (path_exists f).
Proof. intros w. apply reflexivity. Qed.
Lemma keeps_read_file R `{!Reflexive R} f : keeps R (read_file f).
Proof. intros w. unfold read_file. destruct (files w !! f); apply reflexivity. Qed.
Lemma keeps_bind {A B} R `{!Transitive R} (m : Run A) (k : A → Run B) :
  keeps R m → (∀ a, keeps R (k a)) → keeps R (bind m k).
Proof.
  intros Hm Hk w. unfold bind. specialize (Hm w).
  destruct (m w) as [[a|c|e] w1]; simpl in *; [|done..].
  etrans; [exact Hm|apply Hk].
Qed.
Lemma keeps_try_except {A} R `{!Transitive R} (m : Run A) (h : Exn → Run A) :
  keeps R m → (∀ e, keeps R (h e)) → keeps R (try_except m h).
Proof.
  intros Hm Hh w. unfold try_except. specialize (Hm w).
  destruct (m w) as [[a|c|e] w1]; simpl in *; [done..|].
  etrans; [exact Hm|apply Hh].
Qed.

(** What each primitive effect leaves alone. *)
Lemma call_keeps_files {A} P ev (answer : list Event → Exn + A) :
  keeps (same_files_outside P) (call ev answer).
Proof. intros w p _. unfold call. by destruct (answer (trace w)). Qed.
Lemma print_keeps_files P s : keeps (same_files_outside P) (print s).
Proof. by intros w p _. Qed.
Lemma eprint_keeps_files P s : keeps (same_files_outside P) (eprint s).
Proof. by intros w p _. Qed.
Lemma utcnow_keeps_files P : keeps (same_files_outside P) utcnow.
Proof. by intros w p _. Qed.
Lemma utcnow_today_keeps_files P : keeps (same_files_outside P) utcnow_today.
Proof. by intros w p _. Qed.
Lemma makedirs_keeps_files P d : keeps (same_files_outside P) (makedirs d).
Proof. by intros w p _. Qed.
Lemma write_file_keeps_files (P : string → Prop) f c :
  P f → keeps (same_files_outside P) (write_file f c).
Proof. intros Hf w p Hp. cbn. rewrite lookup_insert_ne; [done|]. by intros ->. Qed.
Lemma append_file_keeps_files (P : string → Prop) f c :
  P f → keeps (same_files_outside P) (append_file f c).
Proof. intros Hf w p Hp. cbn. rewrite lookup_insert_ne; [done|]. by intros ->. Qed.

Lemma call_keeps_dirs {A} ev (answer : list Event → Exn + A) :
  keeps same_dirs (call ev answer).
Proof. intros w. unfold call. by destruct (answer (trace w)). Qed.
Lemma print_keeps_dirs s : keeps same_dirs (print s).
Proof. by intros w. Qed.
Lemma utcnow_keeps_dirs : keeps same_dirs utcnow.
Proof. by intros w. Qed.
Lemma write_file_keeps_dirs f c : keeps same_dirs (write_file f c).
Proof. by intros w. Qed.
Lemma append_file_keeps_dirs f c : keeps same_dirs (append_file f c).
Proof. by intros w. Qed.

Lemma call_sends_only {A} (Q : Event → Prop) ev (answer : list Event → Exn + A) :
  Q ev → keeps (sends_only Q) (call ev answer).
Proof.
  intros Hq w. exists [ev]. split; [|by repeat constructor].
  unfold call. by destruct (answer (trace w)).
Qed.
Lemma print_sends_nothing Q s : keeps (sends_only Q) (print s).
Proof. intros w. exists []. cbn. by rewrite app_nil_r. Qed.
Lemma eprint_sends_nothing Q s : keeps (sends_only Q) (eprint s).
Proof. intros w. exists []. cbn. by rewrite app_nil_r. Qed.
Lemma utcnow_sends_nothing Q : keeps (sends_only Q) utcnow.
Proof. intros w. exists []. cbn. by rewrite app_nil_r. Qed.
Lemma utcnow_today_sends_nothing Q : keeps (sends_only Q) utcnow_today.
Proof. intros w. exists []. cbn. by rewrite app_nil_r. Qed.
Lemma write_file_sends_nothing Q f c : keeps (sends_only Q) (write_file f c).
Proof. intros w. exists []. cbn. by rewrite app_nil_r. Qed.
Lemma append_file_sends_nothing Q f c : keeps (sends_only Q) (append_file f c).
Proof. intros w. exists []. cbn. by rewrite app_nil_r. Qed.
Lemma makedirs_sends_nothing Q d : keeps (sends_only Q) (makedirs d).
Proof. intros w. exists []. cbn. by rewrite app_nil_r. Qed.
Lemma makedirs_extends_log lp d : keeps (log_extends lp) (makedirs d).
Proof. intros w. exists []. by rewrite !app_nil_r. Qed.
Lemma utcnow_extends_log lp : keeps (log_extends lp) utcnow.
Proof. intros w. exists []. by rewrite !app_nil_r. Qed.
Lemma write_file_extends_log lp f c :
  f ≠ lp → keeps (log_extends lp) (write_file f c).
Proof.
  intros Hne w. exists []. rewrite !app_nil_r. split; [done|].
  unfold log_of. cbn. by rewrite lookup_insert_ne.
Qed.

End KeepsFacts.

Create HintDb keeps discriminated.
#[global] Hint Resolve call_keeps_files print_keeps_files eprint_keeps_files
  utcnow_keeps_files utcnow_today_keeps_files makedirs_keeps_files
  call_keeps_dirs print_keeps_dirs utcnow_keeps_dirs write_file_keeps_dirs
  append_file_keeps_dirs append_file_keeps_files call_sends_only
  print_sends_nothing eprint_sends_nothing utcnow_sends_nothing
  utcnow_today_sends_nothing write_file_sends_nothing append_file_sends_nothing
  makedirs_sends_nothing makedirs_extends_log utcnow_extends_log : keeps.

(** Walk the structure of a [Run] term; the leaves come from the hints. *)
Ltac keeps_walk :=
  repeat first
    [ solve [eauto with keeps]
    | apply keeps_bind; [apply _| |intros ?]
    | apply keeps_try_except; [apply _| |intros ?]
    | apply keeps_ret; apply _
    | apply keeps_sys_exit; apply _
    | apply keeps_raise; apply _
    | apply keeps_lift; apply _
    | apply keeps_path_exists; apply _
    | apply keeps_read_file; apply _
    | match goal with
      | |- keeps _ (if ?b then _ else _) => destruct b
      | |- keeps _ (match ?x with _ => _ end) => destruct x
      end ].

Section PublishFrame.
Import Integrations.
Context `{Python} (svc : Services) (env : gmap string string).

Lemma log_keeps_files (P : string → Prop) lp msg :
  P lp → keeps (same_files_outside P) (log lp msg).
Proof. intros Hlp. unfold log. keeps_walk. Qed.
Lemma log_keeps_dirs lp msg : keeps same_dirs (log lp msg).
Proof. unfold log. keeps_walk. Qed.
Lemma log_sends_nothing Q lp msg : keeps (sends_only Q) (log lp msg).
Proof. unfold log. keeps_walk. Qed.
Lemma log_extends_log lp msg : keeps (log_extends lp) (log lp msg).
Proof.
  intros w. rewrite log_run. exists [log_line (clock w) msg]. cbn [snd].
  by rewrite stdout_logged, log_of_logged.
Qed.

Lemma post_keeps_files P url key payload :
  keeps (same_files_outside P) (post svc url key payload).
Proof. unfold post. keeps_walk. Qed.
Lemma post_keeps_dirs url key payload : keeps same_dirs (post svc url key payload).
Proof. unfold post. keeps_walk. Qed.
Lemma post_extends_log lp url key payload :
  keeps (log_extends lp) (post svc url key payload).
Proof. intros w. rewrite post_run. exists []. by rewrite !app_nil_r. Qed.


Lemma log_logs_only lp (M : string → Prop) msg :
  M msg → keeps (logs_only lp M) (log lp msg).
Proof.
  intros HM w. rewrite log_run. exists [(clock w, msg)]. cbn [snd].
  split; [by rewrite log_of_logged|by repeat constructor].
Qed.
Lemma post_logs_only lp M url key payload :
  keeps (logs_only lp M) (post svc url key payload).
Proof. intros w. rewrite post_run. exists []. by rewrite app_nil_r. Qed.
Lemma write_file_logs_only lp M f c :
  f ≠ lp → keeps (logs_only lp M) (write_file f c).
Proof.
  intros Hne w. exists []. rewrite app_nil_r. split; [|done].
  unfold log_of. cbn. by rewrite lookup_insert_ne.
Qed.

Lemma log_file_allowed inp : log_or_report inp (path_join inp "integrations.log").
Proof. by left. Qed.
Lemma report_file_allowed inp :
  log_or_report inp (path_join inp "integrations_report.json").
Proof. by right. Qed.

End PublishFrame.

#[global] Hint Resolve log_keeps_files log_keeps_dirs log_sends_nothing
  log_extends_log post_keeps_files post_keeps_dirs post_extends_log
  write_file_keeps_files write_file_extends_log report_is_not_log
  log_file_allowed report_file_allowed : keeps.

Section PublishInvariants.
Import Integrations.
Context `{Python} (svc : Services) (env : gmap string string).

Lemma publish_keeps_files inp ts ledger :
  keeps (same_files_outside (log_or_report inp))
        (publish svc env inp (path_join inp "integrations.log") ts ledger).
Proof.
  unfold publish, coupa_step, piee_step, sam_step. keeps_walk.
Qed.

Lemma publish_keeps_dirs inp lp ts ledger :
  keeps same_dirs (publish svc env inp lp ts ledger).
Proof.
  unfold publish, coupa_step, piee_step, sam_step. keeps_walk.
Qed.

Lemma publish_extends_log inp ts ledger :
  keeps (log_extends (path_join inp "integrations.log"))
        (publish svc env inp (path_join inp "integrations.log") ts ledger).
Proof.
  unfold publish, coupa_step, piee_step, sam_step. keeps_walk.
Qed.

(** The whole run, loading included, keeps what the publishing proper
    keeps. *)
Lemma run_keeps {R : relation World} `{!PreOrder R} inp :
  keeps R (makedirs inp) → keeps R utcnow →
  (∀ ts ledger, keeps R (publish svc env inp (path_join inp "integrations.log") ts ledger)) →
  keeps R (run svc env inp).
Proof.
  intros Hmk Hnow Hpub. unfold run.
  apply keeps_bind; [apply _|exact Hmk|intros _].
  apply keeps_bind; [apply _|unfold load_ledger; keeps_walk|intros ledger].
  apply keeps_bind; [apply _|unfold load_clearing; keeps_walk|intros clearing].
  apply keeps_bind; [apply _|exact Hnow|intros now]. apply Hpub.
Qed.

Lemma run_dirs inp w : dirs (run svc env inp w).2 = {[inp]} ∪ dirs w.
Proof.
  destruct (inputs_load_or_error inp w) as [[Hload _]|[_ [e He]]].
  - rewrite run_publish by done. by rewrite (publish_keeps_dirs inp _ _ _ _).
  - by rewrite (run_load_fails _ _ _ _ _ He).
Qed.

(** Whatever its outcome, a publish run changes no file other than
    [integrations.log] and [integrations_report.json] under its input
    directory; the input directory has been asked for, and no directory is
    removed. *)
Theorem publish_run_touches_only_its_log_and_report inp w :
  (∀ p, p ≠ path_join inp "integrations.log" →
        p ≠ path_join inp "integrations_report.json" →
        files (run svc env inp w).2 !! p = files w !! p) ∧
  inp ∈ dirs (run svc env inp w).2 ∧
  dirs w ⊆ dirs (run svc env inp w).2.
Proof.
  split.
  - intros p Hlog Hrep.
    apply (run_keeps (R := same_files_outside (log_or_report inp)) inp);
      [eauto with keeps|eauto with keeps|intros; apply publish_keeps_files|].
    by intros [-> | ->].
  - rewrite run_dirs. set_solver.
Qed.

(** Whatever its outcome, a publish run only appends to its log: the log
    file afterwards is the log file before followed by new lines, and the
    same lines, in the same order, went to the standard output. *)
Theorem publish_log_is_append_only inp w :
  ∃ lines,
    log_of (path_join inp "integrations.log") (run svc env inp w).2
      = (log_of (path_join inp "integrations.log") w ++ lines)%list ∧
    stdout (run svc env inp w).2 = (stdout w ++ lines)%list.
Proof.
  destruct (run_keeps (R := log_extends (path_join inp "integrations.log")) inp
              (makedirs_extends_log _ _) (utcnow_extends_log _)
              (publish_extends_log inp) w)
    as (lines & Hout & Hlog).
  exists lines. split; [exact Hlog|exact Hout].
Qed.


Lemma post_sends_only (Q : Event → Prop) url key payload :
  Q (EvPost url (post_headers key) payload) →
  keeps (sends_only Q) (post svc url key payload).
Proof.
  intros Hq w. rewrite post_run. exists [EvPost url (post_headers key) payload].
  split; [done|by repeat constructor].
Qed.

Lemma publish_sends_only inp lp ts ledger :
  keeps (sends_only (to_configured_target env)) (publish svc env inp lp ts ledger).
Proof.
  assert (Hpost : ∀ name url_var key_var skip_msg payload,
            (name, url_var, key_var, skip_msg) ∈ targets →
            configured env url_var key_var = true →
            keeps (sends_only (to_configured_target env))
              (post svc (default "" (getenv env url_var))
                    (default "" (getenv env key_var)) payload)).
  { intros name url_var key_var skip_msg payload Hin Hon.
    apply post_sends_only. by exists name, url_var, key_var, skip_msg, payload. }
  assert (Hcoupa : ∀ payload, configured env "COUPA_API_URL" "COUPA_API_KEY" = true →
            keeps (sends_only (to_configured_target env))
              (post svc (default "" (getenv env "COUPA_API_URL"))
                    (default "" (getenv env "COUPA_API_KEY")) payload)).
  { intros payload. eapply Hpost. unfold targets. left. }
  assert (Hpiee : ∀ payload, configured env "PIEE_API_URL" "PIEE_API_KEY" = true →
            keeps (sends_only (to_configured_target env))
              (post svc (default "" (getenv env "PIEE_API_URL"))
                    (default "" (getenv env "PIEE_API_KEY")) payload)).
  { intros payload. eapply Hpost. unfold targets.
    right. left. }
  assert (Hsam : ∀ payload, configured env "SAM_API_URL" "SAM_API_KEY" = true →
            keeps (sends_only (to_configured_target env))
              (post svc (default "" (getenv env "SAM_API_URL"))
                    (default "" (getenv env "SAM_API_KEY")) payload)).
  { intros payload. eapply Hpost. unfold targets.
    do 2 right. left. }
  clear Hpost.
  unfold publish, coupa_step, piee_step, sam_step.
  change (truthy (getenv env "COUPA_API_URL") && truthy (getenv env "COUPA_API_KEY"))
    with (configured env "COUPA_API_URL" "COUPA_API_KEY").
  change (truthy (getenv env "PIEE_API_URL") && truthy (getenv env "PIEE_API_KEY"))
    with (configured env "PIEE_API_URL" "PIEE_API_KEY").
  change (truthy (getenv env "SAM_API_URL") && truthy (getenv env "SAM_API_KEY"))
    with (configured env "SAM_API_URL" "SAM_API_KEY").
  destruct (configured env "COUPA_API_URL" "COUPA_API_KEY") eqn:Ec,
           (configured env "PIEE_API_URL" "PIEE_API_KEY") eqn:Ep,
           (configured env "SAM_API_URL" "SAM_API_KEY") eqn:Es.
  all: repeat match goal with
    | |- keeps _ (log _ _) => apply log_sends_nothing
    | |- keeps _ (write_file _ _) => apply write_file_sends_nothing
    | |- keeps _ (post _ (default "" (getenv _ "COUPA_API_URL")) _ _) =>
        apply Hcoupa; reflexivity
    | |- keeps _ (post _ (default "" (getenv _ "PIEE_API_URL")) _ _) =>
        apply Hpiee; reflexivity
    | |- keeps _ (post _ (default "" (getenv _ "SAM_API_URL")) _ _) =>
        apply Hsam; reflexivity
    | |- keeps _ (bind _ _) => apply keeps_bind; [apply _| |intros ?]
    | |- keeps _ (ret _) => apply keeps_ret; apply _
    | |- keeps _ (sys_exit _) => apply keeps_sys_exit; apply _
    | |- keeps _ (lift _) => apply keeps_lift; apply _
    | |- keeps _ (if ?b then _ else _) => destruct b
    end.
Qed.

(** Whatever its outcome, every request a publish run sends is a POST to one
    of the three targets whose endpoint and key are both set, to that
    endpoint, with the JSON content type and that key as bearer token. *)
Theorem publish_run_posts_only_to_configured_targets inp w :
  ∃ evs,
    trace (run svc env inp w).2 = (trace w ++ evs)%list ∧
    ∀ ev, ev ∈ evs →
      ∃ name url_var key_var skip_msg payload,
        (name, url_var, key_var, skip_msg) ∈ targets ∧
        truthy (getenv env url_var) = true ∧
        truthy (getenv env key_var) = true ∧
        ev = EvPost (default "" (getenv env url_var))
               [("Content-Type", "application/json");
                ("Authorization", "Bearer " +:+ default "" (getenv env key_var))]
               payload.
Proof.
  destruct (run_keeps (R := sends_only (to_configured_target env)) inp
              (makedirs_sends_nothing _ _) (utcnow_sends_nothing _)
              (publish_sends_only inp _) w)
    as (evs & Htrace & Hall).
  exists evs. split; [exact Htrace|].
  intros ev Hev. rewrite Forall_forall in Hall.
  destruct (Hall ev Hev) as (name & url_var & key_var & skip_msg & payload & Hin & Hon & ->).
  exists name, url_var, key_var, skip_msg, payload.
  unfold configured in Hon. apply andb_true_iff in Hon as [Hu Hk].
  split; [done|]. split; [done|]. split; [done|].
  unfold post_event, post_headers, getenv in *.
  destruct (env !! key_var) as [key|]; [|discriminate]. cbn [default from_option id].
  by rewrite Hk.
Qed.

End PublishInvariants.

(** * Outcomes of the publish run *)

Section PublishOutcomes.
Import Integrations.
Context `{Python} (svc : Services) (env : gmap string string).

(** [post] never raises: it sends exactly one request, with the
    [Authorization] header only for a non-empty key, and returns
    [{ok, status, body}] when the endpoint answers, whatever the status, and
    [{ok: False, error}] when the request raises. *)
Theorem post_captures_every_outcome url key payload w :
  let headers := ("Content-Type", "application/json") ::
                 (if decide (key = "") then []
                  else [("Authorization", "Bearer " +:+ key)]) in
  ∃ res,
    post svc url key payload w
      = (Ret res, set_trace (λ t, (t ++ [EvPost url headers payload])%list) w) ∧
    match requests_post svc (trace w) url headers payload with
    | inr resp => res = VDict [("ok", VBool (resp_ok resp));
                               ("status", VInt (status_code resp));
                               ("body", VStr (resp_text resp))]
    | inl e => res = VDict [("ok", VBool false); ("error", VStr (exn_str e))]
    end.
Proof.
  intros headers. rewrite post_run.
  assert (Hh : post_headers key = headers).
  { unfold post_headers, headers, truthy. by destruct (decide (key = "")). }
  unfold post_result. rewrite Hh. eexists. split; [reflexivity|].
  by destruct (requests_post svc (trace w) url headers payload).
Qed.

(** The exit status of a publish run is 3, 0 or 1: 3 exactly when the
    input files load and [UEI] or [CAGE_CODE] is missing; 0 exactly when they
    load, both identifiers are set and, if PIEE is configured, the ledger
    total can be computed; 1 exactly when an input file does not load, or the
    identifiers are set and PIEE is configured over a ledger whose total
    raises. *)
Theorem exit_status_of_publish_run inp w :
  let status := exit_status (run svc env inp w).1 in
  let gate_fails := is_missing env "UEI" ∨ is_missing env "CAGE_CODE" in
  let total_builds :=
    configured env "PIEE_API_URL" "PIEE_API_KEY" = true →
    ∃ total, total_amount (ledger_of inp w) = inr total in
  (status = 3 ↔ inputs_load inp w ∧ gate_fails) ∧
  (status = 0 ↔ inputs_load inp w ∧ ¬ gate_fails ∧ total_builds) ∧
  (status = 1 ↔ ¬ inputs_load inp w ∨ (¬ gate_fails ∧ ¬ total_builds)) ∧
  (status = 0 ∨ status = 1 ∨ status = 3).
Proof.
  intros status gate_fails total_builds.
  destruct (inputs_load_or_error inp w) as [[Hload _]|[Hnot [e He]]].
  - destruct (decide (nonempty (missing_identifiers env) = true)) as [Hfail|Hpass].
    + assert (gate_fails) as Hg by (unfold gate_fails; by apply gate_fails_iff).
      assert (status = 3) as Hs.
      { unfold status. by rewrite run_gate_fails. }
      rewrite Hs. clearbody gate_fails total_builds. intuition discriminate.
    + assert (¬ gate_fails) as Hg by (unfold gate_fails; by rewrite <- gate_fails_iff).
      assert (total_builds ∨
              (configured env "PIEE_API_URL" "PIEE_API_KEY" = true ∧
               ∃ e, total_amount (ledger_of inp w) = inl e)) as [Hb|[Ep [e Et]]].
      { unfold total_builds.
        destruct (configured env "PIEE_API_URL" "PIEE_API_KEY"); [|by left].
        destruct (total_amount (ledger_of inp w)) as [e|total]; [right|left]; eauto. }
      * destruct (unconfigured_target_is_skipped svc env inp w Hload Hg Hb)
          as (results & w' & _ & Hstatus & _).
        fold status in Hstatus. rewrite Hstatus.
        clearbody gate_fails total_builds. intuition discriminate.
      * destruct (run_aborts_when_total_raises svc env inp w e Hload Hg Ep Et)
          as (w' & _ & Hstatus & _).
        assert (¬ total_builds) as Hnb.
        { intros Hb. destruct (Hb Ep) as [? Ht]. rewrite Et in Ht. discriminate. }
        fold status in Hstatus. rewrite Hstatus.
        clearbody gate_fails total_builds. intuition discriminate.
  - assert (status = 1) as Hs.
    { unfold status. by rewrite (run_load_fails _ _ _ _ _ He). }
    rewrite Hs. clearbody gate_fails total_builds. intuition discriminate.
Qed.

Lemma py_sum_float l a : ∃ f, fold_left py_add l (VFloat a) = VFloat f.
Proof. revert a. induction l as [|x l IH]; intros a; simpl; eauto. Qed.

Lemma traverse_outcome (ledger : list Row) :
  match traverse amount_float ledger with
  | inr amounts => Forall amount_ok ledger ∧ length amounts = length ledger
  | inl e => ∃ before r after s,
      ledger = (before ++ r :: after)%list ∧ Forall amount_ok before ∧
      r !! "amount" = Some s ∧ s ≠ "" ∧ float_of_str s = inl e
  end.
Proof.
  induction ledger as [|r ledger IH]; simpl; [by split|].
  destruct (amount_float r) as [e|f] eqn:Er.
  - exists [], r, ledger. unfold amount_float in Er.
    destruct (r !! "amount") as [s|] eqn:Es; simpl in Er; [|discriminate].
    destruct (decide (s = "")); [discriminate|]. by exists s.
  - assert (amount_ok r) as Hr.
    { unfold amount_ok, amount_float in *. destruct (truthy (r !! "amount")); eauto. }
    destruct (traverse amount_float ledger) as [e|amounts].
    + destruct IH as (before & r' & after & s & -> & Hb & Hs & Hne & He).
      exists (r :: before), r', after, s. repeat split; try done. by constructor.
    + destruct IH as [Hall Hlen]. split; [by constructor|]. simpl. by rewrite Hlen.
Qed.

(** The ledger total either is computed, and then every row's amount is
    missing, empty or accepted by [float], the total of the empty ledger is
    the integer 0 and any other total is a float; or it raises the error of
    [float] on the first row whose amount is non-empty text that [float]
    rejects. *)
Theorem total_amount_outcome (ledger : list Row) :
  match total_amount ledger with
  | inr total =>
      Forall amount_ok ledger ∧
      (ledger = [] → total = VInt 0) ∧
      (ledger ≠ [] → ∃ f, total = VFloat f)
  | inl e =>
      ∃ before r after s,
        ledger = (before ++ r :: after)%list ∧ Forall amount_ok before ∧
        r !! "amount" = Some s ∧ s ≠ "" ∧ float_of_str s = inl e
  end.
Proof.
  unfold total_amount. pose proof (traverse_outcome ledger) as Ht.
  destruct (traverse amount_float ledger) as [e|amounts]; [done|].
  destruct Ht as [Hall Hlen]. split; [done|]. split.
  - intros ->. by destruct amounts.
  - intros Hne. destruct amounts as [|a amounts].
    + destruct ledger; [done|discriminate].
    + unfold py_sum. simpl. apply py_sum_float.
Qed.

(** The recommended identifiers reported missing are exactly those of the
    four recommended fields whose variable is unset or empty.  When the input
    files load and the gate passes, the warning naming them is the first
    message the run logs if there is any, and it is logged nowhere else: with
    no recommended field missing, no message the run logs is the warning. *)
Theorem recommended_warning_names_missing_fields inp w :
  (∀ k, k ∈ warn_missing env ↔
        ∃ var, (k, var) ∈ recommended_vars ∧ is_missing env var) ∧
  (inputs_load inp w →
   ¬ (is_missing env "UEI" ∨ is_missing env "CAGE_CODE") →
   ∃ entries,
     log_of (path_join inp "integrations.log") (run svc env inp w).2
     = (log_of (path_join inp "integrations.log") w
        ++ (if nonempty (warn_missing env)
            then [log_line (S (clock w)) (warning_message env)] else [])
        ++ log_lines entries)%list ∧
     Forall (λ e, e.2 ≠ warning_message env) entries).
Proof.
  split.
  - intros k.
    assert (H1 : truthy (enterprise_get env "dodaac_contracting") = false
                 ↔ is_missing env "DODAAC_CONTRACTING").
    { change (enterprise_get env "dodaac_contracting")
        with (Some (getenv_or env "DODAAC_CONTRACTING" "")).
      by rewrite truthy_getenv_or, is_missing_truthy. }
    assert (H2 : truthy (enterprise_get env "paying_dodaac") = false
                 ↔ is_missing env "PAYING_DODAAC").
    { change (enterprise_get env "paying_dodaac")
        with (Some (getenv_or env "PAYING_DODAAC" "")).
      by rewrite truthy_getenv_or, is_missing_truthy. }
    assert (H3 : truthy (enterprise_get env "fedstrip") = false
                 ↔ is_missing env "FEDSTRIP").
    { change (enterprise_get env "fedstrip") with (Some (getenv_or env "FEDSTRIP" "")).
      by rewrite truthy_getenv_or, is_missing_truthy. }
    assert (H4 : truthy (enterprise_get env "finance_unitid") = false
                 ↔ is_missing env "FINANCE_UNITID").
    { change (enterprise_get env "finance_unitid")
        with (Some (getenv_or env "FINANCE_UNITID" "")).
      by rewrite truthy_getenv_or, is_missing_truthy. }
    unfold warn_missing, recommended, recommended_vars.
    rewrite list_elem_of_filter, !elem_of_cons, !elem_of_nil.
    split.
    + intros [Hk [->|[->|[->|[->|[]]]]]]; eexists;
        rewrite !elem_of_cons; (split; [|first [by apply H1|by apply H2|by apply H3|by apply H4]]);
        tauto.
    + intros (var & Hin & Hmiss).
      rewrite !elem_of_cons, elem_of_nil in Hin.
      destruct Hin as [Heq|[Heq|[Heq|[Heq|[]]]]]; simplify_eq; tauto.
  - intros Hload Hgate.
    assert (Hpass : nonempty (missing_identifiers env) = false).
    { rewrite <- gate_fails_iff in Hgate. by destruct (nonempty _). }
    set (lp := path_join inp "integrations.log").
    rewrite run_publish by done. fold lp. unfold publish. rewrite Hpass.
    unfold bind at 1.
    set (w1 := set_clock S (set_dirs (λ d, {[inp]} ∪ d) w)).
    assert (∃ w0, (if nonempty (warn_missing env)
                   then log lp ("Warning: recommended enterprise identifiers missing: "
                         +:+ str_join ", " (warn_missing env)
                         +:+ ". Reports will proceed but may be incomplete.")
                   else ret tt) w1 = (Ret tt, w0) ∧
                  log_of lp w0 = (log_of lp w
                    ++ (if nonempty (warn_missing env)
                        then [log_line (S (clock w)) (warning_message env)] else []))%list)
      as (w0 & -> & Hlog0).
    { destruct (nonempty (warn_missing env)).
      - rewrite log_run. eexists. split; [reflexivity|].
        rewrite log_of_logged. reflexivity.
      - eexists. split; [reflexivity|]. rewrite app_nil_r. reflexivity. }
    cbv beta iota.
    match goal with
    | |- context [bind ?m ?k w0] =>
        assert (keeps (logs_only lp (λ msg, msg ≠ warning_message env)) (bind m k))
          as Htail
    end.
    { unfold coupa_step, piee_step, sam_step.
      repeat match goal with
        | |- keeps _ (log _ _) =>
            apply log_logs_only; unfold warning_message;
            let Heq := fresh in intros Heq; cbn [String.append] in Heq; discriminate Heq
        | |- keeps _ (post _ _ _ _) => apply post_logs_only
        | |- keeps _ (write_file _ _) =>
            apply write_file_logs_only, report_is_not_log
        | |- keeps _ (bind _ _) => apply keeps_bind; [apply _| |intros ?]
        | |- keeps _ (ret _) => apply keeps_ret; apply _
        | |- keeps _ (lift _) => apply keeps_lift; apply _
        | |- keeps _ (if ?b then _ else _) => destruct b
        end. }
    destruct (Htail w0) as (entries & Hrest & Hall).
    exists entries. split; [|exact Hall]. by rewrite Hrest, Hlog0, <- app_assoc.
Qed.


(** When the input files load, the gate passes and the PIEE payload can be
    built, the run returns 0 and its report holds one result per configured
    target, in the order coupa, piee, sam; the requests sent are exactly the
    posts to those targets, in that order, one per result. *)
Theorem report_lists_configured_targets_in_order inp w :
  let ts := utcnow_isoformat (clock w) +:+ "Z" in
  inputs_load inp w →
  ¬ (is_missing env "UEI" ∨ is_missing env "CAGE_CODE") →
  (configured env "PIEE_API_URL" "PIEE_API_KEY" = true →
   ∃ total, total_amount (ledger_of inp w) = inr total) →
  ∃ results w',
    run svc env inp w = (Ret 0, w') ∧
    files w' !! path_join inp "integrations_report.json"
      = Some [json_dumps (report_doc env ts (ledger_of inp w) results)] ∧
    results.*1 = configured_names env ∧
    trace w' = (trace w ++ expected_posts env ts (ledger_of inp w))%list ∧
    length (expected_posts env ts (ledger_of inp w)) = length results.
Proof.
  intros ts Hload Hgate Hpiee.
  assert (Hpass : nonempty (missing_identifiers env) = false).
  { rewrite <- gate_fails_iff in Hgate. by destruct (nonempty _). }
  set (lp := path_join inp "integrations.log").
  set (ledger := ledger_of inp w) in *.
  assert (Hpayload : configured env "PIEE_API_URL" "PIEE_API_KEY" = true →
                     ∃ p, piee_payload env ts ledger = inr p).
  { intros Hc. destruct (Hpiee Hc) as [total Ht]. by eapply piee_payload_builds. }
  rewrite run_publish by done. fold lp ts ledger.
  set (w1 := set_clock S (set_dirs (λ d, {[inp]} ∪ d) w)).
  unfold publish. rewrite Hpass. unfold bind at 1.
  assert (∃ w0, (if nonempty (warn_missing env)
                 then log lp ("Warning: recommended enterprise identifiers missing: "
                       +:+ str_join ", " (warn_missing env)
                       +:+ ". Reports will proceed but may be incomplete.")
                 else ret tt) w1 = (Ret tt, w0) ∧ trace w0 = trace w)
    as (w0 & -> & Ht0).
  { destruct (nonempty (warn_missing env)); [rewrite log_run|]; eexists;
      (split; [reflexivity|reflexivity]). }
  cbv beta iota.
  destruct (coupa_step_spec svc env lp ts ledger [] w0 ltac:(eauto))
    as (r1 & w2 & E1 & G1 & T1 & R1).
  unfold bind at 1. rewrite E1. cbv beta iota.
  destruct (piee_step_spec svc env lp ts ledger r1 w2 Hpayload)
    as (r2 & w3 & E2 & G2 & T2 & R2).
  unfold bind at 1. rewrite E2. cbv beta iota.
  destruct (sam_step_spec svc env lp ts ledger r2 w3 ltac:(eauto))
    as (r3 & w4 & E3 & G3 & T3 & R3).
  unfold bind at 1. rewrite E3. cbv beta iota.
  unfold bind at 1. rewrite write_file_run. cbv beta iota.
  unfold bind at 1. rewrite log_run. cbv beta iota.
  exists r3. eexists. split; [reflexivity|].
  split.
  { rewrite files_logged_other by apply report_is_not_log.
    cbn. by rewrite lookup_insert_eq. }
  assert (Htrace : trace w4 = (trace w ++ expected_posts env ts ledger)%list).
  { rewrite T3, T2, T1, Ht0. unfold expected_posts. by rewrite <- !app_assoc. }
  assert (Hkeys : r3.*1 = configured_names env ∧
                  length (expected_posts env ts ledger) = length r3).
  { unfold configured_names, expected_posts.
    destruct (configured env "COUPA_API_URL" "COUPA_API_KEY");
      [destruct R1 as [res1 ->]|destruct R1 as [-> _]];
    (destruct (configured env "PIEE_API_URL" "PIEE_API_KEY");
      [destruct R2 as [res2 ->]; destruct Hpayload as [p ->]; [done|]
      |destruct R2 as [-> _]]);
    (destruct (configured env "SAM_API_URL" "SAM_API_KEY");
      [destruct R3 as [res3 ->]|destruct R3 as [-> _]]);
    split; reflexivity. }
  destruct Hkeys as [Hkeys Hlen].
  split; [done|]. split; [done|done].
Qed.

End PublishOutcomes.

(** * The collectors *)

Section Collectors.
Import NightlyAudit.
Context `{Python} (svc : Services) (env : gmap string string).

(** The numbers the SMS collector is given always include [2704018770],
    never contain a blank entry, hold every number listed in [PHONE_NUMBERS]
    and nothing else; the default number is not added a second time when the
    list already names it. *)
Theorem operational_number_is_always_listed :
  "2704018770" ∈ phone_numbers env ∧
  (∀ p, p ∈ phone_numbers env → p ≠ "") ∧
  (∀ p, p ∈ listed_numbers env → p ∈ phone_numbers env) ∧
  (∀ p, p ∈ phone_numbers env → p = "2704018770" ∨ p ∈ listed_numbers env) ∧
  length (filter (λ p, p = "2704018770") (phone_numbers env))
    = Nat.max 1 (length (filter (λ p, p = "2704018770") (listed_numbers env))).
Proof.
  unfold phone_numbers. fold (listed_numbers env).
  assert (Hne : ∀ p, p ∈ listed_numbers env → p ≠ "").
  { intros p Hp. unfold listed_numbers in Hp. by apply list_elem_of_filter in Hp as [? _]. }
  destruct (bool_decide ("2704018770" ∈ listed_numbers env)) eqn:E.
  - apply bool_decide_eq_true in E. repeat split; auto.
    assert (0 < length (filter (λ p, p = "2704018770") (listed_numbers env)))%nat.
    { destruct (filter _ _) eqn:Ef; simpl; [|lia].
      assert ("2704018770" ∈ filter (λ p, p = "2704018770") (listed_numbers env))
        as Hin by (by apply list_elem_of_filter).
      rewrite Ef in Hin. by apply elem_of_nil in Hin. }
    lia.
  - apply bool_decide_eq_false in E. repeat split.
    + apply elem_of_app. right. by apply list_elem_of_singleton.
    + intros p [Hp| ->%list_elem_of_singleton]%elem_of_app; [by apply Hne|done].
    + intros p Hp. apply elem_of_app. by left.
    + intros p [Hp| ->%list_elem_of_singleton]%elem_of_app; auto.
    + rewrite filter_app, length_app.
      assert (filter (λ p, p = "2704018770") (listed_numbers env) = []) as ->.
      { destruct (filter _ _) as [|x l] eqn:Ef; [done|].
        assert (x ∈ filter (λ p, p = "2704018770") (listed_numbers env)) as Hx
          by (rewrite Ef; left).
        apply list_elem_of_filter in Hx as [-> Hx]. by destruct E. }
      reflexivity.
Qed.


(** The device collector always returns and never prints or creates a
    directory.  Unconfigured it does nothing.  Configured it sends exactly one
    GET to [<url without trailing slashes>/devices]; it writes [devices.json]
    only when the answer is a success whose body parses, and otherwise returns
    an error object and writes nothing. *)
Theorem device_fetch_always_returns url key out w :
  let get_url := mdm_url (default "" url) in
  let headers := mdm_headers (default "" key) in
  ∃ devices w',
    fetch_apple_mdm svc url key out w = (Ret devices, w') ∧
    dirs w' = dirs w ∧ stdout w' = stdout w ∧
    if truthy url && truthy key then
      trace w' = (trace w ++ [EvGet get_url headers])%list ∧
      match requests_get svc (trace w) get_url headers with
      | inl e => devices = VDict [("error", VStr (exn_str e))] ∧ files w' = files w
      | inr r =>
          if resp_ok r then
            match resp_json r with
            | inr parsed =>
                devices = parsed ∧
                files w' = <[path_join out "devices.json" := [json_dumps parsed]]> (files w)
            | inl e => devices = VDict [("error", VStr (exn_str e))] ∧ files w' = files w
            end
          else devices = VDict [("error", VStr ("status " +:+ pretty (status_code r)));
                                ("body", VStr (resp_text r))] ∧
               files w' = files w
      end
    else devices = VNone ∧ w' = w.
Proof.
  intros get_url headers. subst get_url headers.
  unfold fetch_apple_mdm, mdm_url, mdm_headers.
  destruct (truthy url), (truthy key); simpl;
    try (by eexists _, _; repeat split).
  unfold try_except, bind. rewrite call_run.
  destruct (requests_get svc (trace w) _ _) as [e|r];
    [by eexists _, _; repeat split|].
  destruct (resp_ok r); [|by eexists _, _; repeat split].
  unfold lift. destruct (resp_json r) as [e|parsed];
    by eexists _, _; repeat split.
Qed.

(** Once the index exists the upload step always returns and changes no
    file or directory.  With the archive endpoint and key both set it sends
    one file POST and prints either the status it got or the failure; with
    either unset it does nothing. *)
Theorem upload_is_best_effort index_path pieces w :
  let url := default "" (getenv env "CLOUD_ARCHIVE_URL") in
  let headers := [("Authorization", "Bearer " +:+ default "" (getenv env "CLOUD_ARCHIVE_KEY"))] in
  files w !! index_path = Some pieces →
  ∃ w',
    upload svc env index_path w = (Ret tt, w') ∧
    files w' = files w ∧ dirs w' = dirs w ∧
    if configured env "CLOUD_ARCHIVE_URL" "CLOUD_ARCHIVE_KEY" then
      trace w' = (trace w ++ [EvPostFile url headers index_path])%list ∧
      stdout w' =
        (stdout w ++
         [match requests_post_files svc (trace w) url headers (String.concat "" pieces) with
          | inr r => "Upload status " +:+ pretty (status_code r)
          | inl e => "Upload failed " +:+ exn_str e
          end])%list
    else w' = w.
Proof.
  intros url headers Hindex. subst url headers. unfold upload.
  change (truthy (getenv env "CLOUD_ARCHIVE_URL") && truthy (getenv env "CLOUD_ARCHIVE_KEY"))
    with (configured env "CLOUD_ARCHIVE_URL" "CLOUD_ARCHIVE_KEY").
  destruct (configured env "CLOUD_ARCHIVE_URL" "CLOUD_ARCHIVE_KEY");
    [|by eexists].
  unfold bind at 1. unfold read_file. rewrite Hindex.
  unfold try_except, bind. rewrite call_run.
  destruct (requests_post_files svc (trace w) _ _ _);
    by eexists; repeat split.
Qed.


Lemma string_length_app (s t : string) :
  String.length (s +:+ t) = (String.length s + String.length t)%nat.
Proof. induction s as [|c s IH]; simpl; [done|]. by rewrite IH. Qed.

Lemma string_app_inj_r (s1 s2 t : string) : s1 +:+ t = s2 +:+ t → s1 = s2.
Proof.
  revert s2. induction s1 as [|c s1 IH]; intros [|d s2] Heq.
  - done.
  - apply (f_equal String.length) in Heq.
    rewrite !string_length_app in Heq. cbn [String.length] in Heq. lia.
  - apply (f_equal String.length) in Heq.
    rewrite !string_length_app in Heq. cbn [String.length] in Heq. lia.
  - cbn [String.append] in Heq. injection Heq as -> Heq. f_equal. by apply IH.
Qed.

Lemma eml_path_inj out uid1 uid2 : eml_path out uid1 = eml_path out uid2 → uid1 = uid2.
Proof.
  unfold eml_path. intros Heq%path_join_inj%string_app_inj_r.
  by apply (inj pretty) in Heq.
Qed.

(** The loop over the fetched messages, when every message parses and the
    uids are distinct (they are the keys of a dict). *)
Lemma retain_messages_run targets out fetched :
  (∀ m, m ∈ fetched → ∃ parsed, parse_from_bytes svc m.2 = inr parsed) →
  NoDup fetched.*1 →
  ∀ acc w, ∃ w',
    retain_messages svc targets out fetched acc w
      = (Ret (acc ++ retained svc targets fetched)%list, w') ∧
    trace w' = trace w ∧ stdout w' = stdout w ∧ dirs w' = dirs w ∧
    (∀ p, (∀ uid raw parsed, (uid, raw) ∈ fetched →
             parse_from_bytes svc raw = inr parsed →
             addressed_to targets parsed = true → p ≠ eml_path out uid) →
          files w' !! p = files w !! p) ∧
    (∀ uid raw parsed, (uid, raw) ∈ fetched →
       parse_from_bytes svc raw = inr parsed →
       addressed_to targets parsed = true →
       files w' !! eml_path out uid = Some [raw]).
Proof.
  induction fetched as [|[uid raw] fetched IH]; intros Hparse Hnodup acc w.
  - exists w. simpl. rewrite app_nil_r. repeat split; try done.
    intros ??? Hin. by apply elem_of_nil in Hin.
  - destruct (Hparse (uid, raw)) as [parsed Hp]; [left|]. simpl in Hp.
    assert (Hrest : ∀ m, m ∈ fetched → ∃ parsed, parse_from_bytes svc m.2 = inr parsed).
    { intros m Hm. apply Hparse. by right. }
    apply NoDup_cons in Hnodup as [Hfresh Hnodup].
    cbn [retain_messages]. unfold bind at 1. rewrite Hp. cbn [lift ret].
    cbv beta iota.
    change (existsb _ targets) with (addressed_to targets parsed).
    unfold retained. cbn [omap list_omap]. cbn [snd fst]. rewrite Hp.
    fold (retained svc targets fetched).
    destruct (addressed_to targets parsed) eqn:Ea.
    + unfold bind at 1. rewrite write_file_run. cbv beta iota.
      fold (eml_path out uid).
      destruct (IH Hrest Hnodup (acc ++ [mail_summary uid parsed])%list
                  (set_files (λ fs, <[eml_path out uid := [raw]]> fs) w))
        as (w' & Hrun & Ht & Ho & Hd & Hframe & Hsaved).
      exists w'. rewrite Hrun, <- app_assoc. split; [done|].
      split; [done|]. split; [done|]. split; [done|]. split.
      * intros p Hp'. rewrite Hframe.
        -- cbn. rewrite lookup_insert_ne; [done|].
           intros <-. eapply (Hp' uid raw parsed); [left|done..].
        -- intros uid' raw' parsed' Hin. apply Hp'. by right.
      * intros uid' raw' parsed' Hin Hp' Ha'.
        apply elem_of_cons in Hin as [[= -> ->]|Hin].
        -- rewrite Hframe; [cbn; by rewrite lookup_insert_eq|].
           intros uid2 raw2 parsed2 Hin2 _ _ Heq%eml_path_inj. subst uid2.
           apply Hfresh. apply list_elem_of_fmap. by eexists (_, raw2).
        -- by eapply Hsaved.
    + destruct (IH Hrest Hnodup acc w) as (w' & Hrun & Ht & Ho & Hd & Hframe & Hsaved).
      exists w'. rewrite Hrun. split; [done|].
      split; [done|]. split; [done|]. split; [done|]. split.
      * intros p Hp'. apply Hframe. intros uid' raw' parsed' Hin. apply Hp'. by right.
      * intros uid' raw' parsed' Hin Hp' Ha'.
        apply elem_of_cons in Hin as [[= -> ->]|Hin]; [congruence|].
        by eapply Hsaved.
Qed.


Lemma nodup_fst_unique {A B} (l : list (A * B)) x y1 y2 :
  NoDup l.*1 → (x, y1) ∈ l → (x, y2) ∈ l → y1 = y2.
Proof.
  induction l as [|[a b] l IH]; intros Hnd H1 H2.
  - by apply elem_of_nil in H1.
  - apply NoDup_cons in Hnd as [Hfresh Hnd].
    apply elem_of_cons in H1 as [H1|H1], H2 as [H2|H2].
    + congruence.
    + inversion H1; subst. destruct Hfresh. apply list_elem_of_fmap.
      by exists (a, y2).
    + inversion H2; subst. destruct Hfresh. apply list_elem_of_fmap.
      by exists (a, y1).
    + by apply IH.
Qed.

(** The mail collector up to its logout, against a mailbox that serves. *)
Lemma fetch_emails_until_logout host user pwd port targets since out fetched w :
  mailbox_serves svc host user pwd port since fetched →
  ∃ w',
    fetch_emails svc host user pwd port targets since out w
      = (match imap_logout svc (trace w ++ take 5 (mail_events host user pwd port since fetched.*1)) with
         | inr _ => Ret (retained svc targets fetched)
         | inl e => Raises e
         end, w') ∧
    trace w' = (trace w ++ mail_events host user pwd port since fetched.*1)%list ∧
    stdout w' = stdout w ∧ dirs w' = dirs w ∧
    (∀ p, (∀ uid raw parsed, (uid, raw) ∈ fetched →
             parse_from_bytes svc raw = inr parsed →
             addressed_to targets parsed = true → p ≠ eml_path out uid) →
          files w' !! p = files w !! p) ∧
    (∀ uid raw parsed, (uid, raw) ∈ fetched →
       parse_from_bytes svc raw = inr parsed →
       addressed_to targets parsed = true →
       files w' !! eml_path out uid = Some [raw]).
Proof.
  intros (Hconnect & Hlogin & Hselect & Hsearch & Hfetch & Hparse & Hnodup).
  unfold fetch_emails.
  unfold bind at 1. rewrite call_run, Hconnect. cbv beta iota.
  unfold bind at 1. rewrite call_run, Hlogin. cbv beta iota.
  unfold bind at 1. rewrite call_run, Hselect. cbv beta iota.
  unfold bind at 1. rewrite call_run, Hsearch. cbv beta iota.
  unfold bind at 1. rewrite call_run, Hfetch. cbv beta iota.
  unfold bind at 1.
  match goal with
  | |- context [retain_messages svc targets out fetched [] ?w5] =>
      destruct (retain_messages_run targets out fetched Hparse Hnodup [] w5)
        as (w6 & Hrun & Ht & Ho & Hd & Hframe & Hsaved)
  end.
  rewrite Hrun. cbv beta iota.
  unfold bind at 1. rewrite call_run. cbn [app].
  assert (Htrace6 : trace w6 = (trace w ++ take 5 (mail_events host user pwd port since fetched.*1))%list).
  { rewrite Ht. cbn. by rewrite <- !app_assoc. }
  rewrite Htrace6.
  eexists. split.
  { destruct (imap_logout svc _); reflexivity. }
  split; [cbn; rewrite Htrace6; unfold mail_events; cbn; by rewrite <- app_assoc|].
  split; [exact Ho|]. split; [exact Hd|]. split; [exact Hframe|exact Hsaved].
Qed.

(** Against a mailbox that serves, the mail collector returns the summaries
    of exactly the fetched messages addressed to a target, in fetch order,
    after the six IMAP requests; each such message is saved verbatim as
    [<uid>.eml], a message addressed to no target is not saved, and no other
    file changes. *)
Theorem mail_collector_retains_addressed_messages
    host user pwd port targets since out fetched w :
  mailbox_serves svc host user pwd port since fetched →
  (∀ sent, imap_logout svc sent = inr tt) →
  ∃ w',
    fetch_emails svc host user pwd port targets since out w
      = (Ret (retained svc targets fetched), w') ∧
    trace w' = (trace w ++ mail_events host user pwd port since fetched.*1)%list ∧
    (∀ uid raw parsed, (uid, raw) ∈ fetched →
       parse_from_bytes svc raw = inr parsed →
       (addressed_to targets parsed = true →
        mail_summary uid parsed ∈ retained svc targets fetched ∧
        files w' !! eml_path out uid = Some [raw]) ∧
       (addressed_to targets parsed = false →
        files w' !! eml_path out uid = files w !! eml_path out uid)) ∧
    (∀ p, (∀ m, m ∈ fetched → p ≠ eml_path out m.1) → files w' !! p = files w !! p).
Proof.
  intros Hserves Hlogout.
  destruct (fetch_emails_until_logout host user pwd port targets since out fetched w Hserves)
    as (w' & Hrun & Htrace & _ & _ & Hframe & Hsaved).
  rewrite Hlogout in Hrun. exists w'. split; [exact Hrun|]. split; [exact Htrace|].
  destruct Hserves as (_ & _ & _ & _ & _ & Hparse & Hnodup).
  split.
  - intros uid raw parsed Hin Hp. split.
    + intros Ha. split; [|by eapply Hsaved].
      unfold retained. apply list_elem_of_omap. exists (uid, raw).
      split; [done|]. cbn. by rewrite Hp, Ha.
    + intros Ha. apply Hframe. intros uid2 raw2 parsed2 Hin2 Hp2 Ha2 Heq%eml_path_inj.
      subst uid2.
      assert (raw2 = raw) as ->.
      { eapply nodup_fst_unique; [exact Hnodup|exact Hin2|exact Hin]. }
      congruence.
  - intros p Hp. apply Hframe. intros uid raw parsed Hin _ _.
    apply (Hp (uid, raw) Hin).
Qed.

(** When the mailbox serves but the logout raises, the mail stage of the run
    reports no message at all: it returns the empty list and prints
    [Email fetch failed <error>], although the retained messages have already
    been saved as [.eml] files. *)
Theorem late_mail_failure_discards_summaries_but_keeps_files
    host user pwd port targets since out fetched w e :
  mailbox_serves svc host user pwd port since fetched →
  (∀ sent, imap_logout svc sent = inl e) →
  ∃ w',
    try_except (fetch_emails svc host user pwd port targets since out)
               (λ e, print ("Email fetch failed " +:+ exn_str e) ;;; ret []) w
      = (Ret [], w') ∧
    stdout w' = (stdout w ++ ["Email fetch failed " +:+ exn_str e])%list ∧
    ∀ uid raw parsed, (uid, raw) ∈ fetched →
      parse_from_bytes svc raw = inr parsed →
      addressed_to targets parsed = true →
      files w' !! eml_path out uid = Some [raw].
Proof.
  intros Hserves Hlogout.
  destruct (fetch_emails_until_logout host user pwd port targets since out fetched w Hserves)
    as (w1 & Hrun & _ & Hout & _ & _ & Hsaved).
  rewrite Hlogout in Hrun. unfold try_except. rewrite Hrun.
  eexists. split; [reflexivity|]. split; [cbn; by rewrite Hout|].
  intros uid raw parsed Hin Hp Ha. cbn. by eapply Hsaved.
Qed.

End Collectors.

(** * The collection run as a whole *)

Section CollectFrame.
Import NightlyAudit.
Context `{Python} (svc : Services) (env : gmap string string).

Lemma inside_intro folder name : inside folder (path_join folder name).
Proof. by exists name. Qed.

Lemma eml_inside folder uid : inside folder (eml_path folder uid).
Proof. apply inside_intro. Qed.

Lemma retain_messages_keeps_files (P : string → Prop) targets out fetched :
  (∀ uid, P (eml_path out uid)) →
  ∀ acc, keeps (same_files_outside P) (retain_messages svc targets out fetched acc).
Proof.
  intros Heml.
  induction fetched as [|[uid raw] fetched IH]; intros acc; cbn [retain_messages].
  - apply keeps_ret, _.
  - apply keeps_bind; [apply _|apply keeps_lift, _|]. intros parsed.
    destruct (existsb _ targets); [|apply IH].
    apply keeps_bind; [apply _| |intros _; apply IH].
    apply write_file_keeps_files, Heml.
Qed.

(** A saved message is never the device inventory. *)
Lemma eml_is_not_devices folder uid :
  eml_path folder uid ≠ path_join folder "devices.json".
Proof.
  unfold eml_path. intros Heq%path_join_inj.
  generalize dependent (pretty uid). intros name Heq.
  assert (Hlen : String.length name = 8%nat).
  { apply (f_equal String.length) in Heq. rewrite string_length_app in Heq.
    cbn [String.length] in Heq. lia. }
  do 9 (destruct name as [|? name]; [discriminate Hlen || discriminate Heq|]).
  discriminate Hlen.
Qed.

Lemma retain_messages_keeps_dirs targets out fetched :
  ∀ acc, keeps same_dirs (retain_messages svc targets out fetched acc).
Proof.
  induction fetched as [|[uid raw] fetched IH]; intros acc; cbn [retain_messages].
  - apply keeps_ret, _.
  - apply keeps_bind; [apply _|apply keeps_lift, _|]. intros parsed.
    destruct (existsb _ targets); [|apply IH].
    apply keeps_bind; [apply _| |intros _; apply IH].
    apply write_file_keeps_dirs.
Qed.

Lemma retain_messages_sends_nothing Q targets out fetched :
  ∀ acc, keeps (sends_only Q) (retain_messages svc targets out fetched acc).
Proof.
  induction fetched as [|[uid raw] fetched IH]; intros acc; cbn [retain_messages].
  - apply keeps_ret, _.
  - apply keeps_bind; [apply _|apply keeps_lift, _|]. intros parsed.
    destruct (existsb _ targets); [|apply IH].
    apply keeps_bind; [apply _| |intros _; apply IH].
    apply write_file_sends_nothing.
Qed.

Lemma list_messages_keeps_files P sid token nums since :
  ∀ acc, keeps (same_files_outside P) (list_messages svc sid token nums since acc).
Proof.
  induction nums as [|num nums IH]; intros acc; cbn [list_messages].
  - apply keeps_ret, _.
  - apply keeps_bind; [apply _|apply call_keeps_files|intros msgs; apply IH].
Qed.

Lemma list_messages_keeps_dirs sid token nums since :
  ∀ acc, keeps same_dirs (list_messages svc sid token nums since acc).
Proof.
  induction nums as [|num nums IH]; intros acc; cbn [list_messages].
  - apply keeps_ret, _.
  - apply keeps_bind; [apply _|apply call_keeps_dirs|intros msgs; apply IH].
Qed.

Lemma list_messages_sends_only sid token nums since :
  ∀ acc, keeps (sends_only (λ _, True)) (list_messages svc sid token nums since acc).
Proof.
  induction nums as [|num nums IH]; intros acc; cbn [list_messages].
  - apply keeps_ret, _.
  - apply keeps_bind; [apply _|by apply call_sends_only|intros msgs; apply IH].
Qed.

End CollectFrame.

#[global] Hint Resolve inside_intro eml_inside retain_messages_keeps_files
  retain_messages_keeps_dirs retain_messages_sends_nothing
  list_messages_keeps_files list_messages_keeps_dirs list_messages_sends_only
  : keeps.

Section CollectRun.
Import NightlyAudit.
Context `{Python} (svc : Services) (env : gmap string string).

Lemma collect_keeps_files targets since folder :
  keeps (same_files_outside (inside folder)) (collect svc env targets since folder).
Proof.
  unfold collect, fetch_emails, fetch_twilio_messages, fetch_apple_mdm, upload.
  keeps_walk.
Qed.

Lemma collect_keeps_dirs targets since folder :
  keeps same_dirs (collect svc env targets since folder).
Proof.
  unfold collect, fetch_emails, fetch_twilio_messages, fetch_apple_mdm, upload.
  keeps_walk.
Qed.

Lemma mail_stage_keeps_files (P : string → Prop) port targets since folder :
  (∀ uid, P (eml_path folder uid)) →
  keeps (same_files_outside P) (mail_stage svc env port targets since folder).
Proof. intros Heml. unfold mail_stage, fetch_emails. keeps_walk. Qed.

Lemma sms_stage_keeps_files (P : string → Prop) since folder :
  P (path_join folder "sms.json") →
  keeps (same_files_outside P) (sms_stage svc env since folder).
Proof. intros Hsms. unfold sms_stage, fetch_twilio_messages. keeps_walk. Qed.

(** The run up to the collectors, for a start date that is accepted. *)
Lemma run_collect out targets since w d :
  start_date since w = inr d →
  run svc env out targets since w =
  collect svc env (targets_of targets) d (workspace_of out d)
    (workspace_world out since d w).
Proof.
  unfold workspace_world, start_date, run, ensure_dir, targets_of, workspace_of.
  destruct (truthy since).
  - intros Hd. unfold bind at 1. cbn [makedirs]. cbv beta iota.
    unfold bind at 1. cbn [makedirs]. cbv beta iota.
    unfold bind at 1. unfold try_except, lift. rewrite Hd. cbn [ret]. cbv beta iota.
    unfold bind at 1. cbn [makedirs]. cbv beta iota. reflexivity.
  - intros [= <-]. reflexivity.
Qed.

Lemma run_rejects_since out targets since w e :
  start_date since w = inl e →
  run svc env out targets since w =
  (Exits 2,
   set_stderr (λ o, (o ++ [usage_message])%list)
     (set_dirs (λ d, {[path_join out "daily"]} ∪ d)
        (set_dirs (λ d, {[out]} ∪ d) w))).
Proof.
  unfold start_date, run, ensure_dir.
  destruct (truthy since); [|done]. intros He.
  unfold bind, makedirs, try_except, lift. by rewrite He.
Qed.

(** Whatever its outcome, a collection run has asked for the output
    directory, its [daily] subdirectory and, when the start date is accepted,
    the workspace of that date, and removes no directory; it changes no file
    outside that workspace, and no file at all when the date is rejected. *)
Theorem collection_run_stays_in_its_workspace out targets since w :
  let w' := (run svc env out targets since w).2 in
  dirs w ⊆ dirs w' ∧ out ∈ dirs w' ∧ path_join out "daily" ∈ dirs w' ∧
  match start_date since w with
  | inr d =>
      workspace_of out d ∈ dirs w' ∧
      ∀ p, (∀ name, p ≠ path_join (workspace_of out d) name) →
           files w' !! p = files w !! p
  | inl _ => files w' = files w
  end.
Proof.
  cbv zeta. destruct (start_date since w) as [e|d] eqn:Hstart.
  - rewrite (run_rejects_since _ _ _ _ e Hstart). cbn.
    split; [intros x Hx|split; [|split; [|done]]];
      rewrite !elem_of_union, !elem_of_singleton; tauto.
  - rewrite (run_collect _ _ _ _ d Hstart).
    assert (Hd : dirs (collect svc env (targets_of targets) d (workspace_of out d)
                         (workspace_world out since d w)).2
                 = {[workspace_of out d]} ∪ bootstrap_dirs out w).
    { rewrite (collect_keeps_dirs _ _ _ _). unfold workspace_world.
      by destruct (truthy since). }
    rewrite Hd. unfold bootstrap_dirs.
    split; [intros x Hx; rewrite !elem_of_union, !elem_of_singleton; tauto|].
    split; [rewrite !elem_of_union, !elem_of_singleton; tauto|].
    split; [rewrite !elem_of_union, !elem_of_singleton; tauto|].
    split; [rewrite !elem_of_union, !elem_of_singleton; tauto|].
    intros p Hp. rewrite (collect_keeps_files _ _ _ _ p).
    + unfold workspace_world. by destruct (truthy since).
    + intros [name ->]. by apply (Hp name).
Qed.

(** An [IMAP_PORT] that [int] rejects ends the collection run with that
    exception (exit status 1), after the workspace has been created and
    before any party is contacted, any file written or anything printed. *)
Theorem malformed_mail_port_aborts_the_run out targets since w d e :
  start_date since w = inr d →
  int_of_str (getenv_or env "IMAP_PORT" "993") = inl e →
  ∃ w',
    run svc env out targets since w = (Raises e, w') ∧
    exit_status (run svc env out targets since w).1 = 1 ∧
    dirs w' = {[workspace_of out d]} ∪ bootstrap_dirs out w ∧
    files w' = files w ∧ trace w' = trace w ∧ stdout w' = stdout w.
Proof.
  intros Hstart Hport. rewrite (run_collect _ _ _ _ d Hstart).
  unfold collect. rewrite Hport. unfold bind at 1. cbn [lift raise]. cbv beta iota.
  eexists. split; [reflexivity|]. unfold workspace_world.
  repeat split; by destruct (truthy since).
Qed.

(** A collection run that gets past its settings always starts by opening
    the IMAP connection to [IMAP_HOST], set or not, on the port of
    [IMAP_PORT], which is 993 when the variable is unset. *)
Theorem mail_server_is_dialed_first out targets since w d port :
  start_date since w = inr d →
  int_of_str (getenv_or env "IMAP_PORT" "993") = inr port →
  (env !! "IMAP_PORT" = None → port = 993) ∧
  ∃ evs, trace (run svc env out targets since w).2
         = (trace w ++ EvImapConnect (getenv env "IMAP_HOST") port :: evs)%list.
Proof.
  intros Hstart Hport. split.
  { intros Hunset. unfold getenv_or in Hport. rewrite Hunset in Hport.
    cbn in Hport. rewrite int_of_str_993 in Hport. congruence. }
  rewrite (run_collect _ _ _ _ d Hstart).
  match goal with |- context [collect _ _ _ _ _ ?w1] => set (w0 := w1) end.
  assert (Ht0 : trace w0 = trace w)
    by (subst w0; unfold workspace_world; by destruct (truthy since)).
  unfold collect. rewrite Hport. unfold bind at 1. cbn [lift ret]. cbv beta iota.
  unfold fetch_emails.
  match goal with
  | |- context [bind (try_except (bind (call ?ev ?ans) ?k) ?h) ?k2 w0] =>
      set (rest := k); set (handler := h); set (after := k2);
      set (connect := call ev ans)
  end.
  assert (Hrest : ∀ u, keeps (sends_only (λ _, True)) (rest u)).
  { intros u. subst rest. keeps_walk. }
  assert (Hhandler : ∀ e, keeps (sends_only (λ _, True)) (handler e)).
  { intros e. subst handler. keeps_walk. }
  assert (Hafter : ∀ emails, keeps (sends_only (λ _, True)) (after emails)).
  { intros emails. subst after.
    unfold fetch_twilio_messages, fetch_apple_mdm, upload. keeps_walk. }
  set (w1 := set_trace (λ t, (t ++ [EvImapConnect (getenv env "IMAP_HOST") port])%list) w0).
  assert (Hgoal : sends_only (λ _, True) w1
            (bind (try_except (bind connect rest) handler) after w0).2).
  { unfold bind at 1. unfold try_except. unfold bind at 1.
    subst connect. rewrite call_run. fold w1.
    destruct (imap_connect svc (trace w0) (getenv env "IMAP_HOST") port) as [e|[]].
    - cbv beta iota. pose proof (Hhandler e w1) as Hh.
      destruct (handler e w1) as [[emails|c|e'] w2]; cbn [snd] in *; [|done..].
      etrans; [exact Hh|apply Hafter].
    - cbv beta iota. pose proof (Hrest tt w1) as Hr.
      destruct (rest tt w1) as [[emails|c|e'] w2]; cbn [snd] in *; [|done|].
      + etrans; [exact Hr|apply Hafter].
      + pose proof (Hhandler e' w2) as Hh.
        destruct (handler e' w2) as [[emails|c|e''] w3]; cbn [snd] in *;
          [|by etrans..].
        etrans; [exact Hr|]. etrans; [exact Hh|apply Hafter]. }
  destruct Hgoal as (evs & Htrace & _). exists evs. rewrite Htrace.
  subst w1. by rewrite trace_set_trace, Ht0, <- app_assoc.
Qed.

(** With both SMS credentials set and the provider listing [inbox num] for
    each number, the collector returns the records of all numbers
    concatenated in number order, sends one listing request per number, in
    order, and writes exactly that list to [sms.json]. *)
Theorem sms_collector_concatenates_listings
    (sid token : option string) (inbox : string → list SmsMessage) nums since out w :
  truthy sid = true → truthy token = true →
  (∀ sent num, num ∈ nums →
     twilio_list svc sent (default "" sid) (default "" token) num since = inr (inbox num)) →
  ∃ w',
    fetch_twilio_messages svc sid token nums since out w
      = (Ret (sms_records inbox nums), w') ∧
    length (sms_records inbox nums) = sum_list ((λ num, length (inbox num)) <$> nums) ∧
    trace w' = (trace w ++ ((λ num, EvSmsList (default "" sid) (default "" token) num since) <$> nums))%list ∧
    files w' = <[path_join out "sms.json" := [json_dumps (VList (sms_records inbox nums))]]> (files w) ∧
    dirs w' = dirs w ∧ stdout w' = stdout w.
Proof.
  intros Hsid Htok Hinbox. rewrite fetch_twilio_configured by done.
  destruct (list_messages_run svc _ _ since inbox nums Hinbox [] w)
    as (w1 & Hrun & Hf & Hd & Ho & Ht).
  unfold bind at 1. rewrite Hrun. cbn [app]. cbv beta iota.
  eexists. split; [reflexivity|]. split.
  { unfold sms_records. clear. induction nums as [|num nums IH]; [done|].
    cbn. rewrite length_app, length_fmap. by rewrite <- IH. }
  cbn. rewrite Hf, Hd, Ho, Ht. done.
Qed.

Lemma upload_returns index_path pieces w :
  files w !! index_path = Some pieces →
  ∃ w' lines,
    upload svc env index_path w = (Ret tt, w') ∧
    files w' = files w ∧ stdout w' = (stdout w ++ lines)%list.
Proof.
  intros Hindex. unfold upload.
  destruct (truthy _ && truthy _).
  - unfold bind at 1. unfold read_file. rewrite Hindex.
    unfold try_except, bind. rewrite call_run.
    destruct (requests_post_files svc (trace w) _ _ _);
      eexists _, [_]; by repeat split.
  - exists w, []. by rewrite app_nil_r.
Qed.

Lemma fetch_twilio_returns sid token nums since out w :
  (truthy sid = false ∨ truthy token = false) ∨
  (∀ sent num, ∃ msgs,
     twilio_list svc sent (default "" sid) (default "" token) num since = inr msgs) →
  ∃ sms w', fetch_twilio_messages svc sid token nums since out w = (Ret sms, w') ∧
            ((truthy sid = false ∨ truthy token = false) → sms = []).
Proof.
  intros [Hoff|Hok].
  - exists [], w. by rewrite fetch_twilio_unconfigured.
  - unfold fetch_twilio_messages.
    destruct (negb (truthy sid) || negb (truthy token)) eqn:E; [by exists [], w|].
    destruct (list_messages_returns svc _ _ since nums Hok [] w)
      as (results & w1 & Hrun & _).
    unfold bind at 1. rewrite Hrun. cbv beta iota.
    eexists _, _. split; [reflexivity|].
    apply orb_false_iff in E as [E1 E2].
    apply negb_false_iff in E1, E2. intros [?|?]; congruence.
Qed.

(** The collectors run in the order mail, SMS, devices, each in the world
    the one before left; the index then holds the counts of what they
    returned. *)
Lemma collect_stages targets d folder port w0 :
  int_of_str (getenv_or env "IMAP_PORT" "993") = inr port →
  (truthy (getenv env "TWILIO_SID") = false ∨ truthy (getenv env "TWILIO_TOKEN") = false) ∨
  (∀ sent num, ∃ msgs,
     twilio_list svc sent (default "" (getenv env "TWILIO_SID"))
       (default "" (getenv env "TWILIO_TOKEN")) num d = inr msgs) →
  ∃ w' w1 w2 w3 (emails sms : list PyVal) devices,
    collect svc env targets d folder w0 = (Ret tt, w') ∧
    mail_stage svc env port targets d folder w0 = (Ret emails, w1) ∧
    sms_stage svc env d folder w1 = (Ret sms, w2) ∧
    device_stage svc env folder w2 = (Ret devices, w3) ∧
    files w' = <[path_join folder "index.json" :=
                   [json_dumps (index_doc d (utcnow_isoformat (clock w3))
                                  emails sms devices)]]> (files w3) ∧
    last (stdout w') = Some "Nightly audit done".
Proof.
  intros Hport Hsms. unfold collect. rewrite Hport.
  unfold bind at 1. cbn [lift ret]. cbv beta iota.
  destruct (mail_stage_returns svc (getenv env "IMAP_HOST") (getenv env "IMAP_USER")
              (getenv env "IMAP_PASSWORD") port targets d folder w0)
    as (emails & w1 & Hmail & _).
  unfold bind at 1. rewrite Hmail. cbv beta iota.
  destruct (fetch_twilio_returns (getenv env "TWILIO_SID") (getenv env "TWILIO_TOKEN")
              (phone_numbers env) d folder w1 Hsms)
    as (sms & w2 & Hsmsrun & _).
  unfold bind at 1. rewrite Hsmsrun. cbv beta iota.
  destruct (fetch_mdm_returns svc (getenv env "APPLE_MDM_API_URL")
              (getenv env "APPLE_MDM_API_KEY") folder w2)
    as (devices & w3 & Hmdm).
  unfold bind at 1. rewrite Hmdm. cbv beta iota.
  unfold bind at 1. cbn [utcnow]. cbv beta iota.
  unfold bind at 1. cbn [write_file]. cbv beta iota.
  unfold bind at 1.
  match goal with
  | |- context [upload svc env ?ip ?w4] =>
      destruct (upload_returns ip
                  [json_dumps (index_doc d (utcnow_isoformat (clock w3)) emails sms devices)]
                  w4) as (w5 & lines & Hup & Hfiles & Hout)
  end.
  { cbn. by rewrite lookup_insert_eq. }
  rewrite Hup. cbv beta iota.
  exists (set_stdout (λ o, (o ++ ["Nightly audit done"])%list) w5),
         w1, w2, w3, emails, sms, devices.
  split; [reflexivity|]. split; [exact Hmail|]. split; [exact Hsmsrun|].
  split; [exact Hmdm|]. split.
  - cbn. by rewrite Hfiles.
  - cbn. by rewrite last_snoc.
Qed.

(** With an accepted start date, a port that parses and an SMS source that
    is unconfigured or whose listings return, the collection run ends
    normally whatever the mail server, the device endpoint and the archive
    do.  The three collectors have run in the order mail, SMS, devices, each
    in the world the one before left, and [index.json] in the workspace holds
    the start date, the time read after the last of them, and the number of
    messages, SMS records and devices they returned; the last line printed
    is [Nightly audit done]. *)
Theorem collection_run_completes out targets since w d port :
  start_date since w = inr d →
  int_of_str (getenv_or env "IMAP_PORT" "993") = inr port →
  (truthy (getenv env "TWILIO_SID") = false ∨ truthy (getenv env "TWILIO_TOKEN") = false) ∨
  (∀ sent num, ∃ msgs,
     twilio_list svc sent (default "" (getenv env "TWILIO_SID"))
       (default "" (getenv env "TWILIO_TOKEN")) num d = inr msgs) →
  ∃ w' w1 w2 w3 (emails sms : list PyVal) devices,
    run svc env out targets since w = (Ret tt, w') ∧
    exit_status (run svc env out targets since w).1 = 0 ∧
    mail_stage svc env port (targets_of targets) d (workspace_of out d)
      (workspace_world out since d w) = (Ret emails, w1) ∧
    sms_stage svc env d (workspace_of out d) w1 = (Ret sms, w2) ∧
    device_stage svc env (workspace_of out d) w2 = (Ret devices, w3) ∧
    files w' !! path_join (workspace_of out d) "index.json"
      = Some [json_dumps
                (VDict [("run_from", VStr (isoformat d));
                        ("generated_ts", VStr (utcnow_isoformat (clock w3) +:+ "Z"));
                        ("emails_count", VInt (Z.of_nat (length emails)));
                        ("sms_count", VInt (Z.of_nat (length sms)));
                        ("devices_count", VInt (devices_count devices))])] ∧
    last (stdout w') = Some "Nightly audit done".
Proof.
  intros Hstart Hport Hsms. rewrite (run_collect _ _ _ _ d Hstart).
  destruct (collect_stages (targets_of targets) d (workspace_of out d) port
              (workspace_world out since d w) Hport Hsms)
    as (w' & w1 & w2 & w3 & emails & sms & devices
        & Hrun & Hmail & Hsmsrun & Hmdm & Hfiles & Hlast).
  exists w', w1, w2, w3, emails, sms, devices. rewrite Hrun.
  split; [reflexivity|]. split; [reflexivity|]. split; [exact Hmail|].
  split; [exact Hsmsrun|]. split; [exact Hmdm|]. split; [|exact Hlast].
  rewrite Hfiles. by rewrite lookup_insert_eq.
Qed.

(** Claim C4, amended.  When the device endpoint answers with a non-success
    status, the collector returns the object [{error: 'status <code>', body}],
    which is no list, and writes no file.  In a run that completes, the
    [index.json] the run writes then records 0 devices, and [devices.json]
    in the workspace is what it was before the run: the error object is not
    persisted. *)
Theorem failed_device_fetch_yields_error_object url key out w r :
  truthy url = true → truthy key = true → resp_ok r = false →
  (requests_get svc (trace w) (mdm_url (default "" url)) (mdm_headers (default "" key))
     = inr r →
   ∃ w',
     fetch_apple_mdm svc url key out w =
       (Ret (VDict [("error", VStr ("status " +:+ pretty (status_code r)));
                    ("body", VStr (resp_text r))]), w') ∧
     is_list (status_error r) = false ∧
     files w' = files w) ∧
  (∀ out_base targets since d port,
     getenv env "APPLE_MDM_API_URL" = url →
     getenv env "APPLE_MDM_API_KEY" = key →
     (∀ sent, requests_get svc sent (mdm_url (default "" url))
                (mdm_headers (default "" key)) = inr r) →
     start_date since w = inr d →
     int_of_str (getenv_or env "IMAP_PORT" "993") = inr port →
     (truthy (getenv env "TWILIO_SID") = false ∨
      truthy (getenv env "TWILIO_TOKEN") = false) ∨
     (∀ sent num, ∃ msgs,
        twilio_list svc sent (default "" (getenv env "TWILIO_SID"))
          (default "" (getenv env "TWILIO_TOKEN")) num d = inr msgs) →
     ∃ w' (emails sms : list PyVal) now,
       run svc env out_base targets since w = (Ret tt, w') ∧
       files w' !! path_join (workspace_of out_base d) "index.json"
         = Some [json_dumps (index_doc d now emails sms (status_error r))] ∧
       val_get "devices_count" (index_doc d now emails sms (status_error r))
         = Some (VInt 0) ∧
       files w' !! path_join (workspace_of out_base d) "devices.json"
         = files w !! path_join (workspace_of out_base d) "devices.json").
Proof.
  intros Hu Hk Hok. split.
  - intros Hr. eexists.
    rewrite (fetch_mdm_status_error svc url key out w r) by done.
    split; [reflexivity|]. split; [done|]. done.
  - intros out_base targets since d port Hurl Hkey Hr Hstart Hport Hsms.
    set (folder := workspace_of out_base d).
    set (dev := path_join folder "devices.json").
    rewrite (run_collect _ _ _ _ d Hstart). fold folder.
    destruct (collect_stages (targets_of targets) d folder port
                (workspace_world out_base since d w) Hport Hsms)
      as (w' & w1 & w2 & w3 & emails & sms & devices
          & Hrun & Hmail & Hsmsrun & Hmdm & Hfiles & _).
    unfold device_stage in Hmdm. rewrite Hurl, Hkey in Hmdm.
    rewrite (fetch_mdm_status_error svc url key folder w2 r) in Hmdm by done.
    injection Hmdm as <- <-.
    exists w', emails, sms, (utcnow_isoformat (clock w2)). rewrite Hrun.
    split; [reflexivity|]. split; [by rewrite Hfiles, lookup_insert_eq|].
    split; [reflexivity|].
    rewrite Hfiles, lookup_insert_ne.
    2:{ intros Heq%path_join_inj. discriminate Heq. }
    change (files (set_trace _ w2)) with (files w2).
    pose proof (sms_stage_keeps_files (λ p, p ≠ dev) d folder) as Hkeep_sms.
    specialize (Hkeep_sms ltac:(intros Heq%path_join_inj; discriminate Heq) w1 dev).
    rewrite Hsmsrun in Hkeep_sms. cbn [snd] in Hkeep_sms.
    rewrite Hkeep_sms by (intros Hne; by apply Hne).
    pose proof (mail_stage_keeps_files (λ p, p ≠ dev) port (targets_of targets) d folder)
      as Hkeep_mail.
    specialize (Hkeep_mail (eml_is_not_devices folder)
                  (workspace_world out_base since d w) dev).
    rewrite Hmail in Hkeep_mail. cbn [snd] in Hkeep_mail.
    rewrite Hkeep_mail by (intros Hne; by apply Hne).
    unfold workspace_world. by destruct (truthy since).
Qed.

End CollectRun.

(** * The scenarios, run *)

Section ScenarioChecks.
Import Reference Scenario.
#[local] Existing Instance python.

(** Claim C3.  The aggregation does raise: with PIEE configured and a ledger
    row whose amount is the text [abc], [float] raises [ValueError], the
    total is never computed, and the run dies with that exception before any
    request is sent and without writing its report. *)
Theorem piee_total_aborts_on_text_amount :
  Integrations.total_amount (ledger_of "out" ledger_world)
    = inl (value_error "could not convert string to float: 'abc'") ∧
  let r := Integrations.run offline piee_env "out" ledger_world in
  r.1 = Raises (value_error "could not convert string to float: 'abc'") ∧
  files r.2 !! "out/integrations_report.json" = None ∧
  trace r.2 = [].
Proof. cbv zeta. repeat split; reflexivity. Qed.

(** Claim C6.  With the gate passed, Coupa and SAM.gov unset and PIEE set,
    a ledger row whose amount is no number makes the run end with status 1:
    the skip of Coupa is logged, but the run never reaches the skip of
    SAM.gov nor its report. *)
Theorem skipped_target_run_exits_nonzero :
  configured piee_env "COUPA_API_URL" "COUPA_API_KEY" = false ∧
  configured piee_env "SAM_API_URL" "SAM_API_KEY" = false ∧
  Integrations.missing_identifiers piee_env = [] ∧
  let r := Integrations.run offline piee_env "out" ledger_world in
  exit_status r.1 = 1 ∧
  stdout r.2 =
    [log_line 1 ("Warning: recommended enterprise identifiers missing: "
                 +:+ "dodaac_contracting, paying_dodaac, fedstrip, finance_unitid"
                 +:+ ". Reports will proceed but may be incomplete.");
     log_line 2 "Skipping Coupa: credentials or URL not set";
     log_line 3 "Posting to PIEE..."].
Proof. cbv zeta. repeat split; reflexivity. Qed.

(** Claim C2.  A failure inside the SMS collector is not contained: with
    the provider configured and refusing the listing call, the exception
    leaves [run]; the device inventory is never asked and no index is
    written.  (The mail failure just before it is caught and printed.) *)
Theorem sms_failure_aborts_the_run :
  let r := NightlyAudit.run offline sms_env "out" "ops@example.org"
             (Some "2024-01-05") empty_world in
  r.1 = Raises refused ∧
  trace r.2 = [EvImapConnect None 993; EvSmsList "AC1" "tok" "2704018770" since] ∧
  stdout r.2 = ["Email fetch failed connection refused"] ∧
  files r.2 = ∅.
Proof. cbv zeta. repeat split; reflexivity. Qed.

(** Against claim C4 as stated: after a run whose device fetch got status
    500 the workspace holds no [devices.json], so the error object is not
    in a persisted artifact. *)
Lemma failed_device_fetch_leaves_no_artifact :
  let r := NightlyAudit.run mdm_failing mdm_env "out" "ops@example.org"
             (Some "2024-01-05") empty_world in
  files r.2 !! (workspace +:+ "/devices.json") = None ∧
  ¬ (files r.2 !! (workspace +:+ "/devices.json")
       = Some [json_dumps (NightlyAudit.status_error server_error)]).
Proof.
  intros r.
  assert (Hnone : files r.2 !! (workspace +:+ "/devices.json") = None) by reflexivity.
  split; [exact Hnone|]. rewrite Hnone. discriminate.
Qed.

(** Against claim C5 as stated: a malformed [--since] exits with status 2
    only after directories have been created, and an empty [--since] does
    not exit with status 2 at all. *)
Lemma bad_since_still_creates_directories :
  ¬ (let r := NightlyAudit.run offline ∅ "out" "ops@example.org"
                (Some "2024/01/05") empty_world in
     r.1 = Exits 2 ∧ dirs r.2 = dirs empty_world ∧ files r.2 = files empty_world) ∧
  ¬ (let r := NightlyAudit.run offline ∅ "out" "ops@example.org"
                (Some "") empty_world in
     r.1 = Exits 2).
Proof.
  split.
  - intros (_ & Hd & _).
    assert (Hdirs : dirs (NightlyAudit.run offline ∅ "out" "ops@example.org"
                            (Some "2024/01/05") empty_world).2
                    = {["out/daily"]} ∪ ({["out"]} ∪ ∅)) by reflexivity.
    rewrite Hdirs in Hd. change (dirs empty_world) with (∅ : gset string) in Hd.
    set_solver.
  - assert (Hrun : (NightlyAudit.run offline ∅ "out" "ops@example.org"
                      (Some "") empty_world).1 = Ret tt) by reflexivity.
    cbv zeta. rewrite Hrun. discriminate.
Qed.

(** Against claim C7 as stated: with nothing configured the mail collector
    still opens a connection, and the run prints the failure and the closing
    line but no skip notice. *)
Lemma unconfigured_mail_still_connects :
  let r := NightlyAudit.run offline ∅ "out" "ops@example.org"
             (Some "2024-01-05") empty_world in
  ¬ (trace r.2 = trace empty_world) ∧
  trace r.2 = [EvImapConnect None 993] ∧
  stdout r.2 = ["Email fetch failed connection refused"; "Nightly audit done"] ∧
  stderr r.2 = [].
Proof.
  intros r.
  assert (Htrace : trace r.2 = [EvImapConnect None 993]) by reflexivity.
  split; [rewrite Htrace; discriminate|]. repeat split; reflexivity.
Qed.

(** Against claim C10 as stated: with both credentials set and the provider
    refusing the listing call, no [sms.json] is written. *)
Lemma configured_sms_may_leave_no_artifact :
  let r := NightlyAudit.fetch_twilio_messages offline (Some "AC1") (Some "tok")
             ["2704018770"] since workspace empty_world in
  ¬ (is_Some (files r.2 !! (workspace +:+ "/sms.json")) ↔
     truthy (Some "AC1") = true ∧ truthy (Some "tok") = true).
Proof.
  intros r [_ Hwritten].
  destruct Hwritten as [pieces Hp]; [by split|].
  assert (Hnone : files r.2 !! (workspace +:+ "/sms.json") = None) by reflexivity.
  rewrite Hnone in Hp. discriminate.
Qed.


(** Against claim C1 as stated: with [UEI] missing and a clearing report
    that is an empty file, the run never reaches the gate: it ends with the
    parser's exception, status 1, and writes no error document. *)
Lemma malformed_clearing_report_preempts_the_gate :
  let r := Integrations.run offline ∅ "out" broken_clearing_world in
  is_missing ∅ "UEI" ∧
  ¬ (exit_status r.1 = 3 ∧
     is_Some (files r.2 !! "out/integrations_report.json")) ∧
  r.1 = Raises (json_error "Expecting value: line 1 column 1 (char 0)") ∧
  exit_status r.1 = 1 ∧
  files r.2 !! "out/integrations_report.json" = None ∧
  trace r.2 = [].
Proof.
  intros r.
  assert (Hrun : r.1 = Raises (json_error "Expecting value: line 1 column 1 (char 0)"))
    by reflexivity.
  split; [reflexivity|]. split.
  { intros [Hstatus _]. rewrite Hrun in Hstatus. discriminate Hstatus. }
  split; [exact Hrun|]. repeat split; reflexivity.
Qed.

(** Against claim C9 as stated: an input directory without [ledger.csv]
    whose clearing report is an empty file makes the run fail, identifiers
    set or not: it ends with the parser's exception before the gate and
    writes no report. *)
Lemma missing_ledger_run_may_still_fail :
  let r := Integrations.run offline piee_env "out" broken_clearing_world in
  files broken_clearing_world !! path_join "out" "ledger.csv" = None ∧
  ¬ (r.1 = Ret 0 ∨ r.1 = Exits 3) ∧
  r.1 = Raises (json_error "Expecting value: line 1 column 1 (char 0)") ∧
  files r.2 !! "out/integrations_report.json" = None.
Proof.
  intros r.
  assert (Hrun : r.1 = Raises (json_error "Expecting value: line 1 column 1 (char 0)"))
    by reflexivity.
  split; [reflexivity|]. split.
  { rewrite Hrun. intros [Hr | Hr]; discriminate Hr. }
  split; [exact Hrun|reflexivity].
Qed.

Lemma gate_rejects_missing_identifiers_witness :
  (is_missing ∅ "UEI" ∨ is_missing ∅ "CAGE_CODE") ∧
  inputs_load "out" empty_world ∧
  (Integrations.run offline ∅ "out" empty_world).1 = Exits 3.
Proof.
  assert (Hload : inputs_load "out" empty_world).
  { split; eexists; reflexivity. }
  split; [left; reflexivity|]. split; [exact Hload|].
  destruct (gate_rejects_missing_identifiers offline ∅ "out" empty_world)
    as [Hgate _]; [left; reflexivity|].
  destruct (Hgate Hload) as (missing & w' & Hrun & _).
  rewrite Hrun. reflexivity.
Defined.

Lemma empty_identifier_counts_as_missing_witness :
  ("UEI" = "UEI" ∨ "UEI" = "CAGE_CODE") ∧
  inputs_load "out" ledger_world ∧
  Integrations.run offline (<["UEI" := ""]> piee_env) "out" ledger_world
  = Integrations.run offline (delete "UEI" piee_env) "out" ledger_world ∧
  (Integrations.run offline (<["UEI" := ""]> piee_env) "out" ledger_world).1 = Exits 3.
Proof.
  assert (Hload : inputs_load "out" ledger_world).
  { split; eexists; reflexivity. }
  split; [left; reflexivity|]. split; [exact Hload|].
  destruct (empty_identifier_counts_as_missing offline piee_env "out" ledger_world "UEI")
    as (Hsame & _ & _ & _ & Hgate); [left; reflexivity|].
  split; [exact Hsame|].
  destruct (Hgate Hload) as (missing & w' & Hrun & _).
  rewrite Hrun. reflexivity.
Defined.

Lemma missing_ledger_is_empty_ledger_witness :
  files empty_world !! path_join "out" "ledger.csv" = None ∧
  (∃ clearing, (Integrations.load_clearing "out" empty_world).1 = Ret clearing) ∧
  Integrations.load_ledger "out" empty_world = (Ret [], empty_world) ∧
  ∃ results w', Integrations.run offline piee_env "out" empty_world = (Ret 0, w') ∧
    files w' !! path_join "out" "integrations_report.json"
      = Some [json_dumps
                (VDict [("run_ts", VStr (utcnow_isoformat 0 +:+ "Z"));
                        ("counts", VDict [("ledger_rows", VInt 0)]);
                        ("results", VDict results);
                        ("enterprise", Integrations.enterprise_val piee_env)])].
Proof.
  assert (Hclearing : ∃ clearing,
            (Integrations.load_clearing "out" empty_world).1 = Ret clearing).
  { eexists. reflexivity. }
  split; [reflexivity|]. split; [exact Hclearing|].
  destruct (missing_ledger_is_empty_ledger offline piee_env "out" empty_world)
    as (Hledger & Hgoes & _); [reflexivity|].
  split; [exact Hledger|].
  specialize (Hgoes Hclearing).
  change (nonempty (Integrations.missing_identifiers piee_env)) with false in Hgoes.
  destruct Hgoes as (results & w' & Hrun & Hreport & _).
  exists results, w'. split; [exact Hrun|exact Hreport].
Defined.

Lemma failed_device_fetch_yields_error_object_witness :
  truthy (Some "https://mdm.example/") = true ∧ truthy (Some "k") = true ∧
  resp_ok server_error = false ∧
  (∀ sent, requests_get mdm_failing sent (mdm_url "https://mdm.example/")
             (mdm_headers "k") = inr server_error) ∧
  start_date (Some "2024-01-05") empty_world = inr since ∧
  int_of_str (getenv_or mdm_env "IMAP_PORT" "993") = inr 993 ∧
  (∃ w', NightlyAudit.fetch_apple_mdm mdm_failing (Some "https://mdm.example/")
           (Some "k") workspace empty_world
         = (Ret (VDict [("error", VStr "status 500");
                        ("body", VStr "Internal Server Error")]), w') ∧
         files w' = files empty_world) ∧
  ∃ w' (emails sms : list PyVal) now,
    NightlyAudit.run mdm_failing mdm_env "out" "ops@example.org" (Some "2024-01-05")
      empty_world = (Ret tt, w') ∧
    files w' !! path_join (workspace_of "out" since) "index.json"
      = Some [json_dumps (NightlyAudit.index_doc since now emails sms
                            (NightlyAudit.status_error server_error))] ∧
    files w' !! path_join (workspace_of "out" since) "devices.json" = None.
Proof.
  assert (Hget : ∀ sent, requests_get mdm_failing sent (mdm_url "https://mdm.example/")
                           (mdm_headers "k") = inr server_error) by reflexivity.
  split; [reflexivity|]. split; [reflexivity|]. split; [reflexivity|].
  split; [exact Hget|]. split; [reflexivity|]. split; [reflexivity|].
  destruct (failed_device_fetch_yields_error_object mdm_failing mdm_env
              (Some "https://mdm.example/") (Some "k") workspace empty_world
              server_error)
    as [Hcollector Hrun]; try reflexivity.
  split.
  - destruct (Hcollector (Hget _)) as (w' & Hfetch & _ & Hfiles).
    exists w'. split; [exact Hfetch|exact Hfiles].
  - destruct (Hrun "out" "ops@example.org" (Some "2024-01-05") since 993)
      as (w' & emails & sms & now & Hr & Hindex & _ & Hdevices);
      [reflexivity|reflexivity|exact Hget|reflexivity|reflexivity
      |left; left; reflexivity|].
    exists w', emails, sms, now. split; [exact Hr|]. split; [exact Hindex|].
    rewrite Hdevices. reflexivity.
Defined.

Lemma bad_since_exits_after_bootstrap_witness :
  "2024/01/05" ≠ "" ∧
  strptime_ymd "2024/01/05"
    = inl (value_error "time data '2024/01/05' does not match format '%Y-%m-%d'") ∧
  (NightlyAudit.run offline ∅ "out" "ops@example.org" (Some "2024/01/05") empty_world).1
    = Exits 2.
Proof.
  split; [discriminate|]. split; [reflexivity|].
  destruct (bad_since_exits_after_bootstrap offline ∅ "out" "ops@example.org"
              "2024/01/05" empty_world
              (value_error "time data '2024/01/05' does not match format '%Y-%m-%d'"))
    as (w' & Hrun & _); [discriminate|reflexivity|].
  rewrite Hrun. reflexivity.
Defined.

Lemma unconfigured_sms_and_devices_are_skipped_witness :
  (truthy None = false ∨ truthy (Some "tok") = false) ∧
  (truthy (Some "https://mdm.example/") = false ∨ truthy (Some "") = false) ∧
  NightlyAudit.fetch_twilio_messages offline None (Some "tok") ["2704018770"]
    since workspace empty_world = (Ret [], empty_world) ∧
  NightlyAudit.fetch_apple_mdm offline (Some "https://mdm.example/") (Some "")
    workspace empty_world = (Ret VNone, empty_world).
Proof.
  split; [left; reflexivity|]. split; [right; reflexivity|].
  destruct (unconfigured_sms_and_devices_are_skipped offline None (Some "tok")
              (Some "https://mdm.example/") (Some "") ["2704018770"] since
              workspace empty_world "" [])
    as (Hsms & Hmdm & _).
  split; [apply Hsms; left; reflexivity|apply Hmdm; right; reflexivity].
Defined.

Lemma sms_artifact_follows_credentials_and_listing_witness :
  truthy (Some "AC1") = true ∧ truthy (Some "tok") = true ∧
  (∀ sent num, num ∈ ["5550100"; "2704018770"] →
     twilio_list sms_serving sent "AC1" "tok" num since = inr (sms_inbox num)) ∧
  (∀ sent num, twilio_list sms_quiet sent "AC1" "tok" num since = inr []) ∧
  (∃ w', NightlyAudit.fetch_twilio_messages sms_serving (Some "AC1") (Some "tok")
           ["5550100"; "2704018770"] since workspace empty_world
         = (Ret [NightlyAudit.sms_record
                   (mkSms "SM1" "+15550100" "2704018770" "hello" "2024-01-06 10:00:00")],
            w') ∧
         files w' = <[path_join workspace "sms.json" :=
                        [json_dumps
                           (VList [NightlyAudit.sms_record
                                     (mkSms "SM1" "+15550100" "2704018770" "hello"
                                        "2024-01-06 10:00:00")])]]>
                      (files empty_world)) ∧
  ∃ w', NightlyAudit.fetch_twilio_messages sms_quiet (Some "AC1") (Some "tok")
          ["2704018770"] since workspace empty_world = (Ret [], w') ∧
        files w' = <[path_join workspace "sms.json" := [json_dumps (VList [])]]>
                     (files empty_world).
Proof.
  assert (Hinbox : ∀ sent num, num ∈ ["5550100"; "2704018770"] →
            twilio_list sms_serving sent "AC1" "tok" num since = inr (sms_inbox num))
    by reflexivity.
  split; [reflexivity|]. split; [reflexivity|]. split; [exact Hinbox|].
  split; [reflexivity|]. split.
  - destruct (sms_artifact_follows_credentials_and_listing sms_serving (Some "AC1")
                (Some "tok") ["5550100"; "2704018770"] since workspace empty_world)
      as (_ & Hfound & _).
    destruct (Hfound eq_refl eq_refl sms_inbox Hinbox) as (w' & Hrun & _ & Hfiles).
    exists w'. split; [exact Hrun|exact Hfiles].
  - destruct (sms_artifact_follows_credentials_and_listing sms_quiet (Some "AC1")
                (Some "tok") ["2704018770"] since workspace empty_world)
      as (_ & _ & _ & Hquiet).
    apply Hquiet; reflexivity.
Defined.


Lemma report_lists_configured_targets_in_order_witness :
  ¬ (is_missing piee_env "UEI" ∨ is_missing piee_env "CAGE_CODE") ∧
  (configured piee_env "PIEE_API_URL" "PIEE_API_KEY" = true →
   ∃ total, Integrations.total_amount (ledger_of "out" empty_world) = inr total) ∧
  inputs_load "out" empty_world ∧
  ∃ (results : list (string * PyVal)) w',
    Integrations.run offline piee_env "out" empty_world = (Ret 0, w') ∧
    results.*1 = ["piee"].
Proof.
  assert (Hload : inputs_load "out" empty_world).
  { split; eexists; reflexivity. }
  assert (Hgate : ¬ (is_missing piee_env "UEI" ∨ is_missing piee_env "CAGE_CODE")).
  { intros [Hm | Hm]; discriminate Hm. }
  assert (Htotal : configured piee_env "PIEE_API_URL" "PIEE_API_KEY" = true →
            ∃ total, Integrations.total_amount (ledger_of "out" empty_world) = inr total).
  { intros _. eexists. reflexivity. }
  split; [exact Hgate|]. split; [exact Htotal|]. split; [exact Hload|].
  destruct (report_lists_configured_targets_in_order offline piee_env "out" empty_world
              Hload Hgate Htotal)
    as (results & w' & Hrun & _ & Hkeys & _).
  exists results, w'. split; [exact Hrun|exact Hkeys].
Defined.

Lemma recommended_warning_names_missing_fields_witness :
  inputs_load "out" empty_world ∧
  ¬ (is_missing piee_env "UEI" ∨ is_missing piee_env "CAGE_CODE") ∧
  ∃ entries,
    log_of (path_join "out" "integrations.log")
      (Integrations.run offline piee_env "out" empty_world).2
    = (log_line 1 (warning_message piee_env) :: log_lines entries) ∧
    Forall (λ e, e.2 ≠ warning_message piee_env) entries.
Proof.
  assert (Hload : inputs_load "out" empty_world).
  { split; eexists; reflexivity. }
  assert (Hgate : ¬ (is_missing piee_env "UEI" ∨ is_missing piee_env "CAGE_CODE")).
  { intros [Hm | Hm]; discriminate Hm. }
  split; [exact Hload|]. split; [exact Hgate|].
  destruct (recommended_warning_names_missing_fields offline piee_env "out" empty_world)
    as [_ Hlog].
  exact (Hlog Hload Hgate).
Defined.

Lemma upload_is_best_effort_witness :
  files index_world !! path_join workspace "index.json" = Some ["{}"] ∧
  ∃ w', NightlyAudit.upload offline archive_env (path_join workspace "index.json")
          index_world = (Ret tt, w') ∧
        files w' = files index_world ∧
        stdout w' = ["Upload failed connection refused"].
Proof.
  split; [reflexivity|].
  destruct (upload_is_best_effort offline archive_env (path_join workspace "index.json")
              ["{}"] index_world)
    as (w' & Hrun & Hfiles & _ & _ & Hout); [reflexivity|].
  exists w'. split; [exact Hrun|]. split; [exact Hfiles|exact Hout].
Defined.

Lemma mail_collector_retains_addressed_messages_witness :
  mailbox_serves mailbox None None None 993 since inbox_mail ∧
  (∀ sent, imap_logout mailbox sent = inr tt) ∧
  ∃ w', NightlyAudit.fetch_emails mailbox None None None 993 ["ops@example.org"]
          since workspace empty_world
        = (Ret [NightlyAudit.mail_summary 7
                  (mkParsedMail "Invoice" "acme@example.org"
                     (Some ["Ops@Example.org"]) "2024-01-06")], w') ∧
        trace w' = mail_events None None None 993 since [7; 9].
Proof.
  assert (Hserves : mailbox_serves mailbox None None None 993 since inbox_mail).
  { repeat split; try reflexivity.
    - intros m _. eexists. reflexivity.
    - apply (bool_decide_unpack _). reflexivity. }
  assert (Hlogout : ∀ sent, imap_logout mailbox sent = inr tt) by reflexivity.
  split; [exact Hserves|]. split; [exact Hlogout|].
  destruct (mail_collector_retains_addressed_messages mailbox None None None 993
              ["ops@example.org"] since workspace inbox_mail empty_world Hserves Hlogout)
    as (w' & Hrun & Htrace & _).
  exists w'. split; [exact Hrun|exact Htrace].
Defined.

Lemma late_mail_failure_discards_summaries_but_keeps_files_witness :
  mailbox_serves mailbox_drops None None None 993 since inbox_mail ∧
  (∀ sent, imap_logout mailbox_drops sent = inl refused) ∧
  ∃ w', try_except
          (NightlyAudit.fetch_emails mailbox_drops None None None 993
             ["ops@example.org"] since workspace)
          (λ e, print ("Email fetch failed " +:+ exn_str e) ;;; ret []) empty_world
        = (Ret [], w') ∧
        stdout w' = ["Email fetch failed connection refused"] ∧
        files w' !! eml_path workspace 7 = Some ["To: Ops@Example.org"].
Proof.
  assert (Hserves : mailbox_serves mailbox_drops None None None 993 since inbox_mail).
  { repeat split; try reflexivity.
    - intros m _. eexists. reflexivity.
    - apply (bool_decide_unpack _). reflexivity. }
  assert (Hlogout : ∀ sent, imap_logout mailbox_drops sent = inl refused) by reflexivity.
  split; [exact Hserves|]. split; [exact Hlogout|].
  destruct (late_mail_failure_discards_summaries_but_keeps_files mailbox_drops
              None None None 993 ["ops@example.org"] since workspace inbox_mail
              empty_world refused Hserves Hlogout)
    as (w' & Hrun & Hout & Hsaved).
  exists w'. split; [exact Hrun|]. split; [exact Hout|].
  apply (Hsaved 7 "To: Ops@Example.org"
           (mkParsedMail "Invoice" "acme@example.org" (Some ["Ops@Example.org"]) "2024-01-06"));
    [left|reflexivity|reflexivity].
Defined.

Lemma malformed_mail_port_aborts_the_run_witness :
  start_date (Some "2024-01-05") empty_world = inr since ∧
  int_of_str (getenv_or port_env "IMAP_PORT" "993")
    = inl (value_error "invalid literal for int() with base 10: 'imap'") ∧
  ∃ w', NightlyAudit.run offline port_env "out" "ops@example.org" (Some "2024-01-05")
          empty_world
        = (Raises (value_error "invalid literal for int() with base 10: 'imap'"), w') ∧
        files w' = ∅ ∧ trace w' = [].
Proof.
  split; [reflexivity|]. split; [reflexivity|].
  destruct (malformed_mail_port_aborts_the_run offline port_env "out" "ops@example.org"
              (Some "2024-01-05") empty_world since
              (value_error "invalid literal for int() with base 10: 'imap'"))
    as (w' & Hrun & _ & _ & Hfiles & Htrace & _); [reflexivity|reflexivity|].
  exists w'. split; [exact Hrun|]. split; [exact Hfiles|exact Htrace].
Defined.

Lemma mail_server_is_dialed_first_witness :
  start_date (Some "2024-01-05") empty_world = inr since ∧
  int_of_str (getenv_or sms_env "IMAP_PORT" "993") = inr 993 ∧
  ∃ evs, trace (NightlyAudit.run offline sms_env "out" "ops@example.org"
                  (Some "2024-01-05") empty_world).2
         = EvImapConnect None 993 :: evs.
Proof.
  split; [reflexivity|]. split; [reflexivity|].
  destruct (mail_server_is_dialed_first offline sms_env "out" "ops@example.org"
              (Some "2024-01-05") empty_world since 993)
    as (_ & evs & Htrace); [reflexivity|reflexivity|].
  exists evs. exact Htrace.
Defined.

Lemma sms_collector_concatenates_listings_witness :
  truthy (Some "AC1") = true ∧ truthy (Some "tok") = true ∧
  (∀ sent num, num ∈ ["5550100"; "2704018770"] →
     twilio_list sms_serving sent "AC1" "tok" num since = inr (sms_inbox num)) ∧
  ∃ w', NightlyAudit.fetch_twilio_messages sms_serving (Some "AC1") (Some "tok")
          ["5550100"; "2704018770"] since workspace empty_world
        = (Ret [NightlyAudit.sms_record
                  (mkSms "SM1" "+15550100" "2704018770" "hello" "2024-01-06 10:00:00")],
           w') ∧
        trace w' = [EvSmsList "AC1" "tok" "5550100" since;
                    EvSmsList "AC1" "tok" "2704018770" since].
Proof.
  assert (Hinbox : ∀ sent num, num ∈ ["5550100"; "2704018770"] →
            twilio_list sms_serving sent "AC1" "tok" num since = inr (sms_inbox num))
    by reflexivity.
  split; [reflexivity|]. split; [reflexivity|]. split; [exact Hinbox|].
  destruct (sms_collector_concatenates_listings sms_serving (Some "AC1") (Some "tok")
              sms_inbox ["5550100"; "2704018770"] since workspace empty_world
              eq_refl eq_refl Hinbox)
    as (w' & Hrun & _ & Htrace & _).
  exists w'. split; [exact Hrun|exact Htrace].
Defined.

Lemma collection_run_completes_witness :
  start_date (Some "2024-01-05") empty_world = inr since ∧
  int_of_str (getenv_or mdm_env "IMAP_PORT" "993") = inr 993 ∧
  (truthy (getenv mdm_env "TWILIO_SID") = false ∨
   truthy (getenv mdm_env "TWILIO_TOKEN") = false) ∧
  ∃ w', NightlyAudit.run mdm_failing mdm_env "out" "ops@example.org"
          (Some "2024-01-05") empty_world = (Ret tt, w') ∧
        last (stdout w') = Some "Nightly audit done".
Proof.
  split; [reflexivity|]. split; [reflexivity|]. split; [left; reflexivity|].
  destruct (collection_run_completes mdm_failing mdm_env "out" "ops@example.org"
              (Some "2024-01-05") empty_world since 993)
    as (w' & w1 & w2 & w3 & emails & sms & devices & Hrun & _ & _ & _ & _ & _ & Hlast);
    [reflexivity|reflexivity|left; left; reflexivity|].
  exists w'. split; [exact Hrun|exact Hlast].
Defined.

End ScenarioChecks.
